(** * Concordia-MCP: the analytical pipeline of the wallet analyser

    A shallow embedding of

      - [src/analyzers/patternAnalyzer.ts]   (transaction patterns),
      - [src/analyzers/defiAnalyzer.ts]      (DeFi position synthesis),
      - [src/analyzers/recommendStrategy.ts] (strategy recommendation),
      - the helpers of [src/formatters/formatWallet.ts] that render what
        the analyzers return,

    the properties the specification states about the analyzers, and
    further properties of the code.

    A TypeScript [number] is an IEEE 754 binary64 value: it is modelled by
    Rocq's primitive [float], whose operations are the correctly rounded
    binary64 ones, NaN included.  Timestamps are epoch milliseconds, i.e.
    integers: the field is a [Z], converted with [number_of_Z] where the
    code does floating-point arithmetic on it. *)

From Stdlib Require Import ZArith Floats Ascii Permutation Sorted.
From stdpp Require Import gmap strings list.

Set Warnings "-inexact-float".
Local Open Scope Z_scope.

(** ** Numbers *)

Abbreviation number := float.

(** The binary64 value of an integer (round to nearest, ties to even). *)
Definition number_of_Z (z : Z) : number :=
  SF2Prim (binary_normalize prec emax z 0 false).

(** [array.length] as a number. *)
Definition number_of_nat (n : nat) : number := number_of_Z (Z.of_nat n).

(** [Math.pow(x, 2)]: the engines' [pow] returns [x * x] for the exponent 2. *)
Definition Math_pow2 (x : number) : number := (x * x)%float.

Definition Math_sqrt (x : number) : number := PrimFloat.sqrt x.

(** JavaScript truthiness of a number: [0], [-0] and [NaN] are falsy. *)
Definition truthy_number (x : number) : bool :=
  negb (PrimFloat.is_zero x || PrimFloat.is_nan x).

(** ** Data model ([types/interfaces]) *)

(** Modelled from the spec: the declaration of [WalletActivity] is not part
    of the sources at hand; section 3 gives the closed set of activity types
    and the fields.  Where two records of the code share a field name
    ([type], [value], [timestamp], [description]), the field of the later
    record carries the name of its record in front. *)
Inductive ActivityType :=
  | Transfer | Swap | Mint | Staking | Trading | Lending | AccountCreation | Other.

#[global] Instance ActivityType_eq_dec : EqDecision ActivityType.
Proof. solve_decision. Defined.

(** The string the type is at run time (it keys the grouping object). *)
Definition type_name (t : ActivityType) : string :=
  match t with
  | Transfer => "Transfer" | Swap => "Swap" | Mint => "Mint"
  | Staking => "Staking" | Trading => "Trading" | Lending => "Lending"
  | AccountCreation => "Account Creation" | Other => "Other"
  end.

Record WalletActivity := {
  signature : string;
  type : ActivityType;
  programId : option string;
  token : string;
  value : option number;
  timestamp : Z;
  success : bool;
  description : option string
}.

Record TransactionPattern := {
  patternType : string;
  confidence : number;
  pattern_description : string
}.

(** ** [patternAnalyzer.ts] *)

Definition MINIMUM_TRANSACTIONS : nat := 5.
Definition MINIMUM_SWAPS : nat := 3.
Definition MINIMUM_STAKING_ACTIONS : nat := 3.
Definition DCA_DEVIATION_THRESHOLD : number := 0.3%float.

Module CONFIDENCE.
Definition LOW : number := 0.5%float.
Definition MEDIUM : number := 0.7%float.
Definition HIGH : number := 0.8%float.
Definition VERY_HIGH : number := 0.9%float.
End CONFIDENCE.

Module PATTERNS.
Definition INSUFFICIENT_DATA : TransactionPattern :=
    {| patternType := "insufficient_data";
       confidence := 0%float;
       pattern_description :=
         "Not enough transaction history to establish patterns." |}.
Definition GENERAL : TransactionPattern :=
    {| patternType := "general";
       confidence := CONFIDENCE.LOW;
       pattern_description :=
         "No specific pattern detected in transaction history." |}.
Definition DCA : TransactionPattern :=
    {| patternType := "dca";
       confidence := CONFIDENCE.MEDIUM;
       pattern_description :=
         "Regular token purchases suggest a dollar-cost averaging strategy." |}.
Definition LENDING : TransactionPattern :=
    {| patternType := "lending_active";
       confidence := CONFIDENCE.VERY_HIGH;
       pattern_description :=
         "Active lending positions detected. Monitor collateral ratios to avoid liquidation." |}.
Definition YIELD_FARMING : TransactionPattern :=
    {| patternType := "yield_farming";
       confidence := CONFIDENCE.HIGH;
       pattern_description :=
         "Multiple staking activities suggest active yield farming strategy." |}.
End PATTERNS.

(** [groups[type].push(activity)], creating the group on first use. *)
Definition group_push (groups : gmap string (list WalletActivity))
    (activity : WalletActivity) : gmap string (list WalletActivity) :=
  let key := type_name (type activity) in
  let groups :=
    match groups !! key with
    | Some _ => groups
    | None => <[key := []]> groups
    end in
  <[key := default [] (groups !! key) ++ [activity]]> groups.

Definition groupActivitiesByType (activities : list WalletActivity)
    : gmap string (list WalletActivity) :=
  fold_left group_push activities ∅.

(** [activities && activities.length > 0] *)
Definition hasActivities (activities : option (list WalletActivity)) : bool :=
  match activities with
  | Some l => bool_decide (0 < length l)%nat
  | None => false
  end.

Definition hasMinimumActivities (activities : option (list WalletActivity))
    (minimum : nat) : bool :=
  match activities with
  | Some l => bool_decide (minimum <= length l)%nat
  | None => false
  end.

(** [values.reduce((sum, value) => sum + value, 0) / values.length] and the
    population variance around it. *)
Definition calculateStats (values : list number) : number * number :=
  let mean :=
    (fold_left (fun sum value => sum + value) values 0 /
     number_of_nat (length values))%float in
  let variance :=
    (fold_left (fun sum value => sum + Math_pow2 (value - mean)) values 0 /
     number_of_nat (length values))%float in
  (mean, Math_sqrt variance).

(** [[...swaps].sort((a, b) => b.timestamp - a.timestamp)]: the stable sort
    of a copy, newest first.  [insert_desc] puts an element in front of the
    first one that is not newer, so equal timestamps keep their order. *)
Fixpoint insert_desc (a : WalletActivity) (l : list WalletActivity)
    : list WalletActivity :=
  match l with
  | [] => [a]
  | b :: l' =>
      if timestamp b <=? timestamp a then a :: b :: l' else b :: insert_desc a l'
  end.

Definition sort_desc (l : list WalletActivity) : list WalletActivity :=
  fold_right insert_desc [] l.

(** The loop [for (i = 1; i < sortedSwaps.length; i++)
    timeGaps.push(sortedSwaps[i - 1].timestamp - sortedSwaps[i].timestamp)]. *)
Fixpoint timeGaps (sortedSwaps : list WalletActivity) : list number :=
  match sortedSwaps with
  | a :: (b :: _) as rest =>
      (number_of_Z (timestamp a) - number_of_Z (timestamp b))%float :: timeGaps rest
  | _ => []
  end.

(** [standardDeviation / mean] for the gaps of a swap group. *)
Definition variationCoefficient (swaps : list WalletActivity) : number :=
  let '(mean, standardDeviation) := calculateStats (timeGaps (sort_desc swaps)) in
  (standardDeviation / mean)%float.

(** [detectDCAPattern] pushes onto [patterns]; the list is passed through. *)
Definition detectDCAPattern (swaps : list WalletActivity)
    (patterns : list TransactionPattern) : list TransactionPattern :=
  if bool_decide (length swaps < MINIMUM_SWAPS)%nat then patterns
  else if (variationCoefficient swaps <? DCA_DEVIATION_THRESHOLD)%float
       then patterns ++ [PATTERNS.DCA]
       else patterns.

Definition analyzeTransactionPatterns (activities : list WalletActivity)
    : list TransactionPattern :=
  if bool_decide (length activities < MINIMUM_TRANSACTIONS)%nat
  then [PATTERNS.INSUFFICIENT_DATA]
  else
    let activityGroups := groupActivitiesByType activities in
    let patterns := [] in
    let patterns :=
      detectDCAPattern (default [] (activityGroups !! "Swap")) patterns in
    let patterns :=
      if hasActivities (activityGroups !! "Lending")
      then patterns ++ [PATTERNS.LENDING] else patterns in
    let patterns :=
      if hasMinimumActivities (activityGroups !! "Staking") MINIMUM_STAKING_ACTIONS
      then patterns ++ [PATTERNS.YIELD_FARMING] else patterns in
    if bool_decide (0 < length patterns)%nat then patterns else [PATTERNS.GENERAL].

(** ** Arrays as mutable objects

    [analyzeTransactionPatterns] above passes array contents around.  The
    code works on array objects: [push] and [sort] write to the array they
    are called on.  To say what the analyzer writes to, the same code is
    embedded once more over a store of array objects; a reference is the
    index of its array in the store, a new array is put at the end.  A
    dangling reference is an error ([None]). *)

Abbreviation ref := nat.
Abbreviation store := (list (list WalletActivity)).

Definition ST (A : Type) : Type := store -> option (A * store).

#[global] Instance st_ret : MRet ST := fun A (a : A) s => Some (a, s).

#[global] Instance st_bind : MBind ST := fun A B (k : A -> ST B) (m : ST A) s =>
  match m s with
  | Some (a, s') => k a s'
  | None => None
  end.

(** The failing computation (a [TypeError]). *)
Definition st_fail {A} : ST A := fun _ => None.

(** A new array object with the given elements: [[]], [[...xs]]. *)
Definition new_array (elements : list WalletActivity) : ST ref :=
  fun s => Some (length s, s ++ [elements]).

Definition read_array (r : ref) : ST (list WalletActivity) :=
  fun s => match s !! r with
           | Some l => Some (l, s)
           | None => None
           end.

(** [r.push(activity)] *)
Definition array_push (r : ref) (activity : WalletActivity) : ST unit :=
  fun s => match s !! r with
           | Some l => Some (tt, <[r := l ++ [activity]]> s)
           | None => None
           end.

(** [r.sort((a, b) => b.timestamp - a.timestamp)], in place. *)
Definition array_sort (r : ref) : ST unit :=
  fun s => match s !! r with
           | Some l => Some (tt, <[r := sort_desc l]> s)
           | None => None
           end.

Fixpoint st_fold {A B} (f : A -> B -> ST A) (l : list B) (a : A) : ST A :=
  match l with
  | [] => mret a
  | b :: l' => a' ← f a b; st_fold f l' a'
  end.

(** One step of the [reduce]: [groups[type] = []] makes a new array on the
    first activity of a type, [groups[type].push(activity)] writes to the
    array of the group. *)
Definition group_push_st (groups : gmap string ref) (activity : WalletActivity)
    : ST (gmap string ref) :=
  let key := type_name (type activity) in
  groups ← match groups !! key with
           | Some _ => mret groups
           | None => r ← new_array []; mret (<[key := r]> groups)
           end;
  match groups !! key with
  | Some r => array_push r activity;; mret groups
  | None => st_fail
  end.

(** The grouping object maps the name of a type to the array of its
    group. *)
Definition groupActivitiesByType_st (activities : ref) : ST (gmap string ref) :=
  l ← read_array activities; st_fold group_push_st l ∅.

Definition detectDCAPattern_st (swaps : ref) (patterns : list TransactionPattern)
    : ST (list TransactionPattern) :=
  l ← read_array swaps;
  if bool_decide (length l < MINIMUM_SWAPS)%nat then mret patterns
  else
    sortedSwaps ← new_array l;  (* [...swaps] *)
    array_sort sortedSwaps;;
    sorted ← read_array sortedSwaps;
    let '(mean, standardDeviation) := calculateStats (timeGaps sorted) in
    let variationCoefficient := (standardDeviation / mean)%float in
    if (variationCoefficient <? DCA_DEVIATION_THRESHOLD)%float
    then mret (patterns ++ [PATTERNS.DCA])
    else mret patterns.

Definition hasActivities_st (activities : option ref) : ST bool :=
  match activities with
  | Some r => l ← read_array r; mret (bool_decide (0 < length l)%nat)
  | None => mret false
  end.

Definition hasMinimumActivities_st (activities : option ref) (minimum : nat)
    : ST bool :=
  match activities with
  | Some r => l ← read_array r; mret (bool_decide (minimum <= length l)%nat)
  | None => mret false
  end.

Definition analyzeTransactionPatterns_st (activities : ref)
    : ST (list TransactionPattern) :=
  l ← read_array activities;
  if bool_decide (length l < MINIMUM_TRANSACTIONS)%nat
  then mret [PATTERNS.INSUFFICIENT_DATA]
  else
    activityGroups ← groupActivitiesByType_st activities;
    swaps ← match activityGroups !! "Swap" with
            | Some r => mret r
            | None => new_array []
            end;
    patterns ← detectDCAPattern_st swaps [];
    lending ← hasActivities_st (activityGroups !! "Lending");
    let patterns :=
      if (lending : bool) then patterns ++ [PATTERNS.LENDING] else patterns in
    staking ← hasMinimumActivities_st (activityGroups !! "Staking")
                MINIMUM_STAKING_ACTIONS;
    let patterns :=
      if (staking : bool) then patterns ++ [PATTERNS.YIELD_FARMING] else patterns in
    mret (if bool_decide (0 < length patterns)%nat
          then patterns else [PATTERNS.GENERAL]).

(** ** The protocol identifier ([services/transaction], [config/constants]) *)

(** The analyzers import [identifyProtocol]; they are embedded over any
    implementation of it. *)
Class Services := { identifyProtocol : option string -> string }.

Definition KNOWN_PROGRAMS : list (string * string) :=
  [ ("RAYDIUM_SWAP", "675kPX9MHTjS2zt1qfr1NYHuzeLXfQM9H24wFSUt1Mp8");
    ("ORCA_SWAP", "9W959DqEETiGZocYWCQPaJ6sBmUzgfxXfqGeTEdp3aQP");
    ("JUPITER_AGGREGATOR", "JUP6LkbZbjS1jKKwapdHNy74zcZ3tLUZoi5QNyVTaV4");
    ("SERUM_DEX_V3", "9xQeWvG816bUx9EPjHmaT23yvVM2ZWbrrpZb9PusVFin");
    ("FLUXBEAM", "FLUXubRmkEi2q6K3Y9kBPg9248ggaZVsoSFhtJHSrm1X");
    ("MARINADE_STAKING", "MarBmsSgKXdrN1egZf5sqe1TMai9K1rChYNDJgjq7aD");
    ("SOLEND", "So1endDq2YkqhipRh3WViPa8hdiSpxWy6z3Z6tMCpAo");
    ("MANGO_MARKETS", "mv3ekLzLbnVPNxjSKvqBpU3ZeZXPQdEC3bp5MDEBG68");
    ("TOKEN_PROGRAM", "TokenkegQfeZyiNwAJbNbGKPFXCWuBvf9Ss623VQ5DA");
    ("ASSOCIATED_TOKEN_PROGRAM", "ATokenGPvbdGVxr1b2hvZbsiqW5xWH25efTNsLJA8knL");
    ("METAPLEX", "metaqbxxUerdq28cj1RbAWkYQm3ybzjb6a8bt518x1s") ].

(** Modelled from the spec: [services/transaction] is not part of the
    sources at hand.  Section 4.1: an exact-match lookup of the address in
    the table of known programs, giving the key name, and ["Unknown"] when
    nothing matches or the address is absent. *)
Definition identifyProtocol_table (programId : option string) : string :=
  match programId with
  | None => "Unknown"
  | Some id =>
      match List.find (fun entry => String.eqb (snd entry) id) KNOWN_PROGRAMS with
      | Some entry => fst entry
      | None => "Unknown"
      end
  end.

Definition table_services : Services :=
  {| identifyProtocol := identifyProtocol_table |}.

(** ** [recommendStrategy.ts] *)

Inductive RiskLevel := low | medium | high.

Record Strategy := {
  strategy : string;
  strategy_description : string;
  riskLevel : RiskLevel;
  potentialReturn : string
}.

(** Modelled from the spec: the declaration of [WalletProfile] is not part
    of the sources at hand; section 3 gives its fields.  [riskProfile] is
    the string found at run time. *)
Record WalletProfile := {
  address : string;
  riskProfile : string;
  portfolioDiversification : number;
  activityCount : nat;
  firstActivityDate : Z;
  lastActivityDate : Z;
  transactionVolume : number;
  favoriteProtocols : list (string * nat)
}.

(** The strategy objects of the catalog.  The code compares strategies with
    [===], object identity: a strategy value is a reference to one of the
    seven catalog objects, [STRATEGIES] reads its fields. *)
Inductive StrategyRef :=
  | BEGINNER | STAKING_SOL | LIQUID_STAKING | SUPPLY_STABLECOINS
  | DIVERSIFIED_LP | LEVERAGED_FARMING | PERPETUAL_TRADING.

#[global] Instance StrategyRef_eq_dec : EqDecision StrategyRef.
Proof. solve_decision. Defined.

Definition STRATEGIES (r : StrategyRef) : Strategy :=
  match r with
  | BEGINNER =>
      {| strategy := "Start DeFi";
         strategy_description := "Begin with small positions in established protocols.";
         riskLevel := low;
         potentialReturn := "3-5% APY" |}
  | STAKING_SOL =>
      {| strategy := "Staking SOL";
         strategy_description := "Stake SOL with a validator for steady returns.";
         riskLevel := low;
         potentialReturn := "5-7% APY" |}
  | LIQUID_STAKING =>
      {| strategy := "Liquid Staking";
         strategy_description :=
           "Use Marinade Finance for liquid staking to earn staking rewards while maintaining liquidity.";
         riskLevel := low;
         potentialReturn := "6-8% APY" |}
  | SUPPLY_STABLECOINS =>
      {| strategy := "Supply Stablecoins";
         strategy_description := "Supply USDC or USDT to Solend to earn lending interest.";
         riskLevel := medium;
         potentialReturn := "8-12% APY" |}
  | DIVERSIFIED_LP =>
      {| strategy := "Diversified LP";
         strategy_description := "Provide liquidity to stable pairs on Raydium or Orca.";
         riskLevel := medium;
         potentialReturn := "10-20% APY" |}
  | LEVERAGED_FARMING =>
      {| strategy := "Leveraged Farming";
         strategy_description :=
           "Use leverage on Solend or Mango Markets for amplified yields.";
         riskLevel := high;
         potentialReturn := "20-40% APY with risk" |}
  | PERPETUAL_TRADING =>
      {| strategy := "Perpetual Trading";
         strategy_description :=
           "Trade perpetual futures on Mango Markets or Drift Protocol.";
         riskLevel := high;
         potentialReturn := "Variable" |}
  end.

(** [Object.entries(PROTOCOL_STRATEGY_MAP)], in insertion order. *)
Definition PROTOCOL_STRATEGY_MAP : list (string * StrategyRef) :=
  [ ("MARINADE_STAKING", LIQUID_STAKING);
    ("SOLEND", SUPPLY_STABLECOINS);
    ("MANGO_MARKETS", PERPETUAL_TRADING) ].

Definition RISK_PROFILE_STRATEGIES : list (string * list StrategyRef) :=
  [ ("conservative", [STAKING_SOL; LIQUID_STAKING]);
    ("moderate", [SUPPLY_STABLECOINS; DIVERSIFIED_LP]);
    ("aggressive", [LEVERAGED_FARMING; PERPETUAL_TRADING]) ].

(** The properties every object literal inherits from [Object.prototype];
    each is a function or an object, so truthy and not iterable. *)
Definition Object_prototype_keys : list string :=
  [ "constructor"; "__defineGetter__"; "__defineSetter__"; "hasOwnProperty";
    "__lookupGetter__"; "__lookupSetter__"; "isPrototypeOf";
    "propertyIsEnumerable"; "toString"; "valueOf"; "__proto__";
    "toLocaleString" ].

Definition own_property {A} (object : list (string * A)) (key : string) : option A :=
  snd <$> List.find (fun entry => String.eqb (fst entry) key) object.

Definition extractUsedProtocols `{Services} (activities : list WalletActivity)
    : gset string :=
  fold_left
    (fun protocolSet activity =>
       match programId activity with
       | Some id =>
           if negb (String.eqb id "") && negb (String.eqb id "Unknown")
           then protocolSet ∪ {[ identifyProtocol (Some id) ]}
           else protocolSet
       | None => protocolSet
       end)
    activities ∅.

(** [Object.entries(PROTOCOL_STRATEGY_MAP).some(...)] *)
Definition shouldExclude (usedProtocols : gset string) (strategy : StrategyRef)
    : bool :=
  existsb
    (fun entry =>
       bool_decide (fst entry ∈ usedProtocols) && bool_decide (snd entry = strategy))
    PROTOCOL_STRATEGY_MAP.

(** [RISK_PROFILE_STRATEGIES[riskProfile] || RISK_PROFILE_STRATEGIES.moderate];
    [None] when the lookup finds an inherited property, over which the
    [for ... of] loop throws. *)
Definition baseStrategies (riskProfile : string) : option (list StrategyRef) :=
  match own_property RISK_PROFILE_STRATEGIES riskProfile with
  | Some strategies => Some strategies
  | None =>
      if bool_decide (riskProfile ∈ Object_prototype_keys) then None
      else own_property RISK_PROFILE_STRATEGIES "moderate"
  end.

Definition generateRecommendations (riskProfile : string)
    (usedProtocols : gset string) : option (list StrategyRef) :=
  base ← baseStrategies riskProfile;
  Some (fold_left
          (fun recommendations strategy =>
             if negb (shouldExclude usedProtocols strategy)
             then recommendations ++ [strategy]
             else recommendations)
          base []).

(** [profile?.riskProfile || "moderate"] *)
Definition resolveRiskProfile (profile : option WalletProfile) : string :=
  match profile with
  | Some p => if String.eqb (riskProfile p) "" then "moderate" else riskProfile p
  | None => "moderate"
  end.

Definition recommendStrategies `{Services} (activities : list WalletActivity)
    (profile : option WalletProfile) : option (list StrategyRef) :=
  if bool_decide (length activities = 0%nat) then Some [BEGINNER]
  else
    let riskProfile := resolveRiskProfile profile in
    let usedProtocols := extractUsedProtocols activities in
    generateRecommendations riskProfile usedProtocols.

(** ** [defiAnalyzer.ts] *)

Record DeFiPosition := {
  protocol : string;
  position_type : string;
  tokenA : option string;
  position_value : option number;
  apy : option number;
  position_timestamp : Z
}.

(** Modelled from the spec: [utils/cache] is not part of the sources at
    hand.  Section 3: an entry holds the activities, optionally the
    positions, and the profile; [get] gives [undefined] on a miss and [set]
    overwrites the entry of the key. *)
Record CacheEntry := {
  activities : list WalletActivity;
  defiPositions : option (list DeFiPosition);
  profile : option WalletProfile
}.

(** What the analyzer reads and writes besides its argument: the
    process-wide cache, the clock behind [Date.now()] and the generator
    behind [Math.random()].  [clock n] is the reading of the [n]-th call of
    [Date.now()], [random n] the result of the [n]-th call of
    [Math.random()]. *)
Record World := {
  walletCache : gmap string CacheEntry;
  clock : nat -> Z;
  clock_reads : nat;
  random : nat -> number;
  random_draws : nat
}.

Definition IO (A : Type) : Type := World -> A * World.

#[global] Instance io_ret : MRet IO := fun A (a : A) w => (a, w).

#[global] Instance io_bind : MBind IO := fun A B (k : A -> IO B) (m : IO A) w =>
  let '(a, w') := m w in k a w'.

Definition Date_now : IO Z := fun w =>
  (clock w (clock_reads w),
   {| walletCache := walletCache w; clock := clock w;
      clock_reads := S (clock_reads w);
      random := random w; random_draws := random_draws w |}).

Definition Math_random : IO number := fun w =>
  (random w (random_draws w),
   {| walletCache := walletCache w; clock := clock w;
      clock_reads := clock_reads w;
      random := random w; random_draws := S (random_draws w) |}).

Definition walletCache_get (key : string) : IO (option CacheEntry) := fun w =>
  (walletCache w !! key, w).

Definition walletCache_set (key : string) (entry : CacheEntry) : IO unit := fun w =>
  (tt,
   {| walletCache := <[key := entry]> (walletCache w); clock := clock w;
      clock_reads := clock_reads w;
      random := random w; random_draws := random_draws w |}).

(** [array.map(f)] for a callback with effects, left to right. *)
Fixpoint io_map {A B} (f : A -> IO B) (l : list A) : IO (list B) :=
  match l with
  | [] => mret []
  | a :: l' => b ← f a; bs ← io_map f l'; mret (b :: bs)
  end.

Record ApyRange := { min : number; max : number }.

Module APY_RANGES.
Definition STAKING : ApyRange := {| min := 5.0%float; max := 8.0%float |}.
Definition LENDING : ApyRange := {| min := 3.0%float; max := 7.0%float |}.
Definition LIQUIDITY : ApyRange := {| min := 8.0%float; max := 12.0%float |}.
End APY_RANGES.

Definition ONE_DAY_MS : Z := 24 * 60 * 60 * 1000.

Definition getActivitiesByType (activities : list WalletActivity)
    (t : ActivityType) : list WalletActivity :=
  List.filter (fun activity => bool_decide (type activity = t)) activities.

(** [sum + (activity.value || 0)] over the list, from [0]. *)
Definition calculateTotalValue (activities : list WalletActivity) : number :=
  fold_left
    (fun sum activity =>
       (sum + match value activity with
              | Some v => if truthy_number v then v else 0
              | None => 0
              end)%float)
    activities 0%float.

Definition generateRandomApy (range : ApyRange) : IO number :=
  r ← Math_random; mret (min range + r * (max range - min range))%float.

Definition processStakingPositions `{Services} (activities : list WalletActivity)
    : IO (list DeFiPosition) :=
  io_map
    (fun activity =>
       a ← generateRandomApy APY_RANGES.STAKING;
       mret {| protocol := identifyProtocol (programId activity);
               position_type := "Staking";
               tokenA := Some (token activity);
               position_value := value activity;
               apy := Some a;
               position_timestamp := timestamp activity |})
    (getActivitiesByType activities Staking).

(** [Math.max(...timestamps)] of a list with first element [t]. *)
Definition Math_max (t : Z) (timestamps : list Z) : Z :=
  fold_left Z.max timestamps t.

Definition processTradingPositions `{Services} (activities : list WalletActivity)
    : IO (list DeFiPosition) :=
  let positions := [] in
  let swapActivities :=
    List.filter
      (fun activity =>
         bool_decide (type activity = Swap) ||
         String.eqb (identifyProtocol (programId activity)) "FLUXBEAM")
      activities in
  if bool_decide (length swapActivities = 0%nat) then mret positions
  else
    now ← Date_now;
    let recentSwaps :=
      List.filter (fun activity => now - timestamp activity <? ONE_DAY_MS)
        swapActivities in
    (* [recentSwaps.length > 0], and the spread of the timestamps *)
    match List.map timestamp recentSwaps with
    | t :: timestamps =>
        mret (positions ++
              [ {| protocol := "FLUXBEAM";
                   position_type := "Trading";
                   tokenA := None;
                   position_value := Some (calculateTotalValue recentSwaps);
                   apy := None;
                   position_timestamp := Math_max t timestamps |} ])
    | [] => mret positions
    end.

Definition processLendingPositions `{Services} (activities : list WalletActivity)
    : IO (list DeFiPosition) :=
  io_map
    (fun activity =>
       a ← generateRandomApy APY_RANGES.LENDING;
       mret {| protocol := identifyProtocol (programId activity);
               position_type := "Lending";
               tokenA := Some (token activity);
               position_value := value activity;
               apy := Some a;
               position_timestamp := timestamp activity |})
    (getActivitiesByType activities Lending).

Definition processLiquidityPositions `{Services} (activities : list WalletActivity)
    : IO (list DeFiPosition) :=
  let lpProtocols := ["RAYDIUM_SWAP"; "ORCA_SWAP"] in
  io_map
    (fun activity =>
       a ← generateRandomApy APY_RANGES.LIQUIDITY;
       mret {| protocol := identifyProtocol (programId activity);
               position_type := "Liquidity";
               tokenA := None;
               position_value := value activity;
               apy := Some a;
               position_timestamp := timestamp activity |})
    (List.filter
       (fun activity =>
          bool_decide (type activity = AccountCreation) &&
          bool_decide (identifyProtocol (programId activity) ∈ lpProtocols))
       activities).

Definition createAggregatePosition (totalVolume : number) : IO DeFiPosition :=
  now ← Date_now;
  mret {| protocol := "Aggregate";
          position_type := "Trading Statistics";
          tokenA := Some "Multiple";
          position_value := Some totalVolume;
          apy := None;
          position_timestamp := now |}.

(** [{ ...cachedData, defiPositions: positions }] *)
Definition with_defiPositions (cachedData : CacheEntry)
    (positions : list DeFiPosition) : CacheEntry :=
  {| activities := activities cachedData;
     defiPositions := Some positions;
     profile := profile cachedData |}.

Definition analyzeDeFiPositions `{Services} (publicKey : string)
    : IO (list DeFiPosition) :=
  cachedData ← walletCache_get publicKey;
  match cachedData ≫= defiPositions with
  | Some positions => mret positions
  | None =>
      let activities := default [] (activities <$> cachedData) in
      let successfulActivities :=
        List.filter (fun activity => success activity) activities in
      if bool_decide (length successfulActivities = 0%nat) then mret []
      else
        staking ← processStakingPositions successfulActivities;
        trading ← processTradingPositions successfulActivities;
        lending ← processLendingPositions successfulActivities;
        liquidity ← processLiquidityPositions successfulActivities;
        let positions := staking ++ trading ++ lending ++ liquidity in
        let swapActivities := getActivitiesByType successfulActivities Swap in
        positions ←
          (if bool_decide (0 < length swapActivities)%nat
           then
             let totalVolume := calculateTotalValue swapActivities in
             aggregate ← createAggregatePosition totalVolume;
             mret (positions ++ [aggregate])
           else mret positions);
        match cachedData with
        | Some entry =>
            walletCache_set publicKey (with_defiPositions entry positions)
        | None => mret tt
        end;;
        mret positions
  end.

(** ** The recommender over an identifier with effects

    [recommendStrategies] above takes [identifyProtocol] as a function.  The
    module that defines it is not among the sources at hand.  To say what
    the recommender itself reads, the same code is embedded once more as a
    computation in the world of the position synthesizer, over an
    identifier that may read and write this world; the calls are made in
    the order of the loop. *)

(** A [for ... of] loop that updates a value, with effects. *)
Fixpoint io_fold {A B} (f : A -> B -> IO A) (l : list B) (a : A) : IO A :=
  match l with
  | [] => mret a
  | b :: l' => a' ← f a b; io_fold f l' a'
  end.

Definition extractUsedProtocols_io (identify : option string -> IO string)
    (activities : list WalletActivity) : IO (gset string) :=
  io_fold
    (fun protocolSet activity =>
       match programId activity with
       | Some id =>
           if negb (String.eqb id "") && negb (String.eqb id "Unknown")
           then p ← identify (Some id); mret (protocolSet ∪ {[ p ]})
           else mret protocolSet
       | None => mret protocolSet
       end)
    activities ∅.

Definition recommendStrategies_io (identify : option string -> IO string)
    (activities : list WalletActivity) (profile : option WalletProfile)
    : IO (option (list StrategyRef)) :=
  if bool_decide (length activities = 0%nat) then mret (Some [BEGINNER])
  else
    let riskProfile := resolveRiskProfile profile in
    usedProtocols ← extractUsedProtocols_io identify activities;
    mret (generateRecommendations riskProfile usedProtocols).

(** ** [formatters/formatWallet.ts]

    The report formatter reads what the analyzers return.  The helpers
    below are the ones that turn analyzer results into text without
    formatting a number; [formatBehavioralPatterns] formats the confidence
    with [Number.prototype.toFixed], which is taken as given. *)

Class NumberFormat := { Number_toFixed : number -> nat -> string }.

Definition newline : string := String "010"%char EmptyString.

(** [array.join(separator)] for an array of strings. *)
Fixpoint Array_join (separator : string) (l : list string) : string :=
  match l with
  | [] => ""
  | [x] => x
  | x :: rest => x +:+ separator +:+ Array_join separator rest
  end.

Definition RISK_EMOJI : list (string * string) :=
  [ ("conservative", "🟢"); ("moderate", "🟠"); ("aggressive", "🔴") ].

Definition PROTOCOL_EMOJI : list (string * string) :=
  [ ("RAYDIUM_SWAP", "☀️"); ("ORCA_SWAP", "🐋"); ("JUPITER_AGGREGATOR", "🪐");
    ("MARINADE_STAKING", "🧪"); ("SOLEND", "💵"); ("MANGO_MARKETS", "🥭");
    ("FLUXBEAM", "⚡"); ("Aggregate", "📊") ].

(** The string a risk level is at run time. *)
Definition riskLevel_name (r : RiskLevel) : string :=
  match r with
  | low => "low" | medium => "medium" | high => "high"
  end.

Definition getConfidenceEmoji (confidence : number) : string :=
  if (0.8 <? confidence)%float then "🔍"
  else if (0.5 <? confidence)%float then "🔎"
  else "❓".

Definition getRiskLevelEmoji (riskLevel : string) : string :=
  if String.eqb riskLevel "low" then "🟢"
  else if String.eqb riskLevel "medium" then "🟠"
  else if String.eqb riskLevel "high" then "🔴"
  else "⚪".

Definition formatBehavioralPatterns `{NumberFormat}
    (patterns : list TransactionPattern) : string :=
  if bool_decide (length patterns = 0%nat)
  then "## Behavioral Patterns" +:+ newline +:+
       "No significant transaction patterns detected."
  else
    let patternsContent :=
      Array_join (newline +:+ newline)
        (List.map
           (fun pattern =>
              let confidencePercentage :=
                Number_toFixed (confidence pattern * 100)%float 1 in
              let confidenceEmoji := getConfidenceEmoji (confidence pattern) in
              "### " +:+ patternType pattern +:+ " " +:+ confidenceEmoji +:+
              " (" +:+ confidencePercentage +:+ "% confidence)" +:+ newline +:+
              pattern_description pattern)
           patterns) in
    "## Behavioral Patterns" +:+ newline +:+ patternsContent.

Definition formatRecommendations (recommendations : list Strategy) : string :=
  if bool_decide (length recommendations = 0%nat)
  then "## Strategy Recommendations" +:+ newline +:+
       "No strategy recommendations available."
  else
    let recommendationsContent :=
      Array_join (newline +:+ newline)
        (List.map
           (fun rec =>
              let riskLevelEmoji :=
                getRiskLevelEmoji (riskLevel_name (riskLevel rec)) in
              "### " +:+ strategy rec +:+ " " +:+ riskLevelEmoji +:+ newline +:+
              "- " +:+ strategy_description rec +:+ newline +:+
              "- Expected Return: " +:+ potentialReturn rec)
           recommendations) in
    "## Strategy Recommendations" +:+ newline +:+ recommendationsContent.

(** [acc[activity.type] = (acc[activity.type] || 0) + 1] over the list,
    from the empty object. *)
Definition countActivityTypes (activities : list WalletActivity) : gmap string nat :=
  fold_left
    (fun acc activity =>
       <[type_name (type activity) :=
           (default 0 (acc !! type_name (type activity)) + 1)%nat]> acc)
    activities ∅.

(** [s.toUpperCase()] on a string of ASCII characters: the letters [a] to
    [z] become [A] to [Z]. *)
Definition upper_char (c : ascii) : ascii :=
  let n := nat_of_ascii c in
  if (97 <=? n)%nat && (n <=? 122)%nat then ascii_of_nat (n - 32) else c.

Fixpoint toUpperCase (s : string) : string :=
  match s with
  | EmptyString => EmptyString
  | String c s' => String (upper_char c) (toUpperCase s')
  end.

(** [k.replace("_", " ")]: the first underscore becomes a space. *)
Fixpoint replace_underscore (k : string) : string :=
  match k with
  | EmptyString => EmptyString
  | String c k' =>
      if Ascii.eqb c "_" then String " " k' else String c (replace_underscore k')
  end.

(** [s.includes(sub)] *)
Fixpoint includes (s sub : string) : bool :=
  String.prefix sub s ||
  match s with
  | EmptyString => false
  | String _ s' => includes s' sub
  end.

(** [Object.keys(PROTOCOL_EMOJI).find(...)], then the emoji of the key. *)
Definition getProtocolEmoji (protocolName : string) : string :=
  match
    List.find
      (fun k => includes (toUpperCase protocolName) (replace_underscore k))
      (List.map fst PROTOCOL_EMOJI)
  with
  | Some key => default "🔹" (own_property PROTOCOL_EMOJI key)
  | None => "🔹"
  end.

(** * Notions used in the statements *)

(** ** The pattern analyzer *)

(** The patterns the three detectors add, in the order of the code. *)
Definition lending_part (l : list WalletActivity) : list TransactionPattern :=
  if bool_decide (0 < length (getActivitiesByType l Lending))%nat
  then [PATTERNS.LENDING] else [].

Definition staking_part (l : list WalletActivity) : list TransactionPattern :=
  if bool_decide (MINIMUM_STAKING_ACTIONS <= length (getActivitiesByType l Staking))%nat
  then [PATTERNS.YIELD_FARMING] else [].

Definition detected (l : list WalletActivity) : list TransactionPattern :=
  detectDCAPattern (getActivitiesByType l Swap) [] ++ lending_part l ++ staking_part l.

(** The confidence is a number, not NaN, between 0 and 1. *)
Definition well_defined_confidence (p : TransactionPattern) : Prop :=
  PrimFloat.is_nan (confidence p) = false /\
  (0 <=? confidence p)%float = true /\ (confidence p <=? 1)%float = true.

(** The order of a list sorted newest first. *)
Definition newer_first (a b : WalletActivity) : Prop := timestamp b <= timestamp a.

(** What holds of the groups while the activities are folded: [s0] is the
    store before the call, [l0] the activities folded so far.  The arrays
    of [s0] are as they were; each group is an array made after the call
    began and holds the activities of its type in input order; two types
    never share an array. *)
Definition group_inv (s0 : store) (l0 : list WalletActivity)
    (groups : gmap string ref) (s : store) : Prop :=
  take (length s0) s = s0 /\
  (forall t r, groups !! type_name t = Some r ->
     (length s0 <= r)%nat /\ s !! r = Some (getActivitiesByType l0 t)) /\
  (forall t, groups !! type_name t = None -> getActivitiesByType l0 t = []) /\
  (forall t1 t2 r, groups !! type_name t1 = Some r ->
     groups !! type_name t2 = Some r -> t1 = t2).

(** ** The position synthesizer *)

(** The position list cached for a wallet, if any. *)
Definition cached_positions (w : World) (publicKey : string)
    : option (list DeFiPosition) :=
  walletCache w !! publicKey ≫= defiPositions.

(** The successful activities cached for a wallet. *)
Definition cached_successes (w : World) (publicKey : string)
    : list WalletActivity :=
  List.filter (fun activity => success activity)
    (default [] (activities <$> walletCache w !! publicKey)).

(** The activities the trading pass looks at: of type Swap, or of the
    FLUXBEAM protocol. *)
Definition trading_candidates `{Services} (activities : list WalletActivity)
    : list WalletActivity :=
  List.filter
    (fun activity =>
       bool_decide (type activity = Swap) ||
       String.eqb (identifyProtocol (programId activity)) "FLUXBEAM")
    activities.

(** Those of them that pass the test of the pass,
    [now - timestamp < ONE_DAY_MS], for the reading [now] of the clock. *)
Definition recent_trades `{Services} (now : Z) (activities : list WalletActivity)
    : list WalletActivity :=
  List.filter (fun activity => now - timestamp activity <? ONE_DAY_MS)
    (trading_candidates activities).

(** [Math.random()] gives numbers that are at least 0 and below 1. *)
Definition unit_draws (w : World) : Prop :=
  forall n, (0 <=? random w n)%float = true /\ (random w n <? 1)%float = true.

(** The position has an [apy], a number between [lo] and [hi]. *)
Definition apy_within (lo hi : number) (p : DeFiPosition) : Prop :=
  exists a, apy p = Some a /\ (lo <=? a)%float = true /\ (a <=? hi)%float = true.

Definition is_staking_position (p : DeFiPosition) : bool :=
  String.eqb (position_type p) "Staking".

(** ** Binary64 *)

(** The exponent of the numbers of a given magnitude: [fexp] of
    [SpecFloat] for the precision 53 and the least exponent -1074. *)
Definition fexp64 (k : Z) : Z := Z.max (k - 53) (-1074).

(** 1, 3, 5 and 8 as mantissa and exponent. *)
Definition SF_one : spec_float := S754_finite false 4503599627370496 (-52).
Definition SF_three : spec_float := S754_finite false 6755399441055744 (-51).
Definition SF_five : spec_float := S754_finite false 5629499534213120 (-50).
Definition SF_eight : spec_float := S754_finite false 4503599627370496 (-49).

(** ** What the patterns depend on *)

(** The type and the timestamp of an activity. *)
Definition type_and_time (activity : WalletActivity) : ActivityType * Z :=
  (type activity, timestamp activity).

(** ** The passes of the position synthesizer *)

(** The cache, the clock and the generator of the second world are those
    of the first: at most the numbers of readings and of draws differ. *)
Definition same_sources (w w' : World) : Prop :=
  walletCache w' = walletCache w /\ clock w' = clock w /\ random w' = random w.

(** The positions of a type. *)
Definition positions_of_type (t : string) (positions : list DeFiPosition)
    : list DeFiPosition :=
  List.filter (fun p => String.eqb (position_type p) t) positions.

(** The activities the liquidity pass looks at: account creations on one of
    the two liquidity-pool protocols. *)
Definition liquidity_candidates `{Services} (activities : list WalletActivity)
    : list WalletActivity :=
  List.filter
    (fun activity =>
       bool_decide (type activity = AccountCreation) &&
       bool_decide (identifyProtocol (programId activity) ∈ ["RAYDIUM_SWAP"; "ORCA_SWAP"]))
    activities.

(** The position is made from the activity: it carries its protocol, its
    value and its timestamp, and has the given type and token. *)
Definition position_of_activity `{Services} (t : string)
    (tok : WalletActivity -> option string)
    (activity : WalletActivity) (p : DeFiPosition) : Prop :=
  protocol p = identifyProtocol (programId activity) /\
  position_type p = t /\
  tokenA p = tok activity /\
  position_value p = value activity /\
  position_timestamp p = timestamp activity.

(** ** More of binary64 *)

(** 4, 7 and 12 as mantissa and exponent. *)
Definition SF_four : spec_float := S754_finite false 4503599627370496 (-50).
Definition SF_seven : spec_float := S754_finite false 7881299347898368 (-50).
Definition SF_twelve : spec_float := S754_finite false 6755399441055744 (-49).

(** ** The report formatter *)

(** The name is made of ASCII characters. *)
Definition ascii_name (name : string) : Prop :=
  Forall (fun c => (nat_of_ascii c < 128)%nat) (String.list_ascii_of_string name).

(** ** Integers as numbers, regular timestamps *)

(** The number of the format whose value is the integer [z], for an
    integer above 0 and below [2 ^ 53]: the mantissa has 53 digits. *)
Definition integer_float (z : Z) : spec_float :=
  S754_finite false (Z.to_pos (z * 2 ^ (53 - Zdigits2 z))) (Zdigits2 z - 53).

(** The gaps between neighbours of a list of timestamps. *)
Fixpoint timestamp_gaps (timestamps : list Z) : list number :=
  match timestamps with
  | a :: (b :: _) as rest => (number_of_Z a - number_of_Z b)%float :: timestamp_gaps rest
  | _ => []
  end.

(** The timestamps [first + k * gap] for [k] below [n], the latest
    first. *)
Fixpoint regular_timestamps (first gap : Z) (n : nat) : list Z :=
  match n with
  | O => []
  | S k => (first + Z.of_nat k * gap) :: regular_timestamps first gap k
  end.

(** ** Sums and statistics of numbers *)

(** The sum of the numbers, added from 0 in the order of the list. *)
Definition sum_of (values : list number) : number :=
  fold_left PrimFloat.add values 0%float.

Definition mean_of (values : list number) : number :=
  (sum_of values / number_of_nat (length values))%float.

(** The population variance: the mean of the squares of the deviations
    from the mean; the divisor is the number of values, not one less. *)
Definition population_variance (values : list number) : number :=
  (sum_of (List.map (fun v => (v - mean_of values) * (v - mean_of values)) values) /
   number_of_nat (length values))%float.

Definition population_standard_deviation (values : list number) : number :=
  PrimFloat.sqrt (population_variance values).

(** What an activity counts for in a total: its value, and 0 when the
    value is missing, zero or not a number. *)
Definition counted_value (activity : WalletActivity) : number :=
  match value activity with
  | Some v => if truthy_number v then v else 0%float
  | None => 0%float
  end.

(** ** The last 24 hours *)

(** The timestamp lies within the 24 hours that end at [now]. *)
Definition within_last_day (now timestamp : Z) : Prop :=
  now - 86400000 < timestamp <= now.

(** The candidates of the trading pass dated after [start], whether before
    or after the reading of the clock. *)
Definition trades_after `{Services} (start : Z) (activities : list WalletActivity)
    : list WalletActivity :=
  List.filter (fun activity => bool_decide (start < timestamp activity))
    (trading_candidates activities).

(** ** Identifiers with effects *)

(** The answer of the identifier depends on the program only, not on the
    world it is asked in. *)
Definition deterministic_identifier (identify : option string -> IO string) : Prop :=
  forall programId w w', fst (identify programId w) = fst (identify programId w').

(** The identifier as a function: its answers in the world [w]. *)
Definition services_of (identify : option string -> IO string) (w : World)
    : Services :=
  {| identifyProtocol := fun programId => fst (identify programId w) |}.

(** * Inputs of the examples *)

Definition activity_at (t : ActivityType) (ts : Z) : WalletActivity :=
  {| signature := ""; type := t; programId := None; token := "SOL";
     value := None; timestamp := ts; success := true; description := None |}.

(** Four swaps at the timestamps 0, 1000, 2000 and 3000. *)
Definition regular_swaps : list WalletActivity :=
  [ activity_at Swap 0; activity_at Swap 1000; activity_at Swap 2000;
    activity_at Swap 3000 ].

(** Swaps with the gaps 1000, 50 and 9000. *)
Definition irregular_swaps : list WalletActivity :=
  [ activity_at Swap 0; activity_at Swap 1000; activity_at Swap 1050;
    activity_at Swap 10050 ].

(** Three swaps of one timestamp. *)
Definition same_time_swaps : list WalletActivity :=
  [ activity_at Swap 1000; activity_at Swap 1000; activity_at Swap 1000 ].

(** A store with one array: a transfer and the irregular swaps. *)
Definition example_activities : list WalletActivity :=
  activity_at Transfer 5 :: irregular_swaps.

Definition example_store : store := [example_activities].

(** A staking activity on Marinade, and a conservative profile. *)
Definition marinade_activity : WalletActivity :=
  {| signature := "sig"; type := Staking;
     programId := Some "MarBmsSgKXdrN1egZf5sqe1TMai9K1rChYNDJgjq7aD";
     token := "SOL"; value := Some 2%float; timestamp := 1700000000000;
     success := true; description := None |}.

Definition conservative_profile : WalletProfile :=
  {| address := "wallet"; riskProfile := "conservative";
     portfolioDiversification := 40%float; activityCount := 1;
     firstActivityDate := 1700000000000; lastActivityDate := 1700000000000;
     transactionVolume := 2%float; favoriteProtocols := [("MARINADE_STAKING", 1%nat)] |}.

(** A world for the examples: every reading of the clock is 100 seconds
    after [marinade_activity], every draw is 0.5. *)
Definition world_of (cache : gmap string CacheEntry) : World :=
  {| walletCache := cache;
     clock := fun _ => 1700000100000; clock_reads := 0;
     random := fun _ => 0.5%float; random_draws := 0 |}.

(** A swap that failed, a swap of 1.5 made 50 seconds before the reading of
    the clock, and one of 4 made two days before. *)
Definition failed_swap : WalletActivity :=
  {| signature := "failed"; type := Swap; programId := None; token := "SOL";
     value := Some 1%float; timestamp := 1700000000000;
     success := false; description := None |}.

Definition recent_swap : WalletActivity :=
  {| signature := "recent"; type := Swap; programId := None; token := "SOL";
     value := Some 1.5%float; timestamp := 1700000050000;
     success := true; description := None |}.

Definition old_swap : WalletActivity :=
  {| signature := "old"; type := Swap; programId := None; token := "SOL";
     value := Some 4%float; timestamp := 1699827300000;
     success := true; description := None |}.

Definition stale_position : DeFiPosition :=
  {| protocol := "MARINADE_STAKING"; position_type := "Staking";
     tokenA := Some "SOL"; position_value := Some 2%float;
     apy := Some 6.5%float; position_timestamp := 1700000000000 |}.

(** Positions were cached; the activities cached now hold no success. *)
Definition stale_entry : CacheEntry :=
  {| activities := [failed_swap];
     defiPositions := Some [stale_position];
     profile := None |}.

Definition stale_world : World := world_of {[ "wallet" := stale_entry ]}.

(** A wallet whose entry holds one successful staking activity. *)
Definition staking_world : World :=
  world_of {[ "wallet" := {| activities := [marinade_activity];
                             defiPositions := None;
                             profile := None |} ]}.

(** Five activities, one of them a lending activity; and five with three
    staking activities. *)
Definition lending_activities : list WalletActivity :=
  [ activity_at Lending 0; activity_at Transfer 1; activity_at Transfer 2;
    activity_at Transfer 3; activity_at Transfer 4 ].

Definition staking_activities : list WalletActivity :=
  [ activity_at Staking 0; activity_at Transfer 1; activity_at Staking 2;
    activity_at Transfer 3; activity_at Staking 4 ].

(** An activity on Solend. *)
Definition solend_activity : WalletActivity :=
  {| signature := "lend"; type := Lending;
     programId := Some "So1endDq2YkqhipRh3WViPa8hdiSpxWy6z3Z6tMCpAo";
     token := "USDC"; value := Some 10%float; timestamp := 1700000020000;
     success := true; description := None |}.

(** A failed transfer, a failed staking activity on Marinade, and a
    profile without a risk profile. *)
Definition failed_transfer : WalletActivity :=
  {| signature := "failed transfer"; type := Transfer; programId := Some "Unknown";
     token := "USDC"; value := Some 7%float; timestamp := 5;
     success := false; description := None |}.

Definition failed_marinade_activity : WalletActivity :=
  {| signature := "failed stake"; type := Staking;
     programId := Some "MarBmsSgKXdrN1egZf5sqe1TMai9K1rChYNDJgjq7aD";
     token := "mSOL"; value := None; timestamp := 1700000090000;
     success := false; description := None |}.

Definition diversified_profile : WalletProfile :=
  {| address := "other wallet"; riskProfile := "";
     portfolioDiversification := 80%float; activityCount := 12;
     firstActivityDate := 1600000000000; lastActivityDate := 1700000090000;
     transactionVolume := 35%float; favoriteProtocols := [] |}.

(** A wallet whose entry holds a successful swap of two days ago and a
    failed one. *)
Definition swap_world : World :=
  world_of {[ "wallet" := {| activities := [old_swap; failed_swap];
                             defiPositions := None;
                             profile := None |} ]}.

(** A swap of 2 dated ten days after the reading of the clock. *)
Definition future_swap : WalletActivity :=
  {| signature := "future"; type := Swap; programId := None; token := "SOL";
     value := Some 2%float; timestamp := 1700864100000;
     success := true; description := None |}.

(** An identifier that looks the program up in the table after a reading
    of the clock. *)
Definition clocked_identifier (programId : option string) : IO string :=
  _ ← Date_now; mret (identifyProtocol_table programId).

(** A wallet whose entry holds the swap of the future alone. *)
Definition future_world : World :=
  world_of {[ "wallet" := {| activities := [future_swap];
                             defiPositions := None;
                             profile := None |} ]}.

(** * Properties *)

(** ** Sums and statistics *)

Lemma fold_add_map {A} (f : A -> number) (l : list A) :
  forall sum,
    fold_left (fun sum a => sum + f a)%float l sum =
    fold_left PrimFloat.add (List.map f l) sum.
Proof. induction l as [|a l IH]; intros sum; simpl; [reflexivity|apply IH]. Qed.

(** [calculateStats] returns the mean and the population standard
    deviation of the values. *)
Lemma calculateStats_statistics (values : list number) :
  calculateStats values = (mean_of values, population_standard_deviation values).
Proof.
  unfold calculateStats, population_standard_deviation, population_variance,
    Math_sqrt, Math_pow2.
  rewrite (fold_add_map (fun v => (v - mean_of values) * (v - mean_of values))%float).
  reflexivity.
Qed.

Lemma calculateTotalValue_sum (activities : list WalletActivity) :
  calculateTotalValue activities = sum_of (List.map counted_value activities).
Proof. unfold calculateTotalValue, sum_of. apply (fold_add_map counted_value). Qed.

(** The test of the trading pass, [now - timestamp < ONE_DAY_MS], keeps the
    candidates dated after the instant 24 hours before [now]. *)
Lemma recent_trades_after `{Services} (now : Z) (activities : list WalletActivity) :
  recent_trades now activities = trades_after (now - 86400000) activities.
Proof.
  unfold recent_trades, trades_after. apply List.filter_ext. intros a.
  change ONE_DAY_MS with 86400000.
  destruct (Z.ltb_spec (now - timestamp a) 86400000); case_bool_decide;
    (reflexivity || lia).
Qed.

(** ** Grouping by type *)

Lemma type_name_inj (t1 t2 : ActivityType) :
  type_name t1 = type_name t2 -> t1 = t2.
Proof. destruct t1, t2; simpl; congruence. Qed.

Lemma group_push_lookup (groups : gmap string (list WalletActivity))
    (a : WalletActivity) (t : ActivityType) :
  group_push groups a !! type_name t =
  if decide (type a = t)
  then Some (default [] (groups !! type_name t) ++ [a])
  else groups !! type_name t.
Proof.
  unfold group_push. destruct (decide (type a = t)) as [->|Hne].
  - rewrite lookup_insert_eq.
    destruct (groups !! type_name t) eqn:E; [now rewrite E|].
    now rewrite lookup_insert_eq.
  - assert (type_name (type a) ≠ type_name t) by (intros E; apply Hne, type_name_inj, E).
    rewrite lookup_insert_ne by assumption.
    destruct (groups !! type_name (type a)); [reflexivity|].
    now rewrite lookup_insert_ne.
Qed.

Lemma fold_group_push_lookup (l : list WalletActivity) (t : ActivityType) :
  forall groups : gmap string (list WalletActivity),
    fold_left group_push l groups !! type_name t =
    match getActivitiesByType l t with
    | [] => groups !! type_name t
    | _ :: _ => Some (default [] (groups !! type_name t) ++ getActivitiesByType l t)
    end.
Proof.
  unfold getActivitiesByType.
  induction l as [|a l IH]; intros groups; simpl; [reflexivity|].
  rewrite IH, group_push_lookup.
  destruct (decide (type a = t)) as [E|E].
  - rewrite bool_decide_eq_true_2 by assumption. simpl.
    destruct (List.filter _ l); simpl; [reflexivity|].
    now rewrite <- app_assoc.
  - rewrite bool_decide_eq_false_2 by assumption. reflexivity.
Qed.

(** The group of a type holds the activities of the type in input order; a
    type without activities has no group. *)
Lemma groupActivitiesByType_lookup (l : list WalletActivity) (t : ActivityType) :
  groupActivitiesByType l !! type_name t =
  match getActivitiesByType l t with
  | [] => None
  | _ :: _ => Some (getActivitiesByType l t)
  end.
Proof.
  unfold groupActivitiesByType. rewrite fold_group_push_lookup, lookup_empty.
  reflexivity.
Qed.

Lemma group_or_empty (l : list WalletActivity) (t : ActivityType) :
  default [] (groupActivitiesByType l !! type_name t) = getActivitiesByType l t.
Proof.
  rewrite groupActivitiesByType_lookup. now destruct (getActivitiesByType l t).
Qed.

Lemma hasActivities_group (l : list WalletActivity) (t : ActivityType) :
  hasActivities (groupActivitiesByType l !! type_name t) =
  bool_decide (0 < length (getActivitiesByType l t))%nat.
Proof.
  rewrite groupActivitiesByType_lookup.
  destruct (getActivitiesByType l t); simpl; reflexivity.
Qed.

Lemma hasMinimumActivities_group (l : list WalletActivity) (t : ActivityType) (n : nat) :
  (0 < n)%nat ->
  hasMinimumActivities (groupActivitiesByType l !! type_name t) n =
  bool_decide (n <= length (getActivitiesByType l t))%nat.
Proof.
  intros Hn. rewrite groupActivitiesByType_lookup.
  destruct (getActivitiesByType l t); [|reflexivity].
  symmetry. apply bool_decide_eq_false_2. simpl. lia.
Qed.

(** ** The pattern analyzer as a function of the three groups *)

Lemma nonempty_or_general (p : list TransactionPattern) :
  (if bool_decide (0 < length p)%nat then p else [PATTERNS.GENERAL]) =
  match p with
  | [] => [PATTERNS.GENERAL]
  | _ :: _ => p
  end.
Proof. destruct p; reflexivity. Qed.

Lemma analyzeTransactionPatterns_enough (l : list WalletActivity) :
  (MINIMUM_TRANSACTIONS <= length l)%nat ->
  analyzeTransactionPatterns l =
  match detected l with
  | [] => [PATTERNS.GENERAL]
  | _ :: _ => detected l
  end.
Proof.
  intros Hlen. unfold analyzeTransactionPatterns.
  rewrite bool_decide_eq_false_2 by lia.
  change "Swap"%string with (type_name Swap).
  change "Lending"%string with (type_name Lending).
  change "Staking"%string with (type_name Staking).
  rewrite group_or_empty, hasActivities_group.
  rewrite hasMinimumActivities_group by (unfold MINIMUM_STAKING_ACTIONS; lia).
  cbv zeta. rewrite nonempty_or_general.
  assert (E : forall (b1 b2 : bool) (d : list TransactionPattern),
             (if b2
              then (if b1 then d ++ [PATTERNS.LENDING] else d) ++ [PATTERNS.YIELD_FARMING]
              else if b1 then d ++ [PATTERNS.LENDING] else d) =
             d ++ (if b1 then [PATTERNS.LENDING] else []) ++
                  (if b2 then [PATTERNS.YIELD_FARMING] else [])).
  { intros [] [] d; simpl; rewrite <- ?app_assoc, ?app_nil_r; reflexivity. }
  rewrite E. reflexivity.
Qed.

(** ** The sort of the DCA detector *)

Lemma insert_desc_perm (a : WalletActivity) (l : list WalletActivity) :
  Permutation (insert_desc a l) (a :: l).
Proof.
  induction l as [|b l IH]; simpl; [reflexivity|].
  destruct (timestamp b <=? timestamp a); [reflexivity|].
  rewrite IH. apply perm_swap.
Qed.

Lemma sort_desc_perm (l : list WalletActivity) : Permutation (sort_desc l) l.
Proof.
  induction l as [|a l IH]; simpl; [reflexivity|].
  rewrite insert_desc_perm. now constructor.
Qed.

Lemma length_sort_desc (l : list WalletActivity) : length (sort_desc l) = length l.
Proof. apply Permutation_length, sort_desc_perm. Qed.

Lemma insert_desc_sorted (a : WalletActivity) (l : list WalletActivity) :
  StronglySorted newer_first l -> StronglySorted newer_first (insert_desc a l).
Proof.
  induction 1 as [|b l Hs IH Hb]; simpl.
  - repeat constructor.
  - destruct (Z.leb_spec (timestamp b) (timestamp a)) as [Hle|Hlt].
    + constructor; [now constructor|].
      constructor; [exact Hle|].
      eapply Forall_impl; [exact Hb|]. unfold newer_first. intros c Hc; lia.
    + constructor; [exact IH|].
      rewrite insert_desc_perm. constructor; [unfold newer_first; lia|exact Hb].
Qed.

Lemma sort_desc_sorted (l : list WalletActivity) :
  StronglySorted newer_first (sort_desc l).
Proof.
  induction l as [|a l IH]; simpl; [constructor|].
  now apply insert_desc_sorted.
Qed.

(** The sort is stable: activities of one timestamp keep their order. *)
Lemma insert_desc_stable (t : Z) (a : WalletActivity) (l : list WalletActivity) :
  List.filter (fun b => timestamp b =? t) (insert_desc a l) =
  List.filter (fun b => timestamp b =? t) (a :: l).
Proof.
  induction l as [|b l IH]; [reflexivity|].
  simpl insert_desc.
  destruct (Z.leb_spec (timestamp b) (timestamp a)) as [Hle|Hlt]; [reflexivity|].
  simpl in *. rewrite IH.
  destruct (Z.eqb_spec (timestamp a) t), (Z.eqb_spec (timestamp b) t);
    try reflexivity; lia.
Qed.

Lemma sort_desc_stable (t : Z) (l : list WalletActivity) :
  List.filter (fun b => timestamp b =? t) (sort_desc l) =
  List.filter (fun b => timestamp b =? t) l.
Proof.
  induction l as [|a l IH]; [reflexivity|].
  simpl sort_desc. rewrite insert_desc_stable. simpl. now rewrite IH.
Qed.

Lemma length_timeGaps (l : list WalletActivity) :
  length (timeGaps l) = Nat.pred (length l).
Proof.
  induction l as [|a [|b l] IH]; try reflexivity.
  change (S (length (timeGaps (b :: l))) = S (length l)).
  now rewrite IH.
Qed.

(** The gaps are those between neighbours. *)
Lemma timeGaps_lookup (l : list WalletActivity) :
  forall (i : nat) (a b : WalletActivity),
    l !! i = Some a -> l !! S i = Some b ->
    timeGaps l !! i =
    Some (number_of_Z (timestamp a) - number_of_Z (timestamp b))%float.
Proof.
  induction l as [|x [|y l] IH]; intros i a b Ha Hb.
  - discriminate Ha.
  - destruct i as [|[|i]]; discriminate Hb.
  - change (timeGaps (x :: y :: l))
      with ((number_of_Z (timestamp x) - number_of_Z (timestamp y))%float
            :: timeGaps (y :: l)).
    destruct i as [|i].
    + injection Ha as <-. injection Hb as <-. reflexivity.
    + apply (IH i a b Ha Hb).
Qed.

(** ** The patterns of a result *)

Lemma patternType_detected (l : list WalletActivity) (p : TransactionPattern) :
  p ∈ detected l ->
  p = PATTERNS.DCA \/ p = PATTERNS.LENDING \/ p = PATTERNS.YIELD_FARMING.
Proof.
  unfold detected, detectDCAPattern, lending_part, staking_part.
  repeat case_bool_decide; repeat case_match;
    rewrite ?elem_of_app, ?elem_of_cons, ?elem_of_nil; intuition.
Qed.

(** Every pattern of a result is one of the five predefined ones. *)
Lemma analyzeTransactionPatterns_predefined (l : list WalletActivity)
    (p : TransactionPattern) :
  p ∈ analyzeTransactionPatterns l ->
  p ∈ [PATTERNS.INSUFFICIENT_DATA; PATTERNS.GENERAL; PATTERNS.DCA;
       PATTERNS.LENDING; PATTERNS.YIELD_FARMING].
Proof.
  destruct (decide (length l < MINIMUM_TRANSACTIONS)%nat) as [Hlt|Hge].
  - unfold analyzeTransactionPatterns. rewrite bool_decide_eq_true_2 by assumption.
    rewrite !elem_of_cons. tauto.
  - rewrite analyzeTransactionPatterns_enough by lia.
    destruct (detected l) eqn:E.
    + rewrite !elem_of_cons. tauto.
    + rewrite <- E. intros Hp. apply patternType_detected in Hp.
      rewrite !elem_of_cons. tauto.
Qed.

Lemma dca_in_detected (l : list WalletActivity) :
  PATTERNS.DCA ∈ detected l <->
  (MINIMUM_SWAPS <= length (getActivitiesByType l Swap))%nat /\
  (variationCoefficient (getActivitiesByType l Swap) <? DCA_DEVIATION_THRESHOLD)%float = true.
Proof.
  unfold detected, detectDCAPattern, lending_part, staking_part.
  repeat case_bool_decide; repeat case_match;
    rewrite ?elem_of_app, ?elem_of_cons, ?elem_of_nil;
    split; intros; try (split; [lia|congruence]);
    intuition (try discriminate; try lia).
Qed.

(** ** Examples of section 8 *)

Example regular_swaps_stats :
  calculateStats (timeGaps (sort_desc regular_swaps)) = (1000%float, 0%float).
Proof. vm_compute. reflexivity. Qed.

Example regular_swaps_dca :
  analyzeTransactionPatterns (activity_at Transfer 5 :: regular_swaps) = [PATTERNS.DCA].
Proof. vm_compute. reflexivity. Qed.

Example irregular_swaps_gaps :
  timeGaps (sort_desc irregular_swaps) = [9000%float; 50%float; 1000%float].
Proof. vm_compute. reflexivity. Qed.

Example irregular_swaps_general :
  analyzeTransactionPatterns (activity_at Transfer 5 :: irregular_swaps) =
  [PATTERNS.GENERAL].
Proof. vm_compute. reflexivity. Qed.

(** ** Claims on the pattern analyzer *)

(** C5: a list of fewer than five activities gives exactly the one-element
    list with the [insufficient_data] pattern, whose confidence is 0. *)
Theorem insufficient_data_below_minimum (l : list WalletActivity) :
  (length l < 5)%nat ->
  analyzeTransactionPatterns l = [PATTERNS.INSUFFICIENT_DATA] /\
  patternType PATTERNS.INSUFFICIENT_DATA = "insufficient_data" /\
  confidence PATTERNS.INSUFFICIENT_DATA = 0%float.
Proof.
  intros Hlen. unfold analyzeTransactionPatterns.
  rewrite bool_decide_eq_true_2 by (unfold MINIMUM_TRANSACTIONS; lia).
  repeat split.
Qed.

Lemma insufficient_data_below_minimum_witness :
  (length regular_swaps < 5)%nat /\
  analyzeTransactionPatterns regular_swaps = [PATTERNS.INSUFFICIENT_DATA].
Proof.
  split; [simpl; lia|].
  apply (insufficient_data_below_minimum regular_swaps). simpl; lia.
Defined.

(** ** The analyzer over the store of arrays *)

Lemma getActivitiesByType_snoc (l : list WalletActivity) (a : WalletActivity)
    (t : ActivityType) :
  getActivitiesByType (l ++ [a]) t =
  getActivitiesByType l t ++ (if decide (type a = t) then [a] else []).
Proof.
  unfold getActivitiesByType. rewrite List.filter_app. simpl.
  destruct (decide (type a = t)).
  - now rewrite bool_decide_eq_true_2.
  - now rewrite bool_decide_eq_false_2.
Qed.

Lemma take_length_le (s0 s : store) :
  take (length s0) s = s0 -> (length s0 <= length s)%nat.
Proof.
  intros E. apply (f_equal length) in E. rewrite length_take in E. lia.
Qed.

Lemma group_push_st_inv (s0 : store) (l0 : list WalletActivity)
    (groups : gmap string ref) (s : store) (a : WalletActivity) :
  group_inv s0 l0 groups s ->
  exists groups' s',
    group_push_st groups a s = Some (groups', s') /\
    group_inv s0 (l0 ++ [a]) groups' s'.
Proof.
  intros (Hframe & Hsome & Hnone & Hinj).
  pose proof (take_length_le _ _ Hframe) as Hlen.
  unfold group_push_st, mbind, st_bind, mret, st_ret.
  destruct (groups !! type_name (type a)) as [r|] eqn:Eg.
  - (* the group exists *)
    rewrite Eg. destruct (Hsome _ _ Eg) as [Hr Hsr].
    unfold array_push. rewrite Hsr.
    eexists _, _. split; [reflexivity|].
    split; [|split; [|split]].
    + rewrite take_insert_ge by assumption. exact Hframe.
    + intros t r0 H. split; [apply (Hsome t r0 H)|].
      destruct (Hsome t r0 H) as [_ Hsr0].
      rewrite getActivitiesByType_snoc.
      destruct (decide (type a = t)) as [<-|Hne].
      * assert (r0 = r) by congruence. subst r0.
        rewrite list_lookup_insert_eq by (apply lookup_lt_Some in Hsr; exact Hsr).
        reflexivity.
      * assert (r0 <> r) by (intros ->; apply Hne; eapply Hinj; eassumption).
        rewrite list_lookup_insert_ne by congruence.
        now rewrite app_nil_r.
    + intros t Ht. rewrite getActivitiesByType_snoc.
      destruct (decide (type a = t)) as [<-|Hne]; [congruence|].
      rewrite (Hnone t Ht). reflexivity.
    + exact Hinj.
  - (* the group is created *)
    unfold new_array. rewrite lookup_insert_eq.
    unfold array_push.
    rewrite lookup_app_r by lia. rewrite Nat.sub_diag. simpl.
    eexists _, _. split; [reflexivity|].
    assert (Hother : forall t r0, type a <> t ->
              <[type_name (type a) := length s]> groups !! type_name t = Some r0 ->
              groups !! type_name t = Some r0).
    { intros t r0 Hne. rewrite lookup_insert_ne; [tauto|].
      intros E. apply Hne, type_name_inj, E. }
    split; [|split; [|split]].
    + rewrite take_insert_ge by assumption.
      rewrite take_app_le by assumption. exact Hframe.
    + intros t r0 H. rewrite getActivitiesByType_snoc.
      destruct (decide (type a = t)) as [<-|Hne].
      * rewrite lookup_insert_eq in H. injection H as <-.
        split; [exact Hlen|].
        rewrite list_lookup_insert_eq by (rewrite length_app; simpl; lia).
        now rewrite (Hnone _ Eg).
      * apply Hother in H; [|assumption].
        destruct (Hsome t r0 H) as [Hr0 Hsr0].
        split; [exact Hr0|].
        pose proof (lookup_lt_Some _ _ _ Hsr0).
        rewrite list_lookup_insert_ne by lia.
        rewrite lookup_app_l by assumption.
        now rewrite app_nil_r.
    + intros t Ht. rewrite getActivitiesByType_snoc.
      destruct (decide (type a = t)) as [<-|Hne].
      * rewrite lookup_insert_eq in Ht. discriminate.
      * rewrite lookup_insert_ne in Ht
          by (intros E; apply Hne, type_name_inj, E).
        rewrite (Hnone t Ht). reflexivity.
    + intros t1 t2 r0 H1 H2.
      destruct (decide (type a = t1)) as [<-|Hne1],
               (decide (type a = t2)) as [<-|Hne2]; [reflexivity| | |].
      * rewrite lookup_insert_eq in H1. injection H1 as <-.
        apply Hother in H2; [|assumption].
        destruct (Hsome _ _ H2) as [_ Hs2]. apply lookup_lt_Some in Hs2. lia.
      * rewrite lookup_insert_eq in H2. injection H2 as <-.
        apply Hother in H1; [|assumption].
        destruct (Hsome _ _ H1) as [_ Hs1]. apply lookup_lt_Some in Hs1. lia.
      * apply Hother in H1, H2; try assumption. eapply Hinj; eassumption.
Qed.

Lemma st_fold_group_push_inv (s0 : store) (l : list WalletActivity) :
  forall (l0 : list WalletActivity) (groups : gmap string ref) (s : store),
    group_inv s0 l0 groups s ->
    exists groups' s',
      st_fold group_push_st l groups s = Some (groups', s') /\
      group_inv s0 (l0 ++ l) groups' s'.
Proof.
  induction l as [|a l IH]; intros l0 groups s Hinv; simpl.
  - exists groups, s. rewrite app_nil_r. split; [reflexivity|exact Hinv].
  - destruct (group_push_st_inv _ _ _ _ a Hinv) as (g1 & s1 & E1 & Hinv1).
    destruct (IH _ _ _ Hinv1) as (g2 & s2 & E2 & Hinv2).
    exists g2, s2. unfold mbind, st_bind. rewrite E1, E2.
    rewrite <- app_assoc in Hinv2. split; [reflexivity|exact Hinv2].
Qed.

(** Grouping reads the input array, puts the groups in new arrays and leaves
    every array of the store it started from as it was. *)
Lemma groupActivitiesByType_st_spec (s : store) (activities : ref)
    (l : list WalletActivity) :
  s !! activities = Some l ->
  exists groups s',
    groupActivitiesByType_st activities s = Some (groups, s') /\
    group_inv s l groups s'.
Proof.
  intros Hl. unfold groupActivitiesByType_st, mbind, st_bind, read_array.
  rewrite Hl.
  apply (st_fold_group_push_inv s l [] ∅ s).
  split; [apply firstn_all|].
  split; [intros t r; rewrite lookup_empty; discriminate|].
  split; [reflexivity|].
  intros t1 t2 r; rewrite lookup_empty; discriminate.
Qed.

(** The detector copies the array it is given and sorts the copy. *)
Lemma detectDCAPattern_st_spec (s : store) (swaps : ref)
    (group : list WalletActivity) (patterns : list TransactionPattern) :
  s !! swaps = Some group ->
  exists s',
    detectDCAPattern_st swaps patterns s =
      Some (detectDCAPattern group patterns, s') /\
    take (length s) s' = s.
Proof.
  intros Hg. unfold detectDCAPattern_st, detectDCAPattern, variationCoefficient.
  unfold mbind, st_bind, mret, st_ret, read_array, new_array, array_sort.
  rewrite Hg. case_bool_decide.
  - exists s. split; [reflexivity|apply firstn_all].
  - rewrite lookup_app_r by lia. rewrite Nat.sub_diag.
    change ([group] !! 0%nat) with (Some group). cbv beta iota.
    rewrite list_lookup_insert_eq by (rewrite length_app; simpl; lia).
    cbv beta iota.
    destruct (calculateStats (timeGaps (sort_desc group))) as [mean sd].
    assert (Hframe : take (length s) (<[length s := sort_desc group]> (s ++ [group])) = s).
    { rewrite take_insert_ge by lia. rewrite take_app_le by lia. apply firstn_all. }
    destruct (sd / mean <? DCA_DEVIATION_THRESHOLD)%float;
      eexists; (split; [reflexivity|exact Hframe]).
Qed.

Lemma take_take_frame (s s1 s2 : store) :
  take (length s) s1 = s -> take (length s1) s2 = s1 -> take (length s) s2 = s.
Proof.
  intros E1 E2. pose proof (take_length_le _ _ E1).
  rewrite <- E2 in E1. rewrite take_take in E1.
  rewrite Nat.min_l in E1 by assumption. exact E1.
Qed.

Lemma group_array (s0 s : store) (l : list WalletActivity)
    (groups : gmap string ref) (t : ActivityType) (r : ref) (s' : store) :
  group_inv s0 l groups s -> take (length s) s' = s ->
  groups !! type_name t = Some r ->
  s' !! r = Some (getActivitiesByType l t).
Proof.
  intros (_ & Hsome & _) Hs' E. destruct (Hsome _ _ E) as [_ Hr].
  rewrite <- Hs' in Hr. rewrite lookup_take_Some in Hr. tauto.
Qed.

Lemma hasActivities_st_spec (s0 s : store) (l : list WalletActivity)
    (groups : gmap string ref) (t : ActivityType) (s' : store) :
  group_inv s0 l groups s -> take (length s) s' = s ->
  hasActivities_st (groups !! type_name t) s' =
  Some (bool_decide (0 < length (getActivitiesByType l t))%nat, s').
Proof.
  intros Hinv Hs'. unfold hasActivities_st.
  destruct (groups !! type_name t) as [r|] eqn:E.
  - unfold mbind, st_bind, read_array.
    rewrite (group_array _ _ _ _ _ _ _ Hinv Hs' E). reflexivity.
  - destruct Hinv as (_ & _ & Hnone & _). rewrite (Hnone _ E). reflexivity.
Qed.

Lemma hasMinimumActivities_st_spec (s0 s : store) (l : list WalletActivity)
    (groups : gmap string ref) (t : ActivityType) (n : nat) (s' : store) :
  (0 < n)%nat ->
  group_inv s0 l groups s -> take (length s) s' = s ->
  hasMinimumActivities_st (groups !! type_name t) n s' =
  Some (bool_decide (n <= length (getActivitiesByType l t))%nat, s').
Proof.
  intros Hn Hinv Hs'. unfold hasMinimumActivities_st.
  destruct (groups !! type_name t) as [r|] eqn:E.
  - unfold mbind, st_bind, read_array.
    rewrite (group_array _ _ _ _ _ _ _ Hinv Hs' E). reflexivity.
  - destruct Hinv as (_ & _ & Hnone & _). rewrite (Hnone _ E).
    destruct n as [|n]; [lia|reflexivity].
Qed.

(** The analyzer over the store gives the patterns of the analyzer over
    the contents, and leaves every array it was started with as it was. *)
Lemma analyzeTransactionPatterns_st_spec (s : store) (activities : ref)
    (l : list WalletActivity) :
  s !! activities = Some l ->
  exists s',
    analyzeTransactionPatterns_st activities s =
      Some (analyzeTransactionPatterns l, s') /\
    take (length s) s' = s.
Proof.
  intros Hl. unfold analyzeTransactionPatterns_st.
  unfold mbind at 1, st_bind at 1, read_array at 1. rewrite Hl.
  destruct (decide (length l < MINIMUM_TRANSACTIONS)%nat) as [Hlt|Hge].
  { rewrite bool_decide_eq_true_2 by assumption.
    exists s. unfold analyzeTransactionPatterns.
    rewrite bool_decide_eq_true_2 by assumption.
    split; [reflexivity|apply firstn_all]. }
  rewrite bool_decide_eq_false_2 by assumption.
  rewrite analyzeTransactionPatterns_enough by lia.
  destruct (groupActivitiesByType_st_spec s activities l Hl) as (groups & s1 & Eg & Hinv).
  unfold mbind at 1, st_bind at 1. rewrite Eg.
  pose proof Hinv as (Hframe1 & Hsome & Hnone & _).
  (* the Swap group, or a new empty array *)
  assert (Hswaps : exists swaps s2,
            match groups !! "Swap" with
            | Some r => mret r
            | None => new_array []
            end s1 = Some (swaps, s2) /\
            s2 !! swaps = Some (getActivitiesByType l Swap) /\
            take (length s1) s2 = s1).
  { change "Swap"%string with (type_name Swap).
    destruct (groups !! type_name Swap) as [r|] eqn:E.
    - exists r, s1. destruct (Hsome _ _ E) as [_ Hr].
      split; [reflexivity|]. split; [exact Hr|apply firstn_all].
    - exists (length s1), (s1 ++ [[]]). split; [reflexivity|].
      split.
      + rewrite lookup_app_r by lia. rewrite Nat.sub_diag. simpl.
        now rewrite (Hnone _ E).
      + rewrite take_app_le by lia. apply firstn_all. }
  destruct Hswaps as (swaps & s2 & Esw & Hsw & Hframe2).
  unfold mbind at 1, st_bind at 1. rewrite Esw.
  destruct (detectDCAPattern_st_spec s2 swaps _ [] Hsw) as (s3 & Ed & Hframe3).
  unfold mbind at 1, st_bind at 1. rewrite Ed.
  pose proof (take_take_frame _ _ _ Hframe2 Hframe3) as Hframe13.
  change "Lending"%string with (type_name Lending).
  change "Staking"%string with (type_name Staking).
  unfold mbind at 1, st_bind at 1.
  rewrite (hasActivities_st_spec _ _ _ _ Lending _ Hinv Hframe13).
  unfold mbind at 1, st_bind at 1.
  assert (Hmin : (0 < MINIMUM_STAKING_ACTIONS)%nat)
    by (unfold MINIMUM_STAKING_ACTIONS; lia).
  rewrite (hasMinimumActivities_st_spec _ _ _ _ Staking _ _ Hmin Hinv Hframe13).
  exists s3. split; [|exact (take_take_frame _ _ _ Hframe1 Hframe13)].
  unfold mret, st_ret. f_equal. f_equal.
  rewrite nonempty_or_general. unfold detected, lending_part, staking_part.
  set (d := detectDCAPattern _ _).
  destruct (bool_decide (0 < _)%nat), (bool_decide (_ <= _)%nat);
    rewrite <- ?app_assoc, ?app_nil_r; reflexivity.
Qed.

Lemma frame_lookup (s s' : store) (r : ref) :
  take (length s) s' = s -> (r < length s)%nat -> s' !! r = s !! r.
Proof.
  intros E Hr. transitivity (take (length s) s' !! r).
  - symmetry. apply lookup_take_lt. exact Hr.
  - now rewrite E.
Qed.

(** From the frame of a call: the input array and every array that was
    there hold what they held. *)
Ltac framed Hframe Hlt Hl :=
  split;
  [ rewrite (frame_lookup _ _ _ Hframe Hlt); exact Hl
  | let r := fresh "r" in let Hr := fresh "Hr" in
    intros r Hr; apply (frame_lookup _ _ _ Hframe Hr) ].

(** Sorting an array object in place is visible in the store. *)
Example array_sort_in_place :
  array_sort 0 [regular_swaps] = Some (tt, [rev regular_swaps]).
Proof. vm_compute. reflexivity. Qed.

(** C10: the analyzer leaves the array of activities it is given, and every
    other array there was before the call, as it was; so does the grouping
    alone, which only reads its input, and so does the DCA detector for the
    array of swaps it is given, because it sorts a copy. *)
Theorem analyzer_leaves_input_unchanged (s : store) (activities : ref)
    (l : list WalletActivity) :
  s !! activities = Some l ->
  (exists s',
     analyzeTransactionPatterns_st activities s =
       Some (analyzeTransactionPatterns l, s') /\
     s' !! activities = Some l /\
     forall r, (r < length s)%nat -> s' !! r = s !! r) /\
  (exists groups s',
     groupActivitiesByType_st activities s = Some (groups, s') /\
     s' !! activities = Some l /\
     forall r, (r < length s)%nat -> s' !! r = s !! r) /\
  (forall patterns, exists s',
     detectDCAPattern_st activities patterns s =
       Some (detectDCAPattern l patterns, s') /\
     s' !! activities = Some l /\
     forall r, (r < length s)%nat -> s' !! r = s !! r).
Proof.
  intros Hl. pose proof (lookup_lt_Some _ _ _ Hl) as Hlt.
  split; [|split].
  - destruct (analyzeTransactionPatterns_st_spec s activities l Hl) as (s' & E & Hframe).
    exists s'. split; [exact E|]. framed Hframe Hlt Hl.
  - destruct (groupActivitiesByType_st_spec s activities l Hl)
      as (groups & s' & E & Hframe & _).
    exists groups, s'. split; [exact E|]. framed Hframe Hlt Hl.
  - intros patterns.
    destruct (detectDCAPattern_st_spec s activities l patterns Hl) as (s' & E & Hframe).
    exists s'. split; [exact E|]. framed Hframe Hlt Hl.
Qed.

Lemma analyzer_leaves_input_unchanged_witness :
  example_store !! 0%nat = Some example_activities /\
  exists s',
    analyzeTransactionPatterns_st 0 example_store =
      Some (analyzeTransactionPatterns example_activities, s') /\
    s' !! 0%nat = Some example_activities /\
    forall r, (r < length example_store)%nat -> s' !! r = example_store !! r.
Proof.
  split; [reflexivity|].
  exact (proj1 (analyzer_leaves_input_unchanged example_store 0
                  example_activities eq_refl)).
Defined.

(** ** Claims on the strategy recommender *)

Lemma fold_push_filter {A} (keep : A -> bool) (l : list A) :
  forall acc : list A,
    fold_left (fun acc x => if keep x then acc ++ [x] else acc) l acc =
    acc ++ List.filter keep l.
Proof.
  induction l as [|x l IH]; intros acc; simpl.
  - now rewrite app_nil_r.
  - rewrite IH. destruct (keep x); [|reflexivity].
    now rewrite <- app_assoc.
Qed.

Lemma generateRecommendations_filter (riskProfile : string)
    (usedProtocols : gset string) :
  generateRecommendations riskProfile usedProtocols =
  List.filter (fun s => negb (shouldExclude usedProtocols s))
    <$> baseStrategies riskProfile.
Proof.
  unfold generateRecommendations.
  destruct (baseStrategies riskProfile) as [base|]; [|reflexivity].
  simpl. now rewrite fold_push_filter.
Qed.

Lemma shouldExclude_true (usedProtocols : gset string) (s : StrategyRef) :
  shouldExclude usedProtocols s = true <->
  exists protocol, protocol ∈ usedProtocols /\
                   (protocol, s) ∈ PROTOCOL_STRATEGY_MAP.
Proof.
  unfold shouldExclude. rewrite existsb_exists. split.
  - intros ([protocol s'] & Hin & Hb). simpl in Hb.
    apply andb_true_iff in Hb as [Hp Hs].
    apply bool_decide_eq_true_1 in Hp, Hs. subst s'.
    exists protocol. split; [exact Hp|]. now apply list_elem_of_In.
  - intros (protocol & Hp & Hin). exists (protocol, s).
    split; [now apply list_elem_of_In|]. simpl.
    now rewrite !bool_decide_eq_true_2.
Qed.

Example marinade_conservative :
  @recommendStrategies table_services [marinade_activity] (Some conservative_profile) =
  Some [STAKING_SOL].
Proof. vm_compute. reflexivity. Qed.

Example no_activity_beginner :
  @recommendStrategies table_services [] (Some conservative_profile) = Some [BEGINNER].
Proof. reflexivity. Qed.

Example unknown_profile_moderate :
  baseStrategies "reckless" = Some [SUPPLY_STABLECOINS; DIVERSIFIED_LP].
Proof. reflexivity. Qed.

(** C7: for a wallet with activities, the recommendations are the base
    strategies of the risk profile, in the order of the table, without
    those to which the table of three protocols maps a protocol the wallet
    used; a conservative wallet that used Marinade gets "Staking SOL" and
    not "Liquid Staking". *)
Theorem used_protocols_exclude_strategies `{Services}
    (acts : list WalletActivity) (profile : option WalletProfile)
    (base : list StrategyRef) :
  acts <> [] ->
  baseStrategies (resolveRiskProfile profile) = Some base ->
  exists result,
    recommendStrategies acts profile = Some result /\
    result =
      List.filter (fun s => negb (shouldExclude (extractUsedProtocols acts) s)) base /\
    (forall s, s ∈ result <->
       s ∈ base /\
       ~ exists protocol, protocol ∈ extractUsedProtocols acts /\
                          (protocol, s) ∈ PROTOCOL_STRATEGY_MAP) /\
    (resolveRiskProfile profile = "conservative" ->
     "MARINADE_STAKING" ∈ extractUsedProtocols acts ->
     result = [STAKING_SOL] /\
     strategy (STRATEGIES STAKING_SOL) = "Staking SOL" /\
     forall s, s ∈ result -> strategy (STRATEGIES s) <> "Liquid Staking").
Proof.
  intros Hne Hbase.
  set (used := extractUsedProtocols acts).
  exists (List.filter (fun s => negb (shouldExclude used s)) base).
  split; [|split; [reflexivity|split]].
  - unfold recommendStrategies.
    rewrite bool_decide_eq_false_2 by (destruct acts; [congruence|discriminate]).
    cbv zeta. fold used. rewrite generateRecommendations_filter, Hbase. reflexivity.
  - intros s. rewrite list_elem_of_In, filter_In, <- list_elem_of_In.
    rewrite negb_true_iff, <- not_true_iff_false, shouldExclude_true. reflexivity.
  - intros Hcons Hmarinade. rewrite Hcons in Hbase.
    injection Hbase as <-.
    assert (E1 : shouldExclude used STAKING_SOL = false).
    { apply not_true_iff_false. rewrite shouldExclude_true.
      intros (protocol & _ & Hin). unfold PROTOCOL_STRATEGY_MAP in Hin.
      rewrite !elem_of_cons, elem_of_nil in Hin.
      destruct Hin as [E|[E|[E|[]]]]; discriminate E. }
    assert (E2 : shouldExclude used LIQUID_STAKING = true).
    { apply shouldExclude_true. exists "MARINADE_STAKING".
      split; [exact Hmarinade|]. apply list_elem_of_here. }
    simpl. rewrite E1, E2. simpl.
    split; [reflexivity|]. split; [reflexivity|].
    intros s Hs. apply list_elem_of_singleton in Hs as ->. discriminate.
Qed.

Lemma used_protocols_exclude_strategies_witness :
  "MARINADE_STAKING" ∈ @extractUsedProtocols table_services [marinade_activity] /\
  @recommendStrategies table_services [marinade_activity] (Some conservative_profile) =
    Some [STAKING_SOL].
Proof.
  assert (Hm : "MARINADE_STAKING" ∈
               @extractUsedProtocols table_services [marinade_activity])
    by (apply (bool_decide_unpack _); vm_compute; exact I).
  split; [exact Hm|].
  destruct (@used_protocols_exclude_strategies table_services
              [marinade_activity] (Some conservative_profile)
              [STAKING_SOL; LIQUID_STAKING])
    as (result & E & _ & _ & Hs); [discriminate|reflexivity|].
  destruct (Hs eq_refl Hm) as [-> _]. exact E.
Defined.

(** ** Claims on the position synthesizer *)

(** C3: when the entry of the wallet holds a position list, that list is
    returned, whatever the cached activities are, and the world is left as
    it was: no write to the cache, no reading of the clock, no random
    draw. *)
Theorem cached_positions_returned `{Services} (w : World) (publicKey : string)
    (entry : CacheEntry) (positions : list DeFiPosition) :
  walletCache w !! publicKey = Some entry ->
  defiPositions entry = Some positions ->
  analyzeDeFiPositions publicKey w = (positions, w).
Proof.
  intros Hentry Hpos. unfold analyzeDeFiPositions.
  unfold mbind at 1, io_bind, walletCache_get. rewrite Hentry. simpl.
  rewrite Hpos. reflexivity.
Qed.

(** C6, as amended: when no position list is cached for the wallet and no
    cached activity is successful, which includes the wallet without an
    entry, the result is empty and the world is left as it was. *)
Theorem no_success_no_positions `{Services} (w : World) (publicKey : string) :
  cached_positions w publicKey = None ->
  cached_successes w publicKey = [] ->
  analyzeDeFiPositions publicKey w = ([], w).
Proof.
  unfold cached_positions, cached_successes, analyzeDeFiPositions.
  intros Hpos Hsucc.
  unfold mbind at 1, io_bind, walletCache_get.
  rewrite Hpos, Hsucc. reflexivity.
Qed.

Lemma cached_positions_returned_witness :
  @analyzeDeFiPositions table_services "wallet" stale_world =
  ([stale_position], stale_world).
Proof.
  apply (@cached_positions_returned table_services stale_world "wallet"
           stale_entry [stale_position]);
    reflexivity.
Defined.

(** C6 as stated fails when positions are cached: no cached activity is
    successful, and the result is the cached list, not the empty one. *)
Lemma no_success_cached_positions :
  cached_successes stale_world "wallet" = [] /\
  fst (@analyzeDeFiPositions table_services "wallet" stale_world) = [stale_position] /\
  fst (@analyzeDeFiPositions table_services "wallet" stale_world) <> [].
Proof. repeat split. discriminate. Qed.

Lemma no_success_no_positions_witness :
  @analyzeDeFiPositions table_services "wallet" (world_of ∅) = ([], world_of ∅).
Proof.
  apply (@no_success_no_positions table_services (world_of ∅) "wallet");
    reflexivity.
Defined.

(** *** The trading pass *)

Lemma Math_max_ge_start (l : list Z) : forall t, t <= Math_max t l.
Proof.
  unfold Math_max. induction l as [|x l IH]; intros t; simpl; [lia|].
  specialize (IH (Z.max t x)). lia.
Qed.

Lemma Math_max_upper (l : list Z) :
  forall t, Forall (fun x => x <= Math_max t l) (t :: l).
Proof.
  induction l as [|x l IH]; intros t.
  - repeat constructor. unfold Math_max. simpl. lia.
  - constructor; [apply Math_max_ge_start|].
    specialize (IH (Z.max t x)). change (Math_max t (x :: l)) with (Math_max (Z.max t x) l).
    inversion IH as [|? ? Hhd Htl]; subst. constructor; [lia|exact Htl].
Qed.

Lemma Math_max_elem (l : list Z) : forall t, Math_max t l ∈ t :: l.
Proof.
  induction l as [|x l IH]; intros t.
  - apply list_elem_of_here.
  - change (Math_max t (x :: l)) with (Math_max (Z.max t x) l).
    specialize (IH (Z.max t x)). apply elem_of_cons in IH as [IH|IH].
    + rewrite IH. destruct (Z.max_spec t x) as [[_ E]|[_ E]]; rewrite E.
      * apply list_elem_of_further, list_elem_of_here.
      * apply list_elem_of_here.
    + do 2 apply list_elem_of_further. exact IH.
Qed.

(** C4: the trading pass emits nothing when no Swap or FLUXBEAM activity is
    dated after the instant 24 hours before the reading of the clock, also
    when older ones exist, and otherwise exactly one FLUXBEAM Trading
    position, whose value is the sum of the values of those dated after
    that instant (a missing, zero or NaN value counts 0) and whose
    timestamp is the greatest of theirs. *)
Theorem trading_pass_aggregates_recent `{Services}
    (activities : list WalletActivity) (w : World) :
  let recent := trades_after (clock w (clock_reads w) - 86400000) activities in
  (recent = [] -> fst (processTradingPositions activities w) = []) /\
  (recent <> [] ->
   exists t,
     fst (processTradingPositions activities w) =
       [ {| protocol := "FLUXBEAM"; position_type := "Trading";
            tokenA := None;
            position_value := Some (sum_of (List.map counted_value recent));
            apy := None; position_timestamp := t |} ] /\
     t ∈ List.map timestamp recent /\
     Forall (fun t' => t' <= t) (List.map timestamp recent)).
Proof.
  cbv zeta. rewrite <- recent_trades_after, <- calculateTotalValue_sum.
  unfold recent_trades, processTradingPositions.
  fold (trading_candidates activities).
  destruct (trading_candidates activities) as [|c candidates] eqn:Ec.
  { simpl. split; [reflexivity|congruence]. }
  rewrite bool_decide_eq_false_2 by discriminate.
  unfold mbind, io_bind, Date_now.
  set (now := clock w (clock_reads w)).
  set (recent := List.filter _ (c :: candidates)).
  destruct recent as [|a recent'] eqn:Er.
  - simpl. split; [reflexivity|congruence].
  - split; [discriminate|]. intros _.
    exists (Math_max (timestamp a) (List.map timestamp recent')).
    split; [reflexivity|]. split.
    + apply Math_max_elem.
    + apply Math_max_upper.
Qed.

(** C4 as stated fails for a swap dated after the evaluation time: the one
    below is dated ten days after the reading of the clock, so it does not
    lie within the 24 hours before it, and there is no other activity; yet
    the test [now - timestamp < ONE_DAY_MS] holds of it and the pass emits
    a Trading position with its value and its timestamp. *)
Lemma future_swap_trading_position :
  ~ within_last_day (clock (world_of ∅) 0) (timestamp future_swap) /\
  fst (@processTradingPositions table_services [future_swap] (world_of ∅)) =
  [ {| protocol := "FLUXBEAM"; position_type := "Trading"; tokenA := None;
       position_value := Some 2%float; apy := None;
       position_timestamp := 1700864100000 |} ].
Proof.
  split.
  - unfold within_last_day. simpl. lia.
  - vm_compute. reflexivity.
Qed.

(** An old swap alone gives no trading position; with a recent swap beside
    it, one position carries the value and the timestamp of the recent
    one. *)
Example old_swap_no_trading_position :
  fst (@processTradingPositions table_services [old_swap] (world_of ∅)) = [].
Proof. vm_compute. reflexivity. Qed.

Example recent_swap_trading_position :
  fst (@processTradingPositions table_services [old_swap; recent_swap] (world_of ∅)) =
  [ {| protocol := "FLUXBEAM"; position_type := "Trading"; tokenA := None;
       position_value := Some 1.5%float; apy := None;
       position_timestamp := 1700000050000 |} ].
Proof. vm_compute. reflexivity. Qed.

(** The statistics position counts every successful swap, old ones too. *)
Example old_swap_statistics_position :
  fst (@analyzeDeFiPositions table_services "wallet"
         (world_of {[ "wallet" := {| activities := [old_swap; failed_swap];
                                     defiPositions := None;
                                     profile := None |} ]})) =
  [ {| protocol := "Aggregate"; position_type := "Trading Statistics";
       tokenA := Some "Multiple"; position_value := Some 4%float; apy := None;
       position_timestamp := 1700000100000 |} ].
Proof. vm_compute. reflexivity. Qed.

(** ** Floating-point facts for the zero-mean case *)

Lemma float_of_SF (x : number) (f : spec_float) : Prim2SF x = f -> x = SF2Prim f.
Proof. intros <-. symmetry. apply SF2Prim_Prim2SF. Qed.

(** [x - x] is [0], or [NaN] when [x] is infinite or [NaN]. *)
Lemma float_sub_diag (x : number) :
  (x - x)%float = 0%float \/ (x - x)%float = nan.
Proof.
  assert (E : Prim2SF (x - x) = S754_zero false \/ Prim2SF (x - x) = S754_nan).
  { rewrite sub_spec. unfold SF64sub.
    destruct (Prim2SF x) as [[]|[]| |s m e]; simpl; auto.
    rewrite Z.sub_diag. left. reflexivity. }
  destruct E as [E|E]; apply float_of_SF in E; rewrite E; auto.
Qed.

(** [0 / y] is a zero or [NaN]. *)
Lemma float_zero_div (y : number) :
  (0 / y)%float = 0%float \/ (0 / y)%float = (-0)%float \/ (0 / y)%float = nan.
Proof.
  assert (E : exists f, Prim2SF (0 / y) = f /\
                        (f = S754_zero false \/ f = S754_zero true \/ f = S754_nan)).
  { rewrite div_spec. unfold SF64div.
    change (Prim2SF 0) with (S754_zero false).
    destruct (Prim2SF y) as [[]|[]| |[] m e]; simpl; eauto. }
  destruct E as (f & E & [->|[->| ->]]); apply float_of_SF in E; rewrite E; auto.
Qed.

Lemma float_div_nan (x : number) : (x / nan)%float = nan.
Proof.
  apply Prim2SF_inj. rewrite div_spec. unfold SF64div.
  change (Prim2SF nan) with S754_nan.
  destruct (Prim2SF x) as [[]|[]| |[] m e]; reflexivity.
Qed.

Lemma float_nan_div (y : number) : (nan / y)%float = nan.
Proof.
  apply Prim2SF_inj. rewrite div_spec. unfold SF64div.
  change (Prim2SF nan) with S754_nan. reflexivity.
Qed.

Lemma fold_sum_replicate_zero (k : nat) :
  fold_left (fun sum value => sum + value)%float (replicate k 0%float) 0%float = 0%float.
Proof. induction k as [|k IH]; [reflexivity|exact IH]. Qed.

Lemma fold_sum_replicate_nan (k : nat) (start : number) :
  (start + nan)%float = nan ->
  fold_left (fun sum value => sum + value)%float (replicate (S k) nan) start = nan.
Proof.
  intros E. simpl. rewrite E. clear E.
  induction k as [|k IH]; [reflexivity|exact IH].
Qed.

Lemma fold_squares_replicate_zero (k : nat) (mean : number) :
  Math_pow2 (0 - mean) = 0%float ->
  fold_left (fun sum value => sum + Math_pow2 (value - mean))%float
    (replicate k 0%float) 0%float = 0%float.
Proof.
  intros E. induction k as [|k IH]; [reflexivity|].
  simpl. rewrite E. exact IH.
Qed.

(** The statistics of [k] equal gaps [x - x]: the quotient of the standard
    deviation by the mean is [NaN]. *)
Lemma calculateStats_zero_gaps (k : nat) (x : number) :
  let '(mean, standardDeviation) := calculateStats (replicate (S k) (x - x)%float) in
  (standardDeviation / mean)%float = nan.
Proof.
  unfold calculateStats. rewrite length_replicate.
  set (L := number_of_nat (S k)).
  destruct (float_sub_diag x) as [-> | ->].
  - rewrite fold_sum_replicate_zero.
    destruct (float_zero_div L) as [E|[E|E]]; rewrite E.
    + rewrite fold_squares_replicate_zero by reflexivity. rewrite E. reflexivity.
    + rewrite fold_squares_replicate_zero by reflexivity. rewrite E. reflexivity.
    + apply float_div_nan.
  - rewrite fold_sum_replicate_nan by reflexivity.
    rewrite float_nan_div. apply float_div_nan.
Qed.

Lemma timeGaps_equal_timestamps (t : Z) (l : list WalletActivity) :
  Forall (fun a => timestamp a = t) l ->
  timeGaps l =
  replicate (Nat.pred (length l)) (number_of_Z t - number_of_Z t)%float.
Proof.
  induction 1 as [|a l Ha Hl IH]; [reflexivity|].
  destruct l as [|b l]; [reflexivity|].
  change (timeGaps (a :: b :: l))
    with ((number_of_Z (timestamp a) - number_of_Z (timestamp b))%float
          :: timeGaps (b :: l)).
  rewrite IH, Ha. inversion Hl as [|? ? Hb _]; subst. rewrite Hb. reflexivity.
Qed.

Lemma variationCoefficient_equal_timestamps (t : Z) (swaps : list WalletActivity) :
  (2 <= length swaps)%nat ->
  Forall (fun a => timestamp a = t) swaps ->
  variationCoefficient swaps = nan.
Proof.
  intros Hlen Hall. unfold variationCoefficient.
  assert (Hsorted : Forall (fun a => timestamp a = t) (sort_desc swaps)).
  { rewrite (sort_desc_perm swaps). exact Hall. }
  rewrite (timeGaps_equal_timestamps t _ Hsorted), length_sort_desc.
  destruct (length swaps) as [|[|k]]; try lia.
  exact (calculateStats_zero_gaps k (number_of_Z t)).
Qed.

(** *** The zero-mean case of the DCA detector *)

(** C2 as stated fails: for three swaps of one timestamp the mean gap and
    the standard deviation are 0, their quotient is NaN, and this NaN is the
    left operand of the comparison with the threshold: no branch guards the
    division. *)
Lemma zero_mean_nan_is_compared :
  (3 <= length same_time_swaps)%nat /\
  Forall (fun a => timestamp a = 1000) same_time_swaps /\
  calculateStats (timeGaps (sort_desc same_time_swaps)) = (0%float, 0%float) /\
  PrimFloat.is_nan (variationCoefficient same_time_swaps) = true /\
  detectDCAPattern same_time_swaps [] =
    (if (nan <? DCA_DEVIATION_THRESHOLD)%float then [PATTERNS.DCA] else []).
Proof.
  split; [simpl; lia|].
  split; [repeat constructor|].
  repeat split.
Qed.

Lemma confidence_predefined (p : TransactionPattern) :
  p ∈ [PATTERNS.INSUFFICIENT_DATA; PATTERNS.GENERAL; PATTERNS.DCA;
       PATTERNS.LENDING; PATTERNS.YIELD_FARMING] ->
  well_defined_confidence p.
Proof.
  rewrite !elem_of_cons, elem_of_nil.
  intros [->|[->|[->|[->|[->|[]]]]]]; repeat split.
Qed.

(** What the detector does there: the comparison of the NaN with the
    threshold is false, and nothing is added. *)
Lemma detectDCAPattern_equal_timestamps (t : Z) (swaps : list WalletActivity)
    (patterns : list TransactionPattern) :
  (2 <= length swaps)%nat ->
  Forall (fun a => timestamp a = t) swaps ->
  (variationCoefficient swaps <? DCA_DEVIATION_THRESHOLD)%float = false /\
  detectDCAPattern swaps patterns = patterns.
Proof.
  intros Hlen Hall.
  assert (Hcmp : (variationCoefficient swaps <? DCA_DEVIATION_THRESHOLD)%float = false)
    by (rewrite (variationCoefficient_equal_timestamps t swaps Hlen Hall); reflexivity).
  split; [exact Hcmp|].
  unfold detectDCAPattern. rewrite Hcmp. now destruct (bool_decide _).
Qed.

Lemma detectDCAPattern_well_defined (swaps : list WalletActivity)
    (patterns : list TransactionPattern) :
  Forall well_defined_confidence patterns ->
  Forall well_defined_confidence (detectDCAPattern swaps patterns).
Proof.
  intros Hp. unfold detectDCAPattern.
  destruct (bool_decide _); [exact Hp|].
  destruct (_ <? _)%float; [|exact Hp].
  apply Forall_app. split; [exact Hp|].
  repeat constructor.
Qed.

(** C2, as amended: for a group of at least three swaps of one timestamp
    the detector returns without an error, the patterns it returns have a
    confidence that is a number, not NaN, between 0 and 1 when those it was
    given have, and so has every pattern of a result of the analyzer for
    such a group. *)
Theorem zero_mean_confidences_defined (t : Z) (swaps : list WalletActivity) :
  (3 <= length swaps)%nat ->
  Forall (fun a => timestamp a = t) swaps ->
  (forall (s : store) (r : ref) (patterns : list TransactionPattern),
     s !! r = Some swaps ->
     exists s',
       detectDCAPattern_st r patterns s = Some (detectDCAPattern swaps patterns, s')) /\
  (forall patterns,
     Forall well_defined_confidence patterns ->
     Forall well_defined_confidence (detectDCAPattern swaps patterns)) /\
  (forall l p,
     getActivitiesByType l Swap = swaps ->
     p ∈ analyzeTransactionPatterns l ->
     well_defined_confidence p).
Proof.
  intros Hlen Hall. split; [|split].
  - intros s r patterns Hr.
    destruct (detectDCAPattern_st_spec s r swaps patterns Hr) as (s' & E & _).
    exists s'. exact E.
  - apply detectDCAPattern_well_defined.
  - intros l p _ Hp. apply confidence_predefined.
    exact (analyzeTransactionPatterns_predefined l p Hp).
Qed.

Lemma zero_mean_confidences_defined_witness :
  (3 <= length same_time_swaps)%nat /\
  Forall (fun a => timestamp a = 1000) same_time_swaps /\
  forall l p,
    getActivitiesByType l Swap = same_time_swaps ->
    p ∈ analyzeTransactionPatterns l ->
    well_defined_confidence p.
Proof.
  assert (Hlen : (3 <= length same_time_swaps)%nat) by (simpl; lia).
  assert (Hall : Forall (fun a => timestamp a = 1000) same_time_swaps)
    by (repeat constructor).
  split; [exact Hlen|]. split; [exact Hall|].
  exact (proj2 (proj2 (zero_mean_confidences_defined 1000 same_time_swaps Hlen Hall))).
Defined.

(** The analyzer on such swaps and two transfers: the general pattern. *)
Example same_time_swaps_general :
  analyzeTransactionPatterns
    (activity_at Transfer 1 :: activity_at Transfer 2 :: same_time_swaps) =
  [PATTERNS.GENERAL].
Proof. vm_compute. reflexivity. Qed.

(** ** Binary64 rounding: the bounds of a random APY

    [generateRandomApy] computes [min + r * (max - min)] in binary64.  The
    lemmas below follow the rounding of the product and of the sum through
    the specification of the format ([SpecFloat]), for the staking range:
    a draw [r] of the unit interval gives a result between 5 and 8, both
    included (the greatest draw gives exactly 8). *)

Lemma digits2_pos_size (p : positive) : digits2_pos p = Pos.size p.
Proof. induction p; simpl; congruence. Qed.

Lemma digits2_pos_bounds (p : positive) :
  2 ^ (Z.pos (digits2_pos p) - 1) <= Z.pos p < 2 ^ Z.pos (digits2_pos p).
Proof.
  rewrite digits2_pos_size. split.
  - pose proof (Pos.size_le p) as H.
    apply Pos2Z.pos_le_pos in H. rewrite Pos2Z.inj_pow in H.
    change (Z.pos p~0) with (2 * Z.pos p) in H.
    replace (Z.pos (Pos.size p)) with (1 + (Z.pos (Pos.size p) - 1)) in H by lia.
    rewrite Z.pow_add_r in H by lia. change (2 ^ 1) with 2 in H. lia.
  - pose proof (Pos.size_gt p) as H.
    apply Pos2Z.pos_lt_pos in H. rewrite Pos2Z.inj_pow in H. exact H.
Qed.

Lemma digits2_pos_le (p : positive) (k : Z) :
  Z.pos p < 2 ^ k -> Z.pos (digits2_pos p) <= k.
Proof.
  intros H. destruct (digits2_pos_bounds p) as [Hlo _].
  destruct (Z.le_gt_cases (Z.pos (digits2_pos p)) k) as [|Hgt]; [assumption|].
  assert (2 ^ k <= 2 ^ (Z.pos (digits2_pos p) - 1)).
  { destruct (Z.le_gt_cases 0 k).
    - apply Z.pow_le_mono_r; lia.
    - rewrite (Z.pow_neg_r 2 k) by lia. apply Z.pow_nonneg. lia. }
  lia.
Qed.

Lemma digits2_pos_eq (p : positive) (k : Z) :
  2 ^ (k - 1) <= Z.pos p < 2 ^ k -> Z.pos (digits2_pos p) = k.
Proof.
  intros [Hlo Hhi]. pose proof (digits2_pos_le p k Hhi).
  destruct (digits2_pos_bounds p) as [_ Hup].
  destruct (Z.le_gt_cases k (Z.pos (digits2_pos p))) as [|Hgt]; [lia|].
  assert (2 ^ Z.pos (digits2_pos p) <= 2 ^ (k - 1)) by (apply Z.pow_le_mono_r; lia).
  lia.
Qed.

Lemma shr_1_m (mrs : shr_record) :
  0 <= shr_m mrs -> shr_m (shr_1 mrs) = shr_m mrs / 2.
Proof.
  destruct mrs as [m r s]. simpl. intros Hm.
  destruct m as [|[p|p|]|p]; simpl; try reflexivity; try lia.
  - rewrite Pos2Z.inj_xI. apply Z.div_unique with (r := 1); lia.
  - rewrite Pos2Z.inj_xO. apply Z.div_unique with (r := 0); lia.
Qed.

Lemma shr_1_nonneg (mrs : shr_record) : 0 <= shr_m mrs -> 0 <= shr_m (shr_1 mrs).
Proof. intros H. rewrite shr_1_m by assumption. apply Z.div_pos; lia. Qed.

Lemma iter_shr_1_m (n : positive) :
  forall mrs, 0 <= shr_m mrs ->
    0 <= shr_m (SpecFloat.iter_pos shr_1 n mrs) /\
    shr_m (SpecFloat.iter_pos shr_1 n mrs) = shr_m mrs / 2 ^ Z.pos n.
Proof.
  induction n as [n IH|n IH|]; intros mrs Hm; cbn [SpecFloat.iter_pos].
  - pose proof (shr_1_nonneg _ Hm) as H1.
    destruct (IH _ H1) as [H2 E2]. destruct (IH _ H2) as [H3 E3].
    split; [exact H3|].
    rewrite E3, E2, shr_1_m by assumption.
    assert (0 < 2 ^ Z.pos n) by (apply Z.pow_pos_nonneg; lia).
    rewrite !Z.div_div by lia. f_equal.
    replace (Z.pos n~1) with (1 + Z.pos n + Z.pos n) by lia.
    rewrite !Z.pow_add_r by lia. change (2 ^ 1) with 2. lia.
  - destruct (IH _ Hm) as [H2 E2]. destruct (IH _ H2) as [H3 E3].
    split; [exact H3|].
    rewrite E3, E2.
    assert (0 < 2 ^ Z.pos n) by (apply Z.pow_pos_nonneg; lia).
    rewrite !Z.div_div by lia. f_equal.
    replace (Z.pos n~0) with (Z.pos n + Z.pos n) by lia.
    rewrite Z.pow_add_r by lia. reflexivity.
  - split; [now apply shr_1_nonneg|].
    rewrite shr_1_m by assumption. reflexivity.
Qed.

Lemma round_nearest_even_bounds (m : Z) (l : location) :
  m <= round_nearest_even m l <= m + 1.
Proof. destruct l as [|[]]; simpl; try lia. destruct (Z.even m); lia. Qed.

Lemma iter_xO_mul (d : positive) (m : positive) :
  Z.pos (Pos.iter xO m d) = Z.pos m * 2 ^ Z.pos d.
Proof.
  induction d as [|d IH] using Pos.peano_ind.
  - simpl. lia.
  - rewrite Pos.iter_succ, Pos2Z.inj_xO, IH, Pos2Z.inj_succ, Z.pow_succ_r by lia. lia.
Qed.

Lemma fexp64_eq (k : Z) : fexp prec emax k = fexp64 k.
Proof. reflexivity. Qed.

Lemma fexp64_mono (j k : Z) : j <= k -> fexp64 j <= fexp64 k.
Proof. unfold fexp64. lia. Qed.

(** Shifting an exact mantissa to the exponent of its format. *)
Lemma shr_fexp_exact (m e : Z) :
  0 <= m ->
  let n := Z.max 0 (fexp64 (Zdigits2 m + e) - e) in
  exists mrs,
    shr_fexp prec emax m e loc_Exact = (mrs, e + n) /\
    shr_m mrs = m / 2 ^ n /\
    (n = 0 -> loc_of_shr_record mrs = loc_Exact).
Proof.
  intros Hm. unfold shr_fexp. rewrite fexp64_eq.
  destruct (fexp64 (Zdigits2 m + e) - e) as [|p|p] eqn:E; cbv zeta.
  - exists {| shr_m := m; shr_r := false; shr_s := false |}.
    simpl. rewrite Z.add_0_r, Z.div_1_r. auto.
  - exists (SpecFloat.iter_pos shr_1 p {| shr_m := m; shr_r := false; shr_s := false |}).
    rewrite Z.max_r by lia. simpl shr.
    destruct (iter_shr_1_m p {| shr_m := m; shr_r := false; shr_s := false |} Hm) as [_ Hq].
    split; [reflexivity|]. split; [exact Hq|]. lia.
  - exists {| shr_m := m; shr_r := false; shr_s := false |}.
    rewrite Z.max_l by lia. simpl. rewrite Z.add_0_r, Z.div_1_r. auto.
Qed.

(** The result of rounding a positive exact mantissa, in terms of the two
    shifts it is made of. *)
Lemma binary_round_aux_shape (mx : positive) (ex : Z) :
  exists mr : Z,
    let n1 := Z.max 0 (fexp64 (Z.pos (digits2_pos mx) + ex) - ex) in
    let e' := ex + n1 in
    let n2 := Z.max 0 (fexp64 (Zdigits2 mr + e') - e') in
    Z.pos mx / 2 ^ n1 <= mr <= Z.pos mx / 2 ^ n1 + 1 /\
    (n1 = 0 -> mr = Z.pos mx) /\
    binary_round_aux prec emax false (Z.pos mx) ex loc_Exact =
      match mr / 2 ^ n2 with
      | Z0 => S754_zero false
      | Z.pos m => if e' + n2 <=? 971 then S754_finite false m (e' + n2)
                   else S754_infinity false
      | Z.neg _ => S754_nan
      end.
Proof.
  unfold binary_round_aux.
  destruct (shr_fexp_exact (Z.pos mx) ex) as (mrs1 & E1 & Hq1 & Hl1); [lia|].
  change (Zdigits2 (Z.pos mx)) with (Z.pos (digits2_pos mx)) in *.
  rewrite E1.
  set (n1 := Z.max 0 (fexp64 (Z.pos (digits2_pos mx) + ex) - ex)) in *.
  set (mr := round_nearest_even (shr_m mrs1) (loc_of_shr_record mrs1)).
  assert (Hmr : shr_m mrs1 <= mr <= shr_m mrs1 + 1) by apply round_nearest_even_bounds.
  assert (Hq1nn : 0 <= shr_m mrs1).
  { rewrite Hq1. apply Z.div_pos; [lia|]. apply Z.pow_pos_nonneg; lia. }
  destruct (shr_fexp_exact mr (ex + n1)) as (mrs2 & E2 & Hq2 & _); [lia|].
  exists mr. cbv zeta. rewrite E2, Hq2.
  split; [rewrite <- Hq1; exact Hmr|].
  split.
  - intros H0. unfold mr. rewrite (Hl1 H0). simpl. rewrite Hq1, H0. apply Z.div_1_r.
  - reflexivity.
Qed.

Lemma Zdigits2_le (m k : Z) : 0 <= m < 2 ^ k -> 0 <= k -> Zdigits2 m <= k.
Proof.
  intros [Hm Hk] Hk0. destruct m as [|p|p]; simpl; [exact Hk0| |lia].
  now apply digits2_pos_le.
Qed.

Lemma three_lt_four_pow (k : Z) : 0 <= k -> 3 * 2 ^ k < 2 ^ (2 + k).
Proof.
  intros Hk. rewrite Z.pow_add_r by lia. change (2 ^ 2) with 4.
  assert (0 < 2 ^ k) by (apply Z.pow_pos_nonneg; lia). lia.
Qed.

Lemma pow2_split (a b : Z) : 0 <= a -> 0 <= b -> 2 ^ (a + b) = 2 ^ a * 2 ^ b.
Proof. intros. apply Z.pow_add_r; assumption. Qed.

(** Rounding a product below 3 gives a zero or a positive number that is at
    most 3. *)
Lemma round_below_three (P : positive) (ex : Z) :
  ex <= -51 -> Z.pos P < 3 * 2 ^ (- ex) ->
  let R := binary_round_aux prec emax false (Z.pos P) ex loc_Exact in
  R = S754_zero false \/
  exists m e, R = S754_finite false m e /\ e <= -51 /\ Z.pos m <= 3 * 2 ^ (- e).
Proof.
  intros Hex HP. cbv zeta.
  destruct (binary_round_aux_shape P ex) as (mr & Hmr & _ & ->).
  set (n1 := Z.max 0 (fexp64 (Z.pos (digits2_pos P) + ex) - ex)) in *.
  set (e' := ex + n1) in *.
  set (n2 := Z.max 0 (fexp64 (Zdigits2 mr + e') - e')).
  assert (Hd : Z.pos (digits2_pos P) <= 2 - ex).
  { apply digits2_pos_le. replace (2 - ex) with (2 + - ex) by lia.
    pose proof (three_lt_four_pow (- ex)). lia. }
  assert (He' : e' <= -51).
  { unfold e', n1. pose proof (fexp64_mono (Z.pos (digits2_pos P) + ex) 2).
    change (fexp64 2) with (-51) in *. lia. }
  assert (Hn1 : 0 <= n1) by (unfold n1; lia).
  assert (Hpow1 : 0 < 2 ^ n1) by (apply Z.pow_pos_nonneg; lia).
  assert (Hpowe' : 0 < 2 ^ (- e')) by (apply Z.pow_pos_nonneg; lia).
  assert (Hq : Z.pos P / 2 ^ n1 < 3 * 2 ^ (- e')).
  { apply Z.div_lt_upper_bound; [exact Hpow1|].
    replace (- ex) with (n1 + - e') in HP by (unfold e'; lia).
    rewrite pow2_split in HP by lia. lia. }
  assert (Hq0 : 0 <= Z.pos P / 2 ^ n1) by (apply Z.div_pos; lia).
  assert (Hmr3 : 0 <= mr <= 3 * 2 ^ (- e')) by lia.
  assert (Hdmr : Zdigits2 mr <= 2 - e').
  { apply Zdigits2_le; [|lia]. replace (2 - e') with (2 + - e') by lia.
    pose proof (three_lt_four_pow (- e')). lia. }
  assert (Hn2 : 0 <= n2) by (unfold n2; lia).
  assert (He'' : e' + n2 <= -51).
  { unfold n2. pose proof (fexp64_mono (Zdigits2 mr + e') 2).
    change (fexp64 2) with (-51) in *. lia. }
  assert (Hpow2 : 0 < 2 ^ n2) by (apply Z.pow_pos_nonneg; lia).
  assert (Hm'' : 0 <= mr / 2 ^ n2 <= 3 * 2 ^ (- (e' + n2))).
  { split; [apply Z.div_pos; lia|].
    apply Z.div_le_upper_bound; [exact Hpow2|].
    replace (- e') with (n2 + - (e' + n2)) in Hmr3 by lia.
    rewrite pow2_split in Hmr3 by lia. lia. }
  destruct (mr / 2 ^ n2) as [|m|m] eqn:E.
  - left. reflexivity.
  - right. exists m, (e' + n2).
    rewrite (proj2 (Z.leb_le _ _)) by lia.
    split; [reflexivity|]. split; [exact He''|]. lia.
  - lia.
Qed.

(** The only number of the format whose value is 3. *)
Lemma canonical_three (my : positive) (ey : Z) :
  ey <= -51 -> Z.pos my = 3 * 2 ^ (- ey) ->
  canonical_mantissa prec emax my ey = true ->
  S754_finite false my ey = SF_three.
Proof.
  intros Hey Hmy Hcan. unfold canonical_mantissa in Hcan.
  apply Z.eqb_eq in Hcan. rewrite fexp64_eq in Hcan.
  assert (Hpow : 0 < 2 ^ (- ey)) by (apply Z.pow_pos_nonneg; lia).
  assert (Hd : Z.pos (digits2_pos my) = 2 - ey).
  { apply digits2_pos_eq. rewrite Hmy. split.
    - replace (2 - ey - 1) with (1 + - ey) by lia.
      rewrite pow2_split by lia. change (2 ^ 1) with 2. lia.
    - replace (2 - ey) with (2 + - ey) by lia. apply three_lt_four_pow. lia. }
  rewrite Hd in Hcan. replace (2 - ey + ey) with 2 in Hcan by lia.
  change (fexp64 2) with (-51) in Hcan. subst ey.
  change (2 ^ (- -51)) with 2251799813685248 in Hmy.
  assert (my = 6755399441055744%positive) by lia. subst my. reflexivity.
Qed.

(** Adding a positive number that is at most 3 to 5 gives a number between
    5 and 8. *)
Lemma five_plus_at_most_three (my : positive) (ey : Z) :
  ey <= -51 -> Z.pos my <= 3 * 2 ^ (- ey) ->
  canonical_mantissa prec emax my ey = true ->
  let R := SFadd prec emax SF_five (S754_finite false my ey) in
  SFleb SF_five R = true /\ SFleb R SF_eight = true.
Proof.
  intros Hey Hmy Hcan.
  destruct (Z.eq_dec (Z.pos my) (3 * 2 ^ (- ey))) as [Heq|Hneq].
  { rewrite (canonical_three my ey Hey Heq Hcan). vm_compute. auto. }
  assert (Hlt : Z.pos my < 3 * 2 ^ (- ey)) by lia. clear Hneq Hmy.
  cbv zeta. unfold SF_five, SFadd.
  rewrite Z.min_r by lia.
  unfold shl_align. rewrite Z.sub_diag.
  destruct (ey - -50) as [|d|d] eqn:Ed; try lia.
  cbn [fst cond_Zopp]. rewrite <- Pos2Z.inj_add.
  set (n := Z.pos d). assert (Hn : ey = -50 - n) by (unfold n; lia).
  assert (Hpown : 0 < 2 ^ n) by (apply Z.pow_pos_nonneg; lia).
  set (M := (Pos.iter xO 5629499534213120 d + my)%positive).
  assert (HM : Z.pos M = 5629499534213120 * 2 ^ n + Z.pos my).
  { unfold M. rewrite Pos2Z.inj_add, iter_xO_mul. reflexivity. }
  assert (Hmy' : Z.pos my < 3377699720527872 * 2 ^ n).
  { replace (- ey) with (50 + n) in Hlt by lia.
    rewrite pow2_split in Hlt by lia.
    change (2 ^ 50) with 1125899906842624 in Hlt. lia. }
  assert (HdM : Z.pos (digits2_pos M) = 53 + n).
  { apply digits2_pos_eq. rewrite HM. split.
    - replace (53 + n - 1) with (52 + n) by lia. rewrite pow2_split by lia.
      change (2 ^ 52) with 4503599627370496. lia.
    - rewrite pow2_split by lia. change (2 ^ 53) with 9007199254740992. lia. }
  unfold binary_normalize, binary_round, shl_align.
  rewrite fexp64_eq, HdM. replace (53 + n + ey) with 3 by lia.
  change (fexp64 3) with (-50).
  destruct (-50 - ey) as [|d'|d'] eqn:Ed'; try lia.
  destruct (binary_round_aux_shape M ey) as (mr & Hmr & _ & ->).
  rewrite HdM in Hmr |- *. replace (53 + n + ey) with 3 in Hmr |- * by lia.
  change (fexp64 3) with (-50) in Hmr |- *.
  replace (Z.max 0 (-50 - ey)) with n in Hmr |- * by lia.
  replace (ey + n) with (-50) by lia.
  assert (Hq : 5629499534213120 <= Z.pos M / 2 ^ n < 9007199254740992).
  { split.
    - apply Z.div_le_lower_bound; lia.
    - apply Z.div_lt_upper_bound; lia. }
  destruct (Z.eq_dec mr 9007199254740992) as [->|Hmr'].
  { vm_compute. auto. }
  assert (Hdmr : Zdigits2 mr = 53).
  { destruct mr as [|p|p]; try lia. simpl. apply digits2_pos_eq.
    change (2 ^ (53 - 1)) with 4503599627370496.
    change (2 ^ 53) with 9007199254740992. lia. }
  rewrite Hdmr. change (Z.max 0 (fexp64 (53 + -50) - -50)) with 0.
  change (2 ^ 0) with 1. rewrite Z.div_1_r.
  destruct mr as [|p|p]; try lia.
  change (-50 + 0 <=? 971) with true. cbv iota.
  unfold SFleb, SFcompare, SF_eight.
  rewrite Z.compare_refl. change (-50 + 0 ?= -49) with Lt.
  split; [|reflexivity].
  change (Pos.compare_cont Eq 5629499534213120 p)
    with (5629499534213120 ?= p)%positive.
  assert (Hlow : (5629499534213120 <= p)%positive).
  { apply Pos2Z.pos_le_pos. clear - Hmr Hq. lia. }
  clear - Hlow. unfold Pos.le in Hlow.
  destruct (5629499534213120 ?= p)%positive; [reflexivity|reflexivity|].
  now elim Hlow.
Qed.

(** A valid number that is at least 0 and below 1, as mantissa and
    exponent. *)
Lemma unit_interval_finite (s : bool) (m : positive) (e : Z) :
  valid_binary (S754_finite s m e) = true ->
  SFleb (S754_zero false) (S754_finite s m e) = true ->
  SFltb (S754_finite s m e) SF_one = true ->
  s = false /\ e <= -52 /\ Z.pos m < 2 ^ (- e).
Proof.
  intros Hv H0 H1. destruct s; [discriminate H0|]. split; [reflexivity|].
  clear H0.
  unfold valid_binary, bounded in Hv. apply andb_prop in Hv as [Hcan _].
  unfold canonical_mantissa in Hcan. apply Z.eqb_eq in Hcan.
  rewrite fexp64_eq in Hcan. unfold fexp64 in Hcan.
  unfold SFltb, SFcompare, SF_one in H1. revert H1.
  destruct (Z.compare_spec e (-52)) as [E|Hlt|Hgt]; intros H1.
  - subst e. split; [clear; lia|].
    change (2 ^ (- -52)) with 4503599627370496.
    apply Pos2Z.pos_lt_pos. unfold Pos.lt, Pos.compare.
    revert H1. clear.
    generalize (Pos.compare_cont Eq m 4503599627370496).
    intros [] H1; [discriminate H1|reflexivity|discriminate H1].
  - split; [clear - Hlt; lia|].
    destruct (digits2_pos_bounds m) as [_ Hm].
    assert (2 ^ Z.pos (digits2_pos m) <= 2 ^ (- e)).
    { apply Z.pow_le_mono_r; [clear; lia|]. clear - Hcan Hlt. lia. }
    clear - Hm H. lia.
  - discriminate H1.
Qed.

(** [5 + r * 3] for a number [r] of the unit interval. *)
Theorem five_plus_three_r (r : float) :
  (0 <=? r)%float = true -> (r <? 1)%float = true ->
  (5 <=? 5 + r * 3)%float = true /\ (5 + r * 3 <=? 8)%float = true.
Proof.
  intros H0 H1. rewrite leb_spec in H0. rewrite ltb_spec in H1.
  pose proof (Prim2SF_valid r) as Hv.
  pose proof (Prim2SF_valid (r * 3)) as Hvy.
  rewrite !leb_spec, add_spec. rewrite mul_spec in Hvy |- *.
  change (Prim2SF 0) with (S754_zero false) in H0.
  change (Prim2SF 1) with SF_one in H1.
  change (Prim2SF 3) with SF_three in Hvy |- *.
  change (Prim2SF 5) with SF_five. change (Prim2SF 8) with SF_eight.
  destruct (Prim2SF r) as [s|s| |s m e].
  - destruct s; vm_compute; auto.
  - destruct s; discriminate.
  - discriminate.
  - destruct (unit_interval_finite s m e Hv H0 H1) as (-> & He & Hm).
    unfold SF64mul, SFmul, SF_three in Hvy |- *. cbn [xorb] in Hvy |- *.
    assert (HP : Z.pos (m * 6755399441055744) < 3 * 2 ^ (- (e + -51))).
    { rewrite Pos2Z.inj_mul. replace (- (e + -51)) with (51 + - e) by lia.
      rewrite pow2_split by lia. change (2 ^ 51) with 2251799813685248.
      assert (0 < 2 ^ (- e)) by (apply Z.pow_pos_nonneg; lia). lia. }
    destruct (round_below_three (m * 6755399441055744) (e + -51)) as [E|(my & ey & E & Hey & Hmy)];
      [lia|exact HP| |]; rewrite E in Hvy |- *.
    + vm_compute. auto.
    + simpl in Hvy. apply andb_prop in Hvy as [Hcan _].
      exact (five_plus_at_most_three my ey Hey Hmy Hcan).
Qed.

(** *** The staking pass *)

Lemma generateRandomApy_staking (w : World) :
  unit_draws w ->
  exists a w',
    generateRandomApy APY_RANGES.STAKING w = (a, w') /\
    (5 <=? a)%float = true /\ (a <=? 8)%float = true /\
    random w' = random w /\ walletCache w' = walletCache w.
Proof.
  intros Hw. eexists _, _. split; [reflexivity|].
  cbn [random walletCache].
  change (max APY_RANGES.STAKING - min APY_RANGES.STAKING)%float with 3%float.
  change (min APY_RANGES.STAKING) with 5%float.
  destruct (Hw (random_draws w)) as [H0 H1].
  destruct (five_plus_three_r _ H0 H1) as [Hlo Hhi].
  repeat split; assumption.
Qed.

Lemma unit_draws_ext (w w' : World) :
  random w' = random w -> unit_draws w -> unit_draws w'.
Proof. unfold unit_draws. intros ->. trivial. Qed.

Lemma io_bind_eq {A B} (m : IO A) (k : A -> IO B) (w : World) :
  (m ≫= k) w = let '(a, w') := m w in k a w'.
Proof. reflexivity. Qed.

Lemma io_ret_eq {A} (a : A) (w : World) : (mret a : IO A) w = (a, w).
Proof. reflexivity. Qed.

Lemma io_map_cons {A B} (f : A -> IO B) (a : A) (l : list A) (w : World) :
  io_map f (a :: l) w =
  let '(b, w1) := f a w in
  let '(bs, w2) := io_map f l w1 in (b :: bs, w2).
Proof.
  cbn [io_map]. rewrite io_bind_eq. destruct (f a w) as [b w1].
  rewrite io_bind_eq. destruct (io_map f l w1) as [bs w2]. reflexivity.
Qed.

Lemma processStakingPositions_spec `{Services} (l : list WalletActivity) :
  forall w, unit_draws w ->
    exists ps w',
      processStakingPositions l w = (ps, w') /\
      length ps = length (getActivitiesByType l Staking) /\
      Forall (apy_within 5 8) ps /\
      Forall (fun p => position_type p = "Staking") ps /\
      random w' = random w /\ walletCache w' = walletCache w.
Proof.
  unfold processStakingPositions.
  induction (getActivitiesByType l Staking) as [|a stakes IH]; intros w Hw.
  - exists [], w. repeat split; constructor.
  - destruct (generateRandomApy_staking w Hw)
      as (x & w1 & E1 & Hlo & Hhi & Hr1 & Hc1).
    destruct (IH w1 (unit_draws_ext _ _ Hr1 Hw))
      as (ps & w2 & E2 & Hlen & Hapy & Hty & Hr2 & Hc2).
    eexists _, w2. rewrite io_map_cons, io_bind_eq, E1.
    cbv beta iota zeta. rewrite io_ret_eq, E2.
    split; [reflexivity|].
    split; [simpl; now rewrite Hlen|].
    split; [constructor; [now exists x|exact Hapy]|].
    split; [constructor; [reflexivity|exact Hty]|].
    split; congruence.
Qed.

Lemma processTradingPositions_types `{Services} (l : list WalletActivity) (w : World) :
  exists ps w',
    processTradingPositions l w = (ps, w') /\
    Forall (fun p => position_type p = "Trading") ps.
Proof.
  unfold processTradingPositions.
  case_bool_decide; [exists [], w; split; [reflexivity|constructor]|].
  rewrite io_bind_eq. unfold Date_now. cbv beta iota zeta.
  destruct (List.map timestamp _) as [|t ts].
  - eexists _, _. split; [reflexivity|constructor].
  - eexists _, _. split; [reflexivity|]. repeat constructor.
Qed.

Lemma filter_staking_trading (ps : list DeFiPosition) :
  Forall (fun p => position_type p = "Trading") ps ->
  List.filter is_staking_position ps = [].
Proof.
  induction 1 as [|p ps Hp _ IH]; [reflexivity|].
  simpl. unfold is_staking_position at 1. rewrite Hp. exact IH.
Qed.

Example staking_world_positions :
  fst (@analyzeDeFiPositions table_services "wallet" staking_world) =
  [ {| protocol := "MARINADE_STAKING"; position_type := "Staking";
       tokenA := Some "SOL"; position_value := Some 2%float;
       apy := Some 6.5%float; position_timestamp := 1700000000000 |} ].
Proof. vm_compute. reflexivity. Qed.

(** The greatest draw below 1 gives the upper end of the range. *)
Example greatest_draw_gives_max :
  fst (generateRandomApy APY_RANGES.STAKING
         {| walletCache := ∅; clock := fun _ => 0; clock_reads := 0;
            random := fun _ => PrimFloat.next_down 1; random_draws := 0 |}) =
  8%float.
Proof. vm_compute. reflexivity. Qed.

(** C8: when [Math.random()] draws from the unit interval, every position
    of the staking pass has an [apy] between 5 and 8; and for an entry that
    holds one successful Staking activity and no positions, the result has
    exactly one Staking position, with an [apy] between 5 and 8. *)
Theorem staking_apy_in_range `{Services} (w : World) :
  unit_draws w ->
  (forall l p, p ∈ fst (processStakingPositions l w) -> apy_within 5 8 p) /\
  (forall publicKey activity prof,
     walletCache w !! publicKey =
       Some {| activities := [activity]; defiPositions := None; profile := prof |} ->
     type activity = Staking -> success activity = true ->
     exists p,
       List.filter is_staking_position (fst (analyzeDeFiPositions publicKey w)) = [p] /\
       apy_within 5 8 p).
Proof.
  intros Hw. split.
  - intros l p Hp.
    destruct (processStakingPositions_spec l w Hw) as (ps & w' & E & _ & Hapy & _).
    rewrite E in Hp. simpl in Hp.
    rewrite Forall_forall in Hapy. apply Hapy, Hp.
  - intros publicKey activity prof Hentry Htype Hsucc.
    unfold analyzeDeFiPositions.
    rewrite io_bind_eq. unfold walletCache_get. rewrite Hentry.
    set (entry := {| activities := [activity]; defiPositions := None;
                     profile := prof |}).
    change (Some entry ≫= defiPositions) with (@None (list DeFiPosition)).
    change (default [] (activities <$> Some entry)) with [activity].
    cbv beta iota. cbn [List.filter].
    rewrite Hsucc. cbn [length]. rewrite bool_decide_eq_false_2 by discriminate.
    destruct (processStakingPositions_spec [activity] w Hw)
      as (staking & w1 & E1 & Hlen & Hapy & Hty & _).
    rewrite io_bind_eq, E1.
    destruct (processTradingPositions_types [activity] w1) as (trading & w2 & E2 & Htr).
    rewrite io_bind_eq, E2.
    assert (Estake : getActivitiesByType [activity] Staking = [activity]).
    { unfold getActivitiesByType. simpl. now rewrite bool_decide_eq_true_2. }
    assert (Elend : processLendingPositions [activity] w2 = ([], w2)).
    { unfold processLendingPositions, getActivitiesByType. simpl.
      rewrite Htype. reflexivity. }
    assert (Eliq : processLiquidityPositions [activity] w2 = ([], w2)).
    { unfold processLiquidityPositions. simpl. rewrite Htype. reflexivity. }
    assert (Eswap : getActivitiesByType [activity] Swap = []).
    { unfold getActivitiesByType. simpl. rewrite Htype. reflexivity. }
    rewrite io_bind_eq, Elend, io_bind_eq, Eliq, Eswap.
    cbn [length]. rewrite bool_decide_eq_false_2 by lia.
    rewrite io_bind_eq, io_ret_eq, io_bind_eq. unfold walletCache_set.
    rewrite io_ret_eq. cbn [fst].
    rewrite Estake in Hlen. destruct staking as [|p [|p' staking]]; try discriminate Hlen.
    exists p. inversion Hapy as [|? ? Hp _]; subst. inversion Hty as [|? ? Hpt _]; subst.
    split; [|exact Hp].
    rewrite !app_nil_r. cbn [app List.filter].
    unfold is_staking_position at 1. rewrite Hpt. cbn [String.eqb].
    simpl String.eqb. rewrite filter_staking_trading by exact Htr. reflexivity.
Qed.

Lemma staking_apy_in_range_witness :
  unit_draws staking_world /\
  exists p,
    List.filter is_staking_position
      (fst (@analyzeDeFiPositions table_services "wallet" staking_world)) = [p] /\
    apy_within 5 8 p.
Proof.
  assert (Hw : unit_draws staking_world) by (intros n; split; reflexivity).
  split; [exact Hw|].
  apply (proj2 (@staking_apy_in_range table_services staking_world Hw)
           "wallet" marinade_activity None); reflexivity.
Defined.

(** ** Determinism *)

Lemma io_fold_cons {A B} (f : A -> B -> IO A) (b : B) (l : list B) (a : A) (w : World) :
  io_fold f (b :: l) a w = io_fold f l (fst (f a b w)) (snd (f a b w)).
Proof. cbn [io_fold]. rewrite io_bind_eq. now destruct (f a b w). Qed.

(** With an identifier whose answers depend on the program only, the loop
    over the activities collects, in any world, the protocols that the
    recommender over the function of these answers collects. *)
Lemma extractUsedProtocols_io_fold (identify : option string -> IO string)
    (activities : list WalletActivity) :
  deterministic_identifier identify ->
  forall (protocolSet : gset string) (w w0 : World),
    fst (io_fold
           (fun protocolSet activity =>
              match programId activity with
              | Some id =>
                  if negb (String.eqb id "") && negb (String.eqb id "Unknown")
                  then p ← identify (Some id); mret (protocolSet ∪ {[ p ]})
                  else mret protocolSet
              | None => mret protocolSet
              end)
           activities protocolSet w) =
    fold_left
      (fun protocolSet activity =>
         match programId activity with
         | Some id =>
             if negb (String.eqb id "") && negb (String.eqb id "Unknown")
             then protocolSet ∪ {[ fst (identify (Some id) w0) ]}
             else protocolSet
         | None => protocolSet
         end)
      activities protocolSet.
Proof.
  intros Hdet. induction activities as [|activity activities IH];
    intros protocolSet w w0; [reflexivity|].
  rewrite io_fold_cons, (IH _ _ w0). cbn [fold_left]. f_equal.
  destruct (programId activity) as [id|]; [|reflexivity].
  destruct (negb (String.eqb id "") && negb (String.eqb id "Unknown"));
    [|reflexivity].
  rewrite io_bind_eq, <- (Hdet (Some id) w w0).
  now destruct (identify (Some id) w).
Qed.

Lemma recommendStrategies_io_result (identify : option string -> IO string)
    (activities : list WalletActivity) (profile : option WalletProfile)
    (w w0 : World) :
  deterministic_identifier identify ->
  fst (recommendStrategies_io identify activities profile w) =
  @recommendStrategies (services_of identify w0) activities profile.
Proof.
  intros Hdet. unfold recommendStrategies_io, recommendStrategies.
  destruct (bool_decide (length activities = 0%nat)); [reflexivity|].
  cbv zeta. rewrite io_bind_eq.
  pose proof (extractUsedProtocols_io_fold identify activities Hdet ∅ w w0) as E.
  fold (extractUsedProtocols_io identify activities) in E.
  destruct (extractUsedProtocols_io identify activities w) as [usedProtocols w'].
  cbn [fst] in E. rewrite E. reflexivity.
Qed.

(** C9: two calls of [analyzeTransactionPatterns] on arrays of the same
    activities return the same patterns, whatever else the two stores hold,
    and so does a further call on the first array in the store the first
    call has left; two calls of [recommendStrategies] with the same
    activities and the same optional profile return the same strategies in
    any two worlds (cache, clock and generator), those of the recommender
    over the function of the identifier's answers, provided the answers of
    the protocol identifier depend on the program only. *)
Theorem analyzers_deterministic (identify : option string -> IO string)
    (s1 s2 : store) (r1 r2 : ref) (l : list WalletActivity) (w1 w2 : World)
    (activities : list WalletActivity) (profile : option WalletProfile) :
  s1 !! r1 = Some l -> s2 !! r2 = Some l ->
  deterministic_identifier identify ->
  (exists patterns s1' s2' s1'',
     analyzeTransactionPatterns_st r1 s1 = Some (patterns, s1') /\
     analyzeTransactionPatterns_st r2 s2 = Some (patterns, s2') /\
     analyzeTransactionPatterns_st r1 s1' = Some (patterns, s1'')) /\
  fst (recommendStrategies_io identify activities profile w1) =
    fst (recommendStrategies_io identify activities profile w2) /\
  fst (recommendStrategies_io identify activities profile w1) =
    @recommendStrategies (services_of identify w1) activities profile.
Proof.
  intros H1 H2 Hdet. split; [|split].
  - destruct (analyzeTransactionPatterns_st_spec s1 r1 l H1) as (s1' & E1 & Hframe).
    destruct (analyzeTransactionPatterns_st_spec s2 r2 l H2) as (s2' & E2 & _).
    assert (H1' : s1' !! r1 = Some l).
    { rewrite (frame_lookup _ _ _ Hframe (lookup_lt_Some _ _ _ H1)). exact H1. }
    destruct (analyzeTransactionPatterns_st_spec s1' r1 l H1') as (s1'' & E3 & _).
    now exists (analyzeTransactionPatterns l), s1', s2', s1''.
  - now rewrite !(recommendStrategies_io_result _ _ _ _ w1).
  - now apply recommendStrategies_io_result.
Qed.

Lemma analyzers_deterministic_witness :
  (exists patterns s1' s2' s1'',
     analyzeTransactionPatterns_st 0 [activity_at Transfer 5 :: regular_swaps] =
       Some (patterns, s1') /\
     analyzeTransactionPatterns_st 1
       [irregular_swaps; activity_at Transfer 5 :: regular_swaps] =
       Some (patterns, s2') /\
     analyzeTransactionPatterns_st 0 s1' = Some (patterns, s1'')) /\
  fst (recommendStrategies_io clocked_identifier [marinade_activity]
         (Some conservative_profile) (world_of ∅)) =
    fst (recommendStrategies_io clocked_identifier [marinade_activity]
           (Some conservative_profile) stale_world) /\
  fst (recommendStrategies_io clocked_identifier [marinade_activity]
         (Some conservative_profile) (world_of ∅)) =
    @recommendStrategies (services_of clocked_identifier (world_of ∅))
      [marinade_activity] (Some conservative_profile).
Proof.
  apply (analyzers_deterministic clocked_identifier
           [activity_at Transfer 5 :: regular_swaps]
           [irregular_swaps; activity_at Transfer 5 :: regular_swaps]
           0%nat 1%nat
           (activity_at Transfer 5 :: regular_swaps)
           (world_of ∅) stale_world
           [marinade_activity] (Some conservative_profile)).
  - reflexivity.
  - reflexivity.
  - intros programId w w'. reflexivity.
Defined.

(** * Further properties of the analyzers *)

(** ** The detectors of the pattern analyzer *)

(** A predefined pattern is known by its type. *)
Lemma predefined_by_type (p q : TransactionPattern) :
  p ∈ [PATTERNS.INSUFFICIENT_DATA; PATTERNS.GENERAL; PATTERNS.DCA;
       PATTERNS.LENDING; PATTERNS.YIELD_FARMING] ->
  q ∈ [PATTERNS.INSUFFICIENT_DATA; PATTERNS.GENERAL; PATTERNS.DCA;
       PATTERNS.LENDING; PATTERNS.YIELD_FARMING] ->
  patternType p = patternType q -> p = q.
Proof.
  rewrite !elem_of_cons, !elem_of_nil.
  intros [->|[->|[->|[->|[->|[]]]]]] [->|[->|[->|[->|[->|[]]]]]] E;
    try reflexivity; discriminate E.
Qed.

Lemma in_analyzed_iff_detected (l : list WalletActivity) (p : TransactionPattern) :
  (MINIMUM_TRANSACTIONS <= length l)%nat -> p <> PATTERNS.GENERAL ->
  p ∈ analyzeTransactionPatterns l <-> p ∈ detected l.
Proof.
  intros Hlen Hp. rewrite analyzeTransactionPatterns_enough by assumption.
  destruct (detected l) eqn:E; [|reflexivity].
  rewrite list_elem_of_singleton, elem_of_nil. tauto.
Qed.

Lemma some_activity_of_type (l : list WalletActivity) (t : ActivityType) :
  (0 < length (getActivitiesByType l t))%nat <-> exists a, a ∈ l /\ type a = t.
Proof.
  unfold getActivitiesByType. split.
  - destruct (List.filter _ l) as [|a f] eqn:E; simpl; [lia|]. intros _.
    assert (Hin : In a (List.filter (fun activity => bool_decide (type activity = t)) l))
      by (rewrite E; now left).
    apply filter_In in Hin as [Hin Ht]. exists a.
    split; [now apply list_elem_of_In|]. now apply bool_decide_eq_true_1 in Ht.
  - intros (a & Hin & Ht).
    assert (Hf : In a (List.filter (fun activity => bool_decide (type activity = t)) l)).
    { apply filter_In. split; [now apply list_elem_of_In|].
      now apply bool_decide_eq_true_2. }
    destruct (List.filter _ l); [contradiction|simpl; lia].
Qed.

Lemma lending_in_detected (l : list WalletActivity) :
  PATTERNS.LENDING ∈ detected l <->
  (0 < length (getActivitiesByType l Lending))%nat.
Proof.
  unfold detected, detectDCAPattern, lending_part, staking_part.
  repeat case_bool_decide; repeat case_match;
    rewrite ?elem_of_app, ?elem_of_cons, ?elem_of_nil;
    split; intros; try lia; intuition (try discriminate; try lia).
Qed.

Lemma yield_farming_in_detected (l : list WalletActivity) :
  PATTERNS.YIELD_FARMING ∈ detected l <->
  (MINIMUM_STAKING_ACTIONS <= length (getActivitiesByType l Staking))%nat.
Proof.
  unfold detected, detectDCAPattern, lending_part, staking_part.
  repeat case_bool_decide; repeat case_match;
    rewrite ?elem_of_app, ?elem_of_cons, ?elem_of_nil;
    split; intros; try lia; intuition (try discriminate; try lia).
Qed.

(** The patterns of a type in a result, for a type other than the two
    fallbacks. *)
Lemma pattern_of_type_in_result (l : list WalletActivity) (q : TransactionPattern) :
  (MINIMUM_TRANSACTIONS <= length l)%nat ->
  q ∈ [PATTERNS.DCA; PATTERNS.LENDING; PATTERNS.YIELD_FARMING] ->
  ((exists p, p ∈ analyzeTransactionPatterns l /\ patternType p = patternType q) <->
   q ∈ detected l) /\
  (forall p, p ∈ analyzeTransactionPatterns l ->
     patternType p = patternType q -> p = q).
Proof.
  intros Hlen Hq.
  assert (Hq5 : q ∈ [PATTERNS.INSUFFICIENT_DATA; PATTERNS.GENERAL; PATTERNS.DCA;
                     PATTERNS.LENDING; PATTERNS.YIELD_FARMING])
    by (do 2 apply list_elem_of_further; exact Hq).
  assert (Hne : q <> PATTERNS.GENERAL).
  { rewrite !elem_of_cons, elem_of_nil in Hq.
    destruct Hq as [->|[->|[->|[]]]]; discriminate. }
  assert (Honly : forall p, p ∈ analyzeTransactionPatterns l ->
                            patternType p = patternType q -> p = q).
  { intros p Hp Ht. apply analyzeTransactionPatterns_predefined in Hp.
    now apply predefined_by_type. }
  split; [|exact Honly]. split.
  - intros (p & Hp & Ht). rewrite <- (in_analyzed_iff_detected l q Hlen Hne).
    now rewrite <- (Honly p Hp Ht).
  - intros Hd. exists q. split; [|reflexivity].
    now apply in_analyzed_iff_detected.
Qed.

(** X1: with at least five activities, the result has a [lending_active]
    pattern exactly when some activity is of type Lending, one is enough;
    the pattern is then the predefined one, of confidence 0.9. *)
Theorem lending_pattern_iff_lending_activity (l : list WalletActivity) :
  (5 <= length l)%nat ->
  ((exists p, p ∈ analyzeTransactionPatterns l /\ patternType p = "lending_active") <->
   (exists a, a ∈ l /\ type a = Lending)) /\
  (forall p, p ∈ analyzeTransactionPatterns l -> patternType p = "lending_active" ->
     p = PATTERNS.LENDING /\ confidence p = 0.9%float).
Proof.
  intros Hlen.
  destruct (pattern_of_type_in_result l PATTERNS.LENDING Hlen) as [Hiff Honly].
  { apply list_elem_of_further, list_elem_of_here. }
  split.
  - rewrite <- some_activity_of_type, <- lending_in_detected. exact Hiff.
  - intros p Hp Ht. rewrite (Honly p Hp Ht). split; reflexivity.
Qed.

Lemma lending_pattern_iff_lending_activity_witness :
  (exists p, p ∈ analyzeTransactionPatterns lending_activities /\
             patternType p = "lending_active") <->
  (exists a, a ∈ lending_activities /\ type a = Lending).
Proof.
  apply (lending_pattern_iff_lending_activity lending_activities). simpl; lia.
Defined.

(** X2: with at least five activities, the result has a [yield_farming]
    pattern exactly when at least three activities are of type Staking; the
    pattern is then the predefined one, of confidence 0.8. *)
Theorem yield_farming_iff_three_stakings (l : list WalletActivity) :
  (5 <= length l)%nat ->
  ((exists p, p ∈ analyzeTransactionPatterns l /\ patternType p = "yield_farming") <->
   (3 <= length (getActivitiesByType l Staking))%nat) /\
  (forall p, p ∈ analyzeTransactionPatterns l -> patternType p = "yield_farming" ->
     p = PATTERNS.YIELD_FARMING /\ confidence p = 0.8%float).
Proof.
  intros Hlen.
  destruct (pattern_of_type_in_result l PATTERNS.YIELD_FARMING Hlen) as [Hiff Honly].
  { do 2 apply list_elem_of_further. apply list_elem_of_here. }
  split.
  - change 3%nat with MINIMUM_STAKING_ACTIONS.
    rewrite <- yield_farming_in_detected. exact Hiff.
  - intros p Hp Ht. rewrite (Honly p Hp Ht). split; reflexivity.
Qed.

Lemma yield_farming_iff_three_stakings_witness :
  (exists p, p ∈ analyzeTransactionPatterns staking_activities /\
             patternType p = "yield_farming") <->
  (3 <= length (getActivitiesByType staking_activities Staking))%nat.
Proof.
  apply (yield_farming_iff_three_stakings staking_activities). simpl; lia.
Defined.

Lemma detected_in_order (l : list WalletActivity) :
  detected l `sublist_of` [PATTERNS.DCA; PATTERNS.LENDING; PATTERNS.YIELD_FARMING].
Proof.
  unfold detected, detectDCAPattern, lending_part, staking_part.
  repeat case_bool_decide; repeat case_match; simpl;
    repeat first [apply sublist_nil | apply sublist_skip | apply sublist_cons].
Qed.

(** X3: a result is never empty and never mixes a fallback with a detected
    pattern: it is the [insufficient_data] pattern alone, which happens
    exactly below five activities, or the [general] pattern alone, or a
    non-empty selection of [dca], [lending_active] and [yield_farming], in
    this order and each at most once. *)
Theorem patterns_fallback_or_detected (l : list WalletActivity) :
  (analyzeTransactionPatterns l = [PATTERNS.INSUFFICIENT_DATA] <->
   (length l < 5)%nat) /\
  (analyzeTransactionPatterns l = [PATTERNS.INSUFFICIENT_DATA] \/
   analyzeTransactionPatterns l = [PATTERNS.GENERAL] \/
   (analyzeTransactionPatterns l <> [] /\
    analyzeTransactionPatterns l `sublist_of`
      [PATTERNS.DCA; PATTERNS.LENDING; PATTERNS.YIELD_FARMING])).
Proof.
  destruct (decide (length l < MINIMUM_TRANSACTIONS)%nat) as [Hlt|Hge].
  - assert (E : analyzeTransactionPatterns l = [PATTERNS.INSUFFICIENT_DATA]).
    { unfold analyzeTransactionPatterns. now rewrite bool_decide_eq_true_2. }
    split; [|now left]. split; [intros _; exact Hlt|intros _; exact E].
  - assert (Hlen : (MINIMUM_TRANSACTIONS <= length l)%nat) by lia.
    assert (Hcases : analyzeTransactionPatterns l = [PATTERNS.GENERAL] \/
                     (analyzeTransactionPatterns l <> [] /\
                      analyzeTransactionPatterns l `sublist_of`
                        [PATTERNS.DCA; PATTERNS.LENDING; PATTERNS.YIELD_FARMING])).
    { rewrite analyzeTransactionPatterns_enough by assumption.
      destruct (detected l) eqn:E; [now left|right].
      rewrite <- E. split; [rewrite E; discriminate|apply detected_in_order]. }
    split; [|right; exact Hcases].
    split; [|unfold MINIMUM_TRANSACTIONS in Hge; lia].
    intros E. exfalso. destruct Hcases as [Hg|[_ Hs]].
    + rewrite E in Hg. discriminate Hg.
    + rewrite E in Hs.
      assert (Hin : PATTERNS.INSUFFICIENT_DATA ∈
                    [PATTERNS.DCA; PATTERNS.LENDING; PATTERNS.YIELD_FARMING]).
      { apply (sublist_subseteq _ _ Hs), list_elem_of_here. }
      rewrite !elem_of_cons, elem_of_nil in Hin.
      destruct Hin as [H|[H|[H|[]]]]; discriminate H.
Qed.

(** ** What the patterns depend on *)

Lemma List_filter_perm {A} (f : A -> bool) (l l' : list A) :
  l ≡ₚ l' -> List.filter f l ≡ₚ List.filter f l'.
Proof.
  induction 1 as [|x l l' _ IH|x y l|l l' l'' _ IH1 _ IH2]; simpl.
  - reflexivity.
  - destruct (f x); [now constructor|exact IH].
  - destruct (f x), (f y); try reflexivity. apply perm_swap.
  - now rewrite IH1.
Qed.

Lemma type_and_time_filter (l : list WalletActivity) (t : ActivityType) :
  List.map type_and_time (getActivitiesByType l t) =
  List.filter (fun k => bool_decide (fst k = t)) (List.map type_and_time l).
Proof.
  unfold getActivitiesByType. induction l as [|a l IH]; simpl; [reflexivity|].
  destruct (bool_decide (type a = t)); simpl; now rewrite IH.
Qed.

Lemma getActivitiesByType_perm (l l' : list WalletActivity) (t : ActivityType) :
  List.map type_and_time l ≡ₚ List.map type_and_time l' ->
  List.map type_and_time (getActivitiesByType l t) ≡ₚ
  List.map type_and_time (getActivitiesByType l' t).
Proof. intros Hp. rewrite !type_and_time_filter. now apply List_filter_perm. Qed.

Lemma getActivitiesByType_perm_length (l l' : list WalletActivity) (t : ActivityType) :
  List.map type_and_time l ≡ₚ List.map type_and_time l' ->
  length (getActivitiesByType l t) = length (getActivitiesByType l' t).
Proof.
  intros Hp. apply (getActivitiesByType_perm l l' t), Permutation_length in Hp.
  now rewrite !length_map in Hp.
Qed.

Lemma sort_desc_timestamps_sorted (l : list WalletActivity) :
  StronglySorted (fun x y : Z => y <= x) (List.map timestamp (sort_desc l)).
Proof.
  generalize (sort_desc_sorted l). generalize (sort_desc l).
  induction 1 as [|a s _ IH Ha]; simpl; constructor; [exact IH|].
  apply Forall_forall. intros t Ht. apply list_elem_of_In, in_map_iff in Ht.
  destruct Ht as (b & <- & Hb). rewrite Forall_forall in Ha.
  apply (Ha b). now apply list_elem_of_In.
Qed.

Lemma sorted_desc_unique (l1 : list Z) :
  forall l2,
    StronglySorted (fun x y : Z => y <= x) l1 ->
    StronglySorted (fun x y : Z => y <= x) l2 ->
    l1 ≡ₚ l2 -> l1 = l2.
Proof.
  induction l1 as [|x1 l1 IH]; intros l2 H1 H2 Hp.
  - symmetry. now apply Permutation_nil.
  - destruct l2 as [|x2 l2]; [now apply Permutation_nil_r in Hp|].
    apply StronglySorted_inv in H1 as [H1 Hx1].
    apply StronglySorted_inv in H2 as [H2 Hx2].
    rewrite Forall_forall in Hx1, Hx2.
    assert (Hin2 : x2 ∈ x1 :: l1) by (rewrite Hp; apply list_elem_of_here).
    assert (Hin1 : x1 ∈ x2 :: l2) by (rewrite <- Hp; apply list_elem_of_here).
    assert (E : x1 = x2).
    { apply elem_of_cons in Hin1 as [E|Hin1]; [exact E|].
      apply elem_of_cons in Hin2 as [E|Hin2]; [now symmetry|].
      specialize (Hx1 x2 Hin2). specialize (Hx2 x1 Hin1). lia. }
    subst x2. f_equal. apply IH; [exact H1|exact H2|].
    now apply Permutation_cons_inv in Hp.
Qed.

(** The timestamps of the sorted copy depend on the timestamps of the
    group, not on their order. *)
Lemma sort_desc_timestamps_perm (s s' : list WalletActivity) :
  List.map timestamp s ≡ₚ List.map timestamp s' ->
  List.map timestamp (sort_desc s) = List.map timestamp (sort_desc s').
Proof.
  intros Hp. apply sorted_desc_unique.
  - apply sort_desc_timestamps_sorted.
  - apply sort_desc_timestamps_sorted.
  - rewrite (Permutation_map timestamp (sort_desc_perm s)), Hp.
    symmetry. apply Permutation_map, sort_desc_perm.
Qed.

Lemma timeGaps_timestamps (l1 : list WalletActivity) :
  forall l2, List.map timestamp l1 = List.map timestamp l2 ->
             timeGaps l1 = timeGaps l2.
Proof.
  induction l1 as [|a [|b l1] IH]; intros [|a' [|b' l2]] E;
    try discriminate E; try reflexivity.
  simpl in E. injection E as Ea Eb Et.
  change (timeGaps (a :: b :: l1))
    with ((number_of_Z (timestamp a) - number_of_Z (timestamp b))%float
          :: timeGaps (b :: l1)).
  change (timeGaps (a' :: b' :: l2))
    with ((number_of_Z (timestamp a') - number_of_Z (timestamp b'))%float
          :: timeGaps (b' :: l2)).
  rewrite Ea, Eb. f_equal. apply IH. simpl. congruence.
Qed.

Lemma detected_perm (l l' : list WalletActivity) :
  List.map type_and_time l ≡ₚ List.map type_and_time l' ->
  detected l = detected l'.
Proof.
  intros Hp. unfold detected, lending_part, staking_part.
  rewrite (getActivitiesByType_perm_length l l' Lending Hp).
  rewrite (getActivitiesByType_perm_length l l' Staking Hp).
  f_equal. unfold detectDCAPattern, variationCoefficient.
  rewrite (getActivitiesByType_perm_length l l' Swap Hp).
  assert (Hs : List.map timestamp (getActivitiesByType l Swap) ≡ₚ
               List.map timestamp (getActivitiesByType l' Swap)).
  { apply (getActivitiesByType_perm l l' Swap), (Permutation_map snd) in Hp.
    now rewrite !List.map_map in Hp. }
  rewrite (timeGaps_timestamps _ _ (sort_desc_timestamps_perm _ _ Hs)).
  reflexivity.
Qed.

(** X4: the patterns depend on the types and the timestamps of the
    activities only, and not on their order: two lists whose activities
    have the same types and timestamps, in any order, give the same
    patterns, whatever their values, programs and outcomes are (a failed
    activity counts like a successful one). *)
Theorem patterns_depend_on_types_and_times (l l' : list WalletActivity) :
  List.map type_and_time l ≡ₚ List.map type_and_time l' ->
  analyzeTransactionPatterns l = analyzeTransactionPatterns l'.
Proof.
  intros Hp.
  assert (Hlen : length l = length l').
  { apply Permutation_length in Hp. now rewrite !length_map in Hp. }
  destruct (decide (length l < MINIMUM_TRANSACTIONS)%nat) as [Hlt|Hge].
  - unfold analyzeTransactionPatterns.
    rewrite !bool_decide_eq_true_2 by lia. reflexivity.
  - rewrite !analyzeTransactionPatterns_enough by lia.
    now rewrite (detected_perm l l' Hp).
Qed.

Lemma patterns_depend_on_types_and_times_witness :
  analyzeTransactionPatterns (activity_at Transfer 5 :: regular_swaps) =
  analyzeTransactionPatterns (regular_swaps ++ [failed_transfer]).
Proof.
  apply (patterns_depend_on_types_and_times (activity_at Transfer 5 :: regular_swaps)
           (regular_swaps ++ [failed_transfer])).
  apply (Permutation_cons_append
           (List.map type_and_time regular_swaps) (Transfer, 5)).
Defined.

(** ** The grouping object *)

Lemma type_name_or_not (key : string) :
  (exists t, key = type_name t) \/ (forall t, key <> type_name t).
Proof.
  destruct (decide (key ∈ List.map type_name
              [Transfer; Swap; Mint; Staking; Trading; Lending; AccountCreation; Other]))
    as [Hin|Hout].
  - left. apply list_elem_of_In, in_map_iff in Hin.
    destruct Hin as (t & E & _). now exists t.
  - right. intros t E. apply Hout. rewrite E.
    apply list_elem_of_In, in_map. destruct t; simpl; tauto.
Qed.

Lemma fold_group_push_other (key : string) (l : list WalletActivity) :
  (forall t, key <> type_name t) ->
  forall groups : gmap string (list WalletActivity),
    fold_left group_push l groups !! key = groups !! key.
Proof.
  intros Hkey. induction l as [|a l IH]; intros groups; simpl; [reflexivity|].
  rewrite IH. unfold group_push.
  rewrite lookup_insert_ne by (intros E; apply (Hkey (type a)); now rewrite E).
  destruct (groups !! type_name (type a)); [reflexivity|].
  apply lookup_insert_ne. intros E; apply (Hkey (type a)); now rewrite E.
Qed.

(** X5: the grouping object has one entry for each type that occurs, and
    no other key: the entry of a type holds all the activities of the type,
    in input order, and no entry is an empty group. *)
Theorem groups_partition_by_type (l : list WalletActivity) (key : string)
    (group : list WalletActivity) :
  groupActivitiesByType l !! key = Some group <->
  exists t, key = type_name t /\ group = getActivitiesByType l t /\ group <> [].
Proof.
  split.
  - intros Hg. destruct (type_name_or_not key) as [[t ->]|Hkey].
    + exists t. split; [reflexivity|].
      rewrite groupActivitiesByType_lookup in Hg.
      destruct (getActivitiesByType l t) eqn:E; [discriminate Hg|].
      injection Hg as <-. split; [reflexivity|discriminate].
    + unfold groupActivitiesByType in Hg.
      rewrite fold_group_push_other, lookup_empty in Hg by exact Hkey.
      discriminate Hg.
  - intros (t & -> & -> & Hne). rewrite groupActivitiesByType_lookup.
    destruct (getActivitiesByType l t); [congruence|reflexivity].
Qed.

(** ** The strategy recommender *)

Lemma used_protocols_fold `{Services} (activities : list WalletActivity)
    (protocol : string) :
  forall protocolSet : gset string,
    protocol ∈
      fold_left
        (fun protocolSet activity =>
           match programId activity with
           | Some id =>
               if negb (String.eqb id "") && negb (String.eqb id "Unknown")
               then protocolSet ∪ {[ identifyProtocol (Some id) ]}
               else protocolSet
           | None => protocolSet
           end)
        activities protocolSet <->
    protocol ∈ protocolSet \/
    exists activity id,
      activity ∈ activities /\ programId activity = Some id /\
      id <> ""%string /\ id <> "Unknown"%string /\
      identifyProtocol (Some id) = protocol.
Proof.
  induction activities as [|a l IH]; intros protocolSet; simpl.
  - split; [now left|]. intros [Hin|(a & id & Hin & _)]; [exact Hin|].
    now apply elem_of_nil in Hin.
  - rewrite IH. split.
    + intros [Hin|(b & id & Hb & Hrest)].
      * destruct (programId a) as [id|] eqn:Eid; [|now left].
        destruct (String.eqb_spec id ""), (String.eqb_spec id "Unknown");
          simpl in Hin; try (now left).
        apply elem_of_union in Hin as [Hin|Hin]; [now left|].
        apply elem_of_singleton in Hin. right. exists a, id.
        split; [apply list_elem_of_here|]. auto.
      * right. exists b, id. split; [now apply list_elem_of_further|exact Hrest].
    + intros [Hin|(b & id & Hb & Eid & H1 & H2 & Hp)].
      * left. destruct (programId a) as [id|]; [|exact Hin].
        destruct (negb _ && negb _); [|exact Hin].
        apply elem_of_union. now left.
      * apply elem_of_cons in Hb as [->|Hb].
        -- left. rewrite Eid.
           destruct (String.eqb_spec id ""), (String.eqb_spec id "Unknown");
             try contradiction.
           simpl. apply elem_of_union. right. now apply elem_of_singleton.
        -- right. exists b, id. auto.
Qed.

(** X6: a protocol counts as used exactly when some activity has a program
    id, not empty and not ["Unknown"], that [identifyProtocol] maps to
    it. *)
Theorem used_protocol_iff_activity `{Services} (activities : list WalletActivity)
    (protocol : string) :
  protocol ∈ extractUsedProtocols activities <->
  exists activity id,
    activity ∈ activities /\ programId activity = Some id /\
    id <> ""%string /\ id <> "Unknown"%string /\
    identifyProtocol (Some id) = protocol.
Proof.
  unfold extractUsedProtocols. rewrite used_protocols_fold.
  split; [|now right]. intros [Hin|Hex]; [|exact Hex].
  now apply elem_of_empty in Hin.
Qed.

Lemma baseStrategies_tiers (riskProfile : string) :
  riskProfile ∉ Object_prototype_keys ->
  baseStrategies riskProfile =
  Some (if String.eqb riskProfile "conservative" then [STAKING_SOL; LIQUID_STAKING]
        else if String.eqb riskProfile "aggressive"
             then [LEVERAGED_FARMING; PERPETUAL_TRADING]
             else [SUPPLY_STABLECOINS; DIVERSIFIED_LP]).
Proof.
  intros Hout. unfold baseStrategies, own_property, RISK_PROFILE_STRATEGIES.
  cbn [List.find fst snd].
  rewrite (String.eqb_sym "conservative"), (String.eqb_sym "moderate"),
    (String.eqb_sym "aggressive").
  destruct (String.eqb riskProfile "conservative"); [reflexivity|].
  destruct (String.eqb riskProfile "moderate") eqn:Em.
  - apply String.eqb_eq in Em. subst. reflexivity.
  - destruct (String.eqb riskProfile "aggressive"); [reflexivity|].
    cbn [fmap option_fmap option_map]. now rewrite bool_decide_eq_false_2.
Qed.

Lemma baseStrategies_fails (riskProfile : string) :
  baseStrategies riskProfile = None <-> riskProfile ∈ Object_prototype_keys.
Proof.
  split.
  - intros E. destruct (decide (riskProfile ∈ Object_prototype_keys)) as [|Hout];
      [assumption|].
    rewrite baseStrategies_tiers in E by assumption. discriminate E.
  - unfold Object_prototype_keys. rewrite !elem_of_cons, elem_of_nil.
    intros Hin. repeat (destruct Hin as [->|Hin]; [reflexivity|]). destruct Hin.
Qed.

Lemma unmapped_strategy_kept (usedProtocols : gset string) (s : StrategyRef) :
  s ∈ [BEGINNER; STAKING_SOL; DIVERSIFIED_LP; LEVERAGED_FARMING] ->
  shouldExclude usedProtocols s = false.
Proof.
  intros Hs. apply not_true_iff_false. rewrite shouldExclude_true.
  intros (protocol & _ & Hin). unfold PROTOCOL_STRATEGY_MAP in Hin.
  rewrite !elem_of_cons, elem_of_nil in Hin.
  rewrite !elem_of_cons, elem_of_nil in Hs.
  destruct Hin as [E|[E|[E|[]]]]; injection E as _ ->;
    destruct Hs as [E|[E|[E|[E|[]]]]]; discriminate E.
Qed.

Lemma recommendStrategies_with_activities `{Services}
    (acts : list WalletActivity) (profile : option WalletProfile) :
  acts <> [] ->
  recommendStrategies acts profile =
  List.filter (fun s => negb (shouldExclude (extractUsedProtocols acts) s))
    <$> baseStrategies (resolveRiskProfile profile).
Proof.
  intros Hne. unfold recommendStrategies.
  rewrite bool_decide_eq_false_2 by (destruct acts; [congruence|discriminate]).
  cbv zeta. apply generateRecommendations_filter.
Qed.

(** X7: for a wallet with activities and a risk profile that names no
    inherited property, the recommender returns one or two strategies, all
    of the risk level of the profile: low for [conservative], high for
    [aggressive], medium for [moderate], for any other string and for an
    absent profile.  The strategy of the pair that the protocol table does
    not mention is always among them. *)
Theorem recommendations_match_profile `{Services}
    (acts : list WalletActivity) (profile : option WalletProfile) :
  acts <> [] ->
  resolveRiskProfile profile ∉ Object_prototype_keys ->
  exists result,
    recommendStrategies acts profile = Some result /\
    (1 <= length result <= 2)%nat /\
    (forall s, s ∈ result ->
       riskLevel (STRATEGIES s) =
       if String.eqb (resolveRiskProfile profile) "conservative" then low
       else if String.eqb (resolveRiskProfile profile) "aggressive" then high
            else medium) /\
    (if String.eqb (resolveRiskProfile profile) "conservative" then STAKING_SOL
     else if String.eqb (resolveRiskProfile profile) "aggressive"
          then LEVERAGED_FARMING
          else DIVERSIFIED_LP) ∈ result.
Proof.
  intros Hne Hout.
  rewrite recommendStrategies_with_activities by exact Hne.
  rewrite baseStrategies_tiers by exact Hout.
  set (used := extractUsedProtocols acts).
  eexists. split; [reflexivity|].
  pose proof (unmapped_strategy_kept used STAKING_SOL) as E1.
  pose proof (unmapped_strategy_kept used DIVERSIFIED_LP) as E2.
  pose proof (unmapped_strategy_kept used LEVERAGED_FARMING) as E3.
  rewrite !elem_of_cons in E1, E2, E3.
  destruct (String.eqb (resolveRiskProfile profile) "conservative");
    [|destruct (String.eqb (resolveRiskProfile profile) "aggressive")];
    cbn [List.filter]; rewrite ?E1, ?E2, ?E3 by tauto; cbn [negb].
  - destruct (negb (shouldExclude used LIQUID_STAKING)); cbn [length];
      (split; [lia|]); (split; [|rewrite !elem_of_cons; tauto]);
      intros s; rewrite !elem_of_cons, elem_of_nil;
      intros Hs; repeat (destruct Hs as [->|Hs]; [reflexivity|]); destruct Hs.
  - destruct (negb (shouldExclude used PERPETUAL_TRADING)); cbn [length];
      (split; [lia|]); (split; [|rewrite !elem_of_cons; tauto]);
      intros s; rewrite !elem_of_cons, elem_of_nil;
      intros Hs; repeat (destruct Hs as [->|Hs]; [reflexivity|]); destruct Hs.
  - destruct (negb (shouldExclude used SUPPLY_STABLECOINS)); cbn [length];
      (split; [lia|]); (split; [|rewrite !elem_of_cons; tauto]);
      intros s; rewrite !elem_of_cons, elem_of_nil;
      intros Hs; repeat (destruct Hs as [->|Hs]; [reflexivity|]); destruct Hs.
Qed.

Lemma recommendations_match_profile_witness :
  exists result,
    @recommendStrategies table_services [marinade_activity]
      (Some conservative_profile) = Some result /\
    (1 <= length result <= 2)%nat /\
    (forall s, s ∈ result -> riskLevel (STRATEGIES s) = low) /\
    STAKING_SOL ∈ result.
Proof.
  apply (@recommendations_match_profile table_services [marinade_activity]
           (Some conservative_profile)).
  - discriminate.
  - apply (bool_decide_unpack _). vm_compute. exact I.
Defined.

(** X8: the beginner strategy is recommended to the wallet without
    activities, whatever its profile, and to no other wallet. *)
Theorem beginner_iff_no_activity `{Services}
    (acts : list WalletActivity) (profile : option WalletProfile)
    (result : list StrategyRef) :
  recommendStrategies acts profile = Some result ->
  (acts = [] -> result = [BEGINNER]) /\ (BEGINNER ∈ result <-> acts = []).
Proof.
  intros E. destruct acts as [|a acts].
  - injection E as <-. repeat split; intros; apply list_elem_of_here.
  - rewrite recommendStrategies_with_activities in E by discriminate.
    split; [discriminate|]. split; [|discriminate].
    intros Hin. exfalso.
    destruct (baseStrategies _) as [base|] eqn:Eb; [|discriminate E].
    injection E as <-.
    apply list_elem_of_In, filter_In in Hin as [Hin _].
    destruct (decide (resolveRiskProfile profile ∈ Object_prototype_keys)) as [Hk|Hk].
    + apply baseStrategies_fails in Hk. congruence.
    + rewrite baseStrategies_tiers in Eb by exact Hk. injection Eb as <-.
      repeat case_match; simpl in Hin; intuition discriminate.
Qed.

Lemma beginner_iff_no_activity_witness :
  BEGINNER ∈ [BEGINNER] <-> @nil WalletActivity = [].
Proof.
  apply (@beginner_iff_no_activity table_services [] (Some conservative_profile)
           [BEGINNER]).
  reflexivity.
Defined.

(** X9: the recommender fails (the loop over the base strategies throws a
    [TypeError]) exactly when the wallet has activities and the risk
    profile is the name of a property inherited from [Object.prototype],
    such as ["constructor"]: the lookup in the table of risk profiles then
    finds that property, which is truthy and cannot be iterated. *)
Theorem recommender_fails_iff_inherited_key `{Services}
    (acts : list WalletActivity) (profile : option WalletProfile) :
  recommendStrategies acts profile = None <->
  acts <> [] /\ resolveRiskProfile profile ∈ Object_prototype_keys.
Proof.
  destruct acts as [|a acts].
  - split; [discriminate|]. intros [Hne _]. congruence.
  - rewrite recommendStrategies_with_activities by discriminate.
    rewrite <- baseStrategies_fails.
    destruct (baseStrategies _); simpl; split; try discriminate; try tauto.
    + intros [_ E]. discriminate E.
    + intros _. split; [discriminate|reflexivity].
Qed.

Lemma used_protocols_programs `{Services} (acts acts' : list WalletActivity) :
  List.map programId acts = List.map programId acts' ->
  forall protocolSet : gset string,
    fold_left
      (fun protocolSet activity =>
         match programId activity with
         | Some id =>
             if negb (String.eqb id "") && negb (String.eqb id "Unknown")
             then protocolSet ∪ {[ identifyProtocol (Some id) ]}
             else protocolSet
         | None => protocolSet
         end)
      acts protocolSet =
    fold_left
      (fun protocolSet activity =>
         match programId activity with
         | Some id =>
             if negb (String.eqb id "") && negb (String.eqb id "Unknown")
             then protocolSet ∪ {[ identifyProtocol (Some id) ]}
             else protocolSet
         | None => protocolSet
         end)
      acts' protocolSet.
Proof.
  revert acts'. induction acts as [|a acts IH]; intros [|a' acts'] E protocolSet;
    try discriminate E; [reflexivity|].
  simpl in E. injection E as Ea Et. simpl. rewrite Ea. now apply IH.
Qed.

(** X10: the recommendations depend on the program ids of the activities
    and on the risk profile only: two wallets whose activities name the
    same programs, and whose profiles resolve to the same risk profile, get
    the same recommendations, whatever the types, values and outcomes of
    the activities and the other fields of the profiles are. *)
Theorem recommendations_depend_on_programs `{Services}
    (acts acts' : list WalletActivity) (profile profile' : option WalletProfile) :
  List.map programId acts = List.map programId acts' ->
  resolveRiskProfile profile = resolveRiskProfile profile' ->
  recommendStrategies acts profile = recommendStrategies acts' profile'.
Proof.
  intros Ea Ep. unfold recommendStrategies, extractUsedProtocols.
  rewrite (used_protocols_programs acts acts' Ea), Ep.
  apply (f_equal (@length _)) in Ea. rewrite !length_map in Ea.
  now rewrite Ea.
Qed.

Lemma recommendations_depend_on_programs_witness :
  @recommendStrategies table_services [marinade_activity] None =
  @recommendStrategies table_services [failed_marinade_activity]
    (Some diversified_profile).
Proof.
  apply (@recommendations_depend_on_programs table_services
           [marinade_activity] [failed_marinade_activity]
           None (Some diversified_profile));
    reflexivity.
Defined.

Lemma filter_sublist_mono {A} (f g : A -> bool) (l : list A) :
  (forall x, f x = true -> g x = true) ->
  List.filter f l `sublist_of` List.filter g l.
Proof.
  intros Hfg. induction l as [|x l IH]; simpl; [constructor|].
  destruct (f x) eqn:Ef.
  - rewrite (Hfg x Ef). now constructor.
  - destruct (g x); [now constructor|exact IH].
Qed.

Lemma used_protocols_app `{Services} (acts more : list WalletActivity)
    (protocol : string) :
  protocol ∈ extractUsedProtocols acts ->
  protocol ∈ extractUsedProtocols (acts ++ more).
Proof.
  unfold extractUsedProtocols. rewrite !used_protocols_fold.
  intros [Hin|(a & id & Hin & Hrest)]; [now left|right].
  exists a, id. split; [|exact Hrest]. apply elem_of_app. now left.
Qed.

(** X11: further activities never add a recommendation: for a wallet with
    activities, the strategies recommended after more activities are among
    those recommended before, in the same order, and the recommender fails
    after them exactly when it failed before. *)
Theorem more_activities_fewer_recommendations `{Services}
    (acts more : list WalletActivity) (profile : option WalletProfile) :
  acts <> [] ->
  (recommendStrategies (acts ++ more) profile = None <->
   recommendStrategies acts profile = None) /\
  (forall before after,
     recommendStrategies acts profile = Some before ->
     recommendStrategies (acts ++ more) profile = Some after ->
     after `sublist_of` before).
Proof.
  intros Hne.
  assert (Hne' : acts ++ more <> []) by (destruct acts; [congruence|discriminate]).
  rewrite !recommendStrategies_with_activities by assumption.
  destruct (baseStrategies _) as [base|]; simpl.
  - split; [split; discriminate|].
    intros before after [= <-] [= <-].
    apply filter_sublist_mono. intros s.
    rewrite !negb_true_iff, <- !not_true_iff_false, !shouldExclude_true.
    intros Hno (protocol & Hin & Hmap). apply Hno. exists protocol.
    split; [|exact Hmap]. now apply used_protocols_app.
  - split; [tauto|]. discriminate.
Qed.

Lemma more_activities_fewer_recommendations_witness :
  @recommendStrategies table_services [marinade_activity] None =
    Some [SUPPLY_STABLECOINS; DIVERSIFIED_LP] /\
  @recommendStrategies table_services ([marinade_activity] ++ [solend_activity]) None =
    Some [DIVERSIFIED_LP] /\
  [DIVERSIFIED_LP] `sublist_of` [SUPPLY_STABLECOINS; DIVERSIFIED_LP].
Proof.
  split; [reflexivity|]. split; [reflexivity|].
  apply (proj2 (@more_activities_fewer_recommendations table_services
                  [marinade_activity] [solend_activity] None
                  ltac:(discriminate)));
    reflexivity.
Defined.

(** ** Binary64 rounding: the lending and the liquidity range

    Both ranges have the width 4: [r * 4] is at most 4, and the sums
    [3 + r * 4] and [8 + r * 4] stay within the range. *)

Lemma shl_align_le (mx : positive) (ex ex' : Z) :
  ex <= ex' -> shl_align mx ex ex' = (mx, ex).
Proof.
  intros Hle. unfold shl_align.
  destruct (ex' - ex) as [|d|d] eqn:E; try reflexivity. lia.
Qed.

Lemma shl_align_gt (mx : positive) (ex ex' : Z) (d : positive) :
  ex' - ex = Z.neg d -> shl_align mx ex ex' = (shift_pos d mx, ex').
Proof. intros E. unfold shl_align. now rewrite E. Qed.

Lemma shift_pos_mul (d m : positive) : Z.pos (shift_pos d m) = Z.pos m * 2 ^ Z.pos d.
Proof. unfold shift_pos. apply iter_xO_mul. Qed.

(** Rounding a product below 4 gives a zero or a positive number that is at
    most 4. *)
Lemma round_below_four (P : positive) (ex : Z) :
  ex <= -50 -> Z.pos P < 4 * 2 ^ (- ex) ->
  let R := binary_round_aux prec emax false (Z.pos P) ex loc_Exact in
  R = S754_zero false \/
  exists m e, R = S754_finite false m e /\ e <= -50 /\ Z.pos m <= 4 * 2 ^ (- e).
Proof.
  intros Hex HP. cbv zeta.
  destruct (binary_round_aux_shape P ex) as (mr & Hmr & _ & ->).
  set (n1 := Z.max 0 (fexp64 (Z.pos (digits2_pos P) + ex) - ex)) in *.
  set (e' := ex + n1) in *.
  set (n2 := Z.max 0 (fexp64 (Zdigits2 mr + e') - e')).
  assert (Hfour : forall k, 0 <= k -> 4 * 2 ^ k = 2 ^ (2 + k)).
  { intros k Hk. rewrite Z.pow_add_r by lia. reflexivity. }
  assert (Hd : Z.pos (digits2_pos P) <= 2 - ex).
  { apply digits2_pos_le. replace (2 - ex) with (2 + - ex) by lia.
    rewrite <- Hfour by lia. exact HP. }
  assert (He' : e' <= -50).
  { unfold e', n1. pose proof (fexp64_mono (Z.pos (digits2_pos P) + ex) 2).
    change (fexp64 2) with (-51) in *. lia. }
  assert (Hn1 : 0 <= n1) by (unfold n1; lia).
  assert (Hpow1 : 0 < 2 ^ n1) by (apply Z.pow_pos_nonneg; lia).
  assert (Hpowe' : 0 < 2 ^ (- e')) by (apply Z.pow_pos_nonneg; lia).
  assert (Hq : Z.pos P / 2 ^ n1 < 4 * 2 ^ (- e')).
  { apply Z.div_lt_upper_bound; [exact Hpow1|].
    replace (- ex) with (n1 + - e') in HP by (unfold e'; lia).
    rewrite pow2_split in HP by lia. lia. }
  assert (Hq0 : 0 <= Z.pos P / 2 ^ n1) by (apply Z.div_pos; lia).
  assert (Hmr4 : 0 <= mr <= 4 * 2 ^ (- e')) by lia.
  assert (Hdmr : Zdigits2 mr <= 3 - e').
  { apply Zdigits2_le; [|lia]. replace (3 - e') with (1 + (2 + - e')) by lia.
    rewrite (pow2_split 1) by lia. rewrite <- Hfour by lia.
    change (2 ^ 1) with 2. lia. }
  assert (Hn2 : 0 <= n2) by (unfold n2; lia).
  assert (He'' : e' + n2 <= -50).
  { unfold n2. pose proof (fexp64_mono (Zdigits2 mr + e') 3).
    change (fexp64 3) with (-50) in *. lia. }
  assert (Hpow2 : 0 < 2 ^ n2) by (apply Z.pow_pos_nonneg; lia).
  assert (Hm'' : 0 <= mr / 2 ^ n2 <= 4 * 2 ^ (- (e' + n2))).
  { split; [apply Z.div_pos; lia|].
    apply Z.div_le_upper_bound; [exact Hpow2|].
    replace (- e') with (n2 + - (e' + n2)) in Hmr4 by lia.
    rewrite pow2_split in Hmr4 by lia. lia. }
  destruct (mr / 2 ^ n2) as [|m|m] eqn:E.
  - left. reflexivity.
  - right. exists m, (e' + n2).
    rewrite (proj2 (Z.leb_le _ _)) by lia.
    split; [reflexivity|]. split; [exact He''|]. lia.
  - lia.
Qed.

(** The only number of the format whose value is 4. *)
Lemma canonical_four (my : positive) (ey : Z) :
  ey <= -50 -> Z.pos my = 4 * 2 ^ (- ey) ->
  canonical_mantissa prec emax my ey = true ->
  S754_finite false my ey = SF_four.
Proof.
  intros Hey Hmy Hcan. unfold canonical_mantissa in Hcan.
  apply Z.eqb_eq in Hcan. rewrite fexp64_eq in Hcan.
  assert (Hpow : 0 < 2 ^ (- ey)) by (apply Z.pow_pos_nonneg; lia).
  assert (Hd : Z.pos (digits2_pos my) = 3 - ey).
  { apply digits2_pos_eq. rewrite Hmy. split.
    - replace (3 - ey - 1) with (2 + - ey) by lia.
      rewrite pow2_split by lia. change (2 ^ 2) with 4. lia.
    - replace (3 - ey) with (3 + - ey) by lia.
      rewrite pow2_split by lia. change (2 ^ 3) with 8. lia. }
  rewrite Hd in Hcan. replace (3 - ey + ey) with 3 in Hcan by lia.
  change (fexp64 3) with (-50) in Hcan. subst ey.
  change (2 ^ (- -50)) with 1125899906842624 in Hmy.
  assert (my = 4503599627370496%positive) by lia. subst my. reflexivity.
Qed.

(** A canonical number below 4 has an exponent of at most -51. *)
Lemma below_four_exponent (my : positive) (ey : Z) :
  ey <= -50 -> Z.pos my < 4 * 2 ^ (- ey) ->
  canonical_mantissa prec emax my ey = true -> ey <= -51.
Proof.
  intros Hey Hmy Hcan. unfold canonical_mantissa in Hcan.
  apply Z.eqb_eq in Hcan. rewrite fexp64_eq in Hcan.
  assert (Hd : Z.pos (digits2_pos my) <= 2 - ey).
  { apply digits2_pos_le. replace (2 - ey) with (2 + - ey) by lia.
    rewrite pow2_split by lia. exact Hmy. }
  pose proof (fexp64_mono (Z.pos (digits2_pos my) + ey) 2) as Hm.
  change (fexp64 2) with (-51) in Hm. lia.
Qed.

Lemma SFleb_same_exponent (p q : positive) (e : Z) :
  Z.pos p <= Z.pos q ->
  SFleb (S754_finite false p e) (S754_finite false q e) = true.
Proof.
  intros Hle. unfold SFleb, SFcompare. rewrite Z.compare_refl.
  change (Pos.compare_cont Eq p q) with (Z.pos p ?= Z.pos q).
  unfold Z.le in Hle. destruct (Z.pos p ?= Z.pos q); [reflexivity|reflexivity|].
  now elim Hle.
Qed.

Lemma SFleb_lower_exponent (p q : positive) (e1 e2 : Z) :
  e1 < e2 -> SFleb (S754_finite false p e1) (S754_finite false q e2) = true.
Proof.
  intros Hlt. unfold SFleb, SFcompare.
  now rewrite (proj2 (Z.compare_lt_iff e1 e2) Hlt).
Qed.

(** Rounding a mantissa whose value is between 8 and 12. *)
Lemma round_eight_to_twelve (M : positive) (n : Z) :
  0 <= n ->
  4503599627370496 * 2 ^ n <= Z.pos M < 6755399441055744 * 2 ^ n ->
  let R := binary_round prec emax false M (-49 - n) in
  SFleb SF_eight R = true /\ SFleb R SF_twelve = true.
Proof.
  intros Hn HM. cbv zeta.
  assert (Hpown : 0 < 2 ^ n) by (apply Z.pow_pos_nonneg; lia).
  assert (HdM : Z.pos (digits2_pos M) = 53 + n).
  { apply digits2_pos_eq. split.
    - replace (53 + n - 1) with (52 + n) by lia. rewrite pow2_split by lia.
      change (2 ^ 52) with 4503599627370496. lia.
    - rewrite pow2_split by lia. change (2 ^ 53) with 9007199254740992. lia. }
  unfold binary_round. rewrite fexp64_eq, HdM.
  replace (53 + n + (-49 - n)) with 4 by lia. change (fexp64 4) with (-49).
  rewrite shl_align_le by lia.
  destruct (binary_round_aux_shape M (-49 - n)) as (mr & Hmr & _ & ->).
  rewrite HdM in Hmr |- *. replace (53 + n + (-49 - n)) with 4 in Hmr |- * by lia.
  change (fexp64 4) with (-49) in Hmr |- *.
  replace (Z.max 0 (-49 - (-49 - n))) with n in Hmr |- * by lia.
  replace (-49 - n + n) with (-49) by lia.
  assert (Hq : 4503599627370496 <= Z.pos M / 2 ^ n < 6755399441055744).
  { split.
    - apply Z.div_le_lower_bound; lia.
    - apply Z.div_lt_upper_bound; lia. }
  assert (Hdmr : Zdigits2 mr = 53).
  { destruct mr as [|p|p]; try lia. simpl. apply digits2_pos_eq.
    change (2 ^ (53 - 1)) with 4503599627370496.
    change (2 ^ 53) with 9007199254740992. lia. }
  rewrite Hdmr. change (Z.max 0 (fexp64 (53 + -49) - -49)) with 0.
  change (2 ^ 0) with 1. rewrite Z.div_1_r.
  destruct mr as [|p|p]; try lia.
  change (-49 + 0) with (-49). change (-49 <=? 971) with true. cbv iota.
  unfold SF_eight, SF_twelve.
  split; apply SFleb_same_exponent; clear - Hmr Hq; lia.
Qed.

(** Rounding a mantissa whose value is between 3 and 7. *)
Lemma round_three_to_seven (M : positive) (n : Z) :
  0 <= n ->
  6755399441055744 * 2 ^ n <= Z.pos M < 15762598695796736 * 2 ^ n ->
  let R := binary_round prec emax false M (-51 - n) in
  SFleb SF_three R = true /\ SFleb R SF_seven = true.
Proof.
  intros Hn HM. cbv zeta.
  assert (Hpown : 0 < 2 ^ n) by (apply Z.pow_pos_nonneg; lia).
  unfold binary_round. rewrite fexp64_eq.
  destruct (Z.lt_ge_cases (Z.pos M) (9007199254740992 * 2 ^ n)) as [Hlow|Hhigh].
  - (* below 4 *)
    assert (HdM : Z.pos (digits2_pos M) = 53 + n).
    { apply digits2_pos_eq. split.
      - replace (53 + n - 1) with (52 + n) by lia. rewrite pow2_split by lia.
        change (2 ^ 52) with 4503599627370496. lia.
      - rewrite pow2_split by lia. change (2 ^ 53) with 9007199254740992. lia. }
    rewrite HdM. replace (53 + n + (-51 - n)) with 2 by lia.
    change (fexp64 2) with (-51). rewrite shl_align_le by lia.
    destruct (binary_round_aux_shape M (-51 - n)) as (mr & Hmr & _ & ->).
    rewrite HdM in Hmr |- *. replace (53 + n + (-51 - n)) with 2 in Hmr |- * by lia.
    change (fexp64 2) with (-51) in Hmr |- *.
    replace (Z.max 0 (-51 - (-51 - n))) with n in Hmr |- * by lia.
    replace (-51 - n + n) with (-51) by lia.
    assert (Hq : 6755399441055744 <= Z.pos M / 2 ^ n < 9007199254740992).
    { split.
      - apply Z.div_le_lower_bound; lia.
      - apply Z.div_lt_upper_bound; lia. }
    destruct (Z.eq_dec mr 9007199254740992) as [->|Hmr'].
    { vm_compute. auto. }
    assert (Hdmr : Zdigits2 mr = 53).
    { destruct mr as [|p|p]; try lia. simpl. apply digits2_pos_eq.
      change (2 ^ (53 - 1)) with 4503599627370496.
      change (2 ^ 53) with 9007199254740992. lia. }
    rewrite Hdmr. change (Z.max 0 (fexp64 (53 + -51) - -51)) with 0.
    change (2 ^ 0) with 1. rewrite Z.div_1_r.
    destruct mr as [|p|p]; try lia.
    change (-51 + 0) with (-51). change (-51 <=? 971) with true. cbv iota.
    unfold SF_three, SF_seven.
    split; [|apply SFleb_lower_exponent; lia].
    apply SFleb_same_exponent. clear - Hmr Hq. lia.
  - (* from 4 on *)
    assert (HdM : Z.pos (digits2_pos M) = 54 + n).
    { apply digits2_pos_eq. split.
      - replace (54 + n - 1) with (53 + n) by lia. rewrite pow2_split by lia.
        change (2 ^ 53) with 9007199254740992. lia.
      - rewrite pow2_split by lia. change (2 ^ 54) with 18014398509481984. lia. }
    rewrite HdM. replace (54 + n + (-51 - n)) with 3 by lia.
    change (fexp64 3) with (-50). rewrite shl_align_le by lia.
    destruct (binary_round_aux_shape M (-51 - n)) as (mr & Hmr & _ & ->).
    rewrite HdM in Hmr |- *. replace (54 + n + (-51 - n)) with 3 in Hmr |- * by lia.
    change (fexp64 3) with (-50) in Hmr |- *.
    replace (Z.max 0 (-50 - (-51 - n))) with (1 + n) in Hmr |- * by lia.
    replace (-51 - n + (1 + n)) with (-50) by lia.
    rewrite (pow2_split 1 n) in Hmr by lia. change (2 ^ 1) with 2 in Hmr.
    assert (Hq : 4503599627370496 <= Z.pos M / (2 * 2 ^ n) < 7881299347898368).
    { split.
      - apply Z.div_le_lower_bound; lia.
      - apply Z.div_lt_upper_bound; lia. }
    assert (Hdmr : Zdigits2 mr = 53).
    { destruct mr as [|p|p]; try lia. simpl. apply digits2_pos_eq.
      change (2 ^ (53 - 1)) with 4503599627370496.
      change (2 ^ 53) with 9007199254740992. lia. }
    rewrite Hdmr. change (Z.max 0 (fexp64 (53 + -50) - -50)) with 0.
    change (2 ^ 0) with 1. rewrite Z.div_1_r.
    destruct mr as [|p|p]; try lia.
    change (-50 + 0) with (-50). change (-50 <=? 971) with true. cbv iota.
    unfold SF_three, SF_seven.
    split; [apply SFleb_lower_exponent; lia|].
    apply SFleb_same_exponent. clear - Hmr Hq. lia.
Qed.

(** Adding a positive number that is at most 4 to 8 gives a number between
    8 and 12. *)
Lemma eight_plus_at_most_four (my : positive) (ey : Z) :
  ey <= -50 -> Z.pos my <= 4 * 2 ^ (- ey) ->
  canonical_mantissa prec emax my ey = true ->
  let R := SFadd prec emax SF_eight (S754_finite false my ey) in
  SFleb SF_eight R = true /\ SFleb R SF_twelve = true.
Proof.
  intros Hey Hmy Hcan.
  destruct (Z.eq_dec (Z.pos my) (4 * 2 ^ (- ey))) as [Heq|Hneq].
  { rewrite (canonical_four my ey Hey Heq Hcan). vm_compute. auto. }
  assert (Hlt : Z.pos my < 4 * 2 ^ (- ey)) by lia. clear Hneq Hmy.
  cbv zeta. unfold SF_eight, SFadd.
  rewrite Z.min_r by lia. rewrite (shl_align_le my ey ey) by lia.
  destruct (ey - -49) as [|d|d] eqn:Ed; try lia.
  rewrite (shl_align_gt _ _ _ d Ed).
  cbn [fst cond_Zopp]. rewrite <- Pos2Z.inj_add. unfold binary_normalize.
  replace ey with (-49 - Z.pos d) in Hlt |- * by lia.
  apply round_eight_to_twelve; [lia|].
  rewrite Pos2Z.inj_add, shift_pos_mul.
  assert (Hpown : 0 < 2 ^ Z.pos d) by (apply Z.pow_pos_nonneg; lia).
  replace (- (-49 - Z.pos d)) with (49 + Z.pos d) in Hlt by lia.
  rewrite pow2_split in Hlt by lia.
  change (2 ^ 49) with 562949953421312 in Hlt. lia.
Qed.

(** Adding a positive number that is at most 4 to 3 gives a number between
    3 and 7. *)
Lemma three_plus_at_most_four (my : positive) (ey : Z) :
  ey <= -50 -> Z.pos my <= 4 * 2 ^ (- ey) ->
  canonical_mantissa prec emax my ey = true ->
  let R := SFadd prec emax SF_three (S754_finite false my ey) in
  SFleb SF_three R = true /\ SFleb R SF_seven = true.
Proof.
  intros Hey Hmy Hcan.
  destruct (Z.eq_dec (Z.pos my) (4 * 2 ^ (- ey))) as [Heq|Hneq].
  { rewrite (canonical_four my ey Hey Heq Hcan). vm_compute. auto. }
  assert (Hlt : Z.pos my < 4 * 2 ^ (- ey)) by lia. clear Hneq Hmy.
  pose proof (below_four_exponent my ey Hey Hlt Hcan) as Hey'.
  cbv zeta. unfold SF_three, SFadd.
  rewrite Z.min_r by lia. rewrite (shl_align_le my ey ey) by lia.
  destruct (ey - -51) as [|d|d] eqn:Ed; try lia.
  - assert (ey = -51) by lia. subst ey.
    rewrite shl_align_le by lia.
    cbn [fst cond_Zopp]. rewrite <- Pos2Z.inj_add. unfold binary_normalize.
    apply (round_three_to_seven (6755399441055744 + my) 0); [lia|].
    rewrite Pos2Z.inj_add. change (2 ^ 0) with 1.
    change (2 ^ (- -51)) with 2251799813685248 in Hlt. lia.
  - rewrite (shl_align_gt _ _ _ d Ed).
    cbn [fst cond_Zopp]. rewrite <- Pos2Z.inj_add. unfold binary_normalize.
    replace ey with (-51 - Z.pos d) in Hlt |- * by lia.
    apply round_three_to_seven; [lia|].
    rewrite Pos2Z.inj_add, shift_pos_mul.
    assert (Hpown : 0 < 2 ^ Z.pos d) by (apply Z.pow_pos_nonneg; lia).
    replace (- (-51 - Z.pos d)) with (51 + Z.pos d) in Hlt by lia.
    rewrite pow2_split in Hlt by lia.
    change (2 ^ 51) with 2251799813685248 in Hlt. lia.
Qed.

(** [r * 4] for a number [r] of the unit interval. *)
Lemma unit_times_four (r : float) :
  (0 <=? r)%float = true -> (r <? 1)%float = true ->
  (exists s, Prim2SF (r * 4) = S754_zero s) \/
  exists m e, Prim2SF (r * 4) = S754_finite false m e /\
              e <= -50 /\ Z.pos m <= 4 * 2 ^ (- e) /\
              canonical_mantissa prec emax m e = true.
Proof.
  intros H0 H1. rewrite leb_spec in H0. rewrite ltb_spec in H1.
  pose proof (Prim2SF_valid r) as Hv.
  pose proof (Prim2SF_valid (r * 4)) as Hvy.
  rewrite mul_spec in Hvy |- *.
  change (Prim2SF 0) with (S754_zero false) in H0.
  change (Prim2SF 1) with SF_one in H1.
  change (Prim2SF 4) with SF_four in Hvy |- *.
  destruct (Prim2SF r) as [s|s| |s m e].
  - left. exists s. destruct s; reflexivity.
  - destruct s; discriminate.
  - discriminate.
  - destruct (unit_interval_finite s m e Hv H0 H1) as (-> & He & Hm).
    unfold SF64mul, SFmul, SF_four in Hvy |- *. cbn [xorb] in Hvy |- *.
    assert (HP : Z.pos (m * 4503599627370496) < 4 * 2 ^ (- (e + -50))).
    { rewrite Pos2Z.inj_mul. replace (- (e + -50)) with (50 + - e) by lia.
      rewrite pow2_split by lia. change (2 ^ 50) with 1125899906842624.
      assert (0 < 2 ^ (- e)) by (apply Z.pow_pos_nonneg; lia). lia. }
    destruct (round_below_four (m * 4503599627370496) (e + -50))
      as [E|(my & ey & E & Hey & Hmy)];
      [lia|exact HP| |]; rewrite E in Hvy |- *.
    + left. now exists false.
    + right. exists my, ey. simpl in Hvy. apply andb_prop in Hvy as [Hcan _].
      auto.
Qed.

(** [3 + r * 4] and [8 + r * 4] for a number [r] of the unit interval. *)
Lemma three_plus_four_r (r : float) :
  (0 <=? r)%float = true -> (r <? 1)%float = true ->
  (3 <=? 3 + r * 4)%float = true /\ (3 + r * 4 <=? 7)%float = true.
Proof.
  intros H0 H1. rewrite !leb_spec, add_spec.
  change (Prim2SF 3) with SF_three. change (Prim2SF 7) with SF_seven.
  destruct (unit_times_four r H0 H1) as [[s ->]|(m & e & -> & He & Hm & Hcan)].
  - destruct s; vm_compute; auto.
  - exact (three_plus_at_most_four m e He Hm Hcan).
Qed.

Lemma eight_plus_four_r (r : float) :
  (0 <=? r)%float = true -> (r <? 1)%float = true ->
  (8 <=? 8 + r * 4)%float = true /\ (8 + r * 4 <=? 12)%float = true.
Proof.
  intros H0 H1. rewrite !leb_spec, add_spec.
  change (Prim2SF 8) with SF_eight. change (Prim2SF 12) with SF_twelve.
  destruct (unit_times_four r H0 H1) as [[s ->]|(m & e & -> & He & Hm & Hcan)].
  - destruct s; vm_compute; auto.
  - exact (eight_plus_at_most_four m e He Hm Hcan).
Qed.

(** ** The passes of the position synthesizer *)

Lemma same_sources_refl (w : World) : same_sources w w.
Proof. repeat split. Qed.

Lemma same_sources_trans (w1 w2 w3 : World) :
  same_sources w1 w2 -> same_sources w2 w3 -> same_sources w1 w3.
Proof. unfold same_sources. intros (-> & -> & ->) (-> & -> & ->). repeat split. Qed.

Lemma unit_draws_same_sources (w w' : World) :
  same_sources w w' -> unit_draws w -> unit_draws w'.
Proof. intros (_ & _ & Hr). now apply unit_draws_ext. Qed.

(** A pass that makes one position per activity, each with a random APY of
    a range: the positions are made in the order of the activities, each
    from one draw; the pass reads no clock and writes nothing. *)
Lemma apy_pass_spec (range : ApyRange)
    (make : WalletActivity -> number -> DeFiPosition) (l : list WalletActivity) :
  forall w, exists ps w',
    io_map (fun activity => a ← generateRandomApy range; mret (make activity a)) l w =
      (ps, w') /\
    Forall2
      (fun activity p =>
         exists n, p = make activity
                         (min range + random w n * (max range - min range))%float)
      l ps /\
    same_sources w w' /\ clock_reads w' = clock_reads w.
Proof.
  induction l as [|a l IH]; intros w.
  - exists [], w. repeat split. constructor.
  - destruct (IH (snd (Math_random w))) as (ps & w' & E & Hps & Hsame & Hreads).
    eexists _, w'. rewrite io_map_cons.
    unfold generateRandomApy at 1. rewrite !io_bind_eq.
    destruct (Math_random w) as [r w1] eqn:Er. rewrite !io_ret_eq.
    cbn [snd] in E. rewrite E.
    unfold Math_random in Er. injection Er as <- <-.
    split; [reflexivity|]. split; [|split].
    + constructor; [now exists (random_draws w)|exact Hps].
    + exact Hsame.
    + exact Hreads.
Qed.
Lemma processStakingPositions_made `{Services} (l : list WalletActivity) (w : World) :
  exists ps w',
    processStakingPositions l w = (ps, w') /\
    Forall2
      (fun activity p =>
         position_of_activity "Staking" (fun a => Some (token a)) activity p /\
         exists n, apy p = Some (5 + random w n * 3)%float)
      (getActivitiesByType l Staking) ps /\
    same_sources w w' /\ clock_reads w' = clock_reads w.
Proof.
  unfold processStakingPositions.
  destruct (apy_pass_spec APY_RANGES.STAKING
              (fun activity a =>
                 {| protocol := identifyProtocol (programId activity);
                    position_type := "Staking";
                    tokenA := Some (token activity);
                    position_value := value activity;
                    apy := Some a;
                    position_timestamp := timestamp activity |})
              (getActivitiesByType l Staking) w)
    as (ps & w' & E & Hps & Hsame & Hreads).
  exists ps, w'. split; [exact E|]. split; [|now split].
  eapply Forall2_impl; [exact Hps|].
  intros a p [n ->]. split; [repeat split|now exists n].
Qed.

Lemma processLendingPositions_made `{Services} (l : list WalletActivity) (w : World) :
  exists ps w',
    processLendingPositions l w = (ps, w') /\
    Forall2
      (fun activity p =>
         position_of_activity "Lending" (fun a => Some (token a)) activity p /\
         exists n, apy p = Some (3 + random w n * 4)%float)
      (getActivitiesByType l Lending) ps /\
    same_sources w w' /\ clock_reads w' = clock_reads w.
Proof.
  unfold processLendingPositions.
  destruct (apy_pass_spec APY_RANGES.LENDING
              (fun activity a =>
                 {| protocol := identifyProtocol (programId activity);
                    position_type := "Lending";
                    tokenA := Some (token activity);
                    position_value := value activity;
                    apy := Some a;
                    position_timestamp := timestamp activity |})
              (getActivitiesByType l Lending) w)
    as (ps & w' & E & Hps & Hsame & Hreads).
  exists ps, w'. split; [exact E|]. split; [|now split].
  eapply Forall2_impl; [exact Hps|].
  intros a p [n ->]. split; [repeat split|now exists n].
Qed.

Lemma processLiquidityPositions_made `{Services} (l : list WalletActivity) (w : World) :
  exists ps w',
    processLiquidityPositions l w = (ps, w') /\
    Forall2
      (fun activity p =>
         position_of_activity "Liquidity" (fun _ => None) activity p /\
         exists n, apy p = Some (8 + random w n * 4)%float)
      (liquidity_candidates l) ps /\
    same_sources w w' /\ clock_reads w' = clock_reads w.
Proof.
  unfold processLiquidityPositions, liquidity_candidates.
  destruct (apy_pass_spec APY_RANGES.LIQUIDITY
              (fun activity a =>
                 {| protocol := identifyProtocol (programId activity);
                    position_type := "Liquidity";
                    tokenA := None;
                    position_value := value activity;
                    apy := Some a;
                    position_timestamp := timestamp activity |})
              (List.filter
                 (fun activity =>
                    bool_decide (type activity = AccountCreation) &&
                    bool_decide (identifyProtocol (programId activity)
                                   ∈ ["RAYDIUM_SWAP"; "ORCA_SWAP"]))
                 l) w)
    as (ps & w' & E & Hps & Hsame & Hreads).
  exists ps, w'. split; [exact E|]. split; [|now split].
  eapply Forall2_impl; [exact Hps|].
  intros a p [n ->]. split; [repeat split|now exists n].
Qed.

(** The trading pass: at most one position, of type Trading and without
    APY; one reading of the clock when there is a candidate, none
    otherwise. *)
Lemma processTradingPositions_made `{Services} (l : list WalletActivity) (w : World) :
  exists ps w',
    processTradingPositions l w = (ps, w') /\
    Forall (fun p => position_type p = "Trading" /\ apy p = None) ps /\
    length ps =
      (if bool_decide (recent_trades (clock w (clock_reads w)) l = []) then 0 else 1)%nat /\
    same_sources w w' /\
    clock_reads w' =
      (if bool_decide (trading_candidates l = []) then clock_reads w
       else S (clock_reads w)).
Proof.
  unfold processTradingPositions, recent_trades.
  fold (trading_candidates l).
  destruct (trading_candidates l) as [|c candidates] eqn:Ec.
  { exists [], w. simpl. repeat split. constructor. }
  rewrite bool_decide_eq_false_2 by discriminate.
  rewrite (bool_decide_eq_false_2 (c :: candidates = [])) by discriminate.
  rewrite io_bind_eq. unfold Date_now. cbv beta iota zeta.
  set (now := clock w (clock_reads w)).
  destruct (List.filter _ (c :: candidates)) as [|a recent] eqn:Er.
  - eexists _, _. split; [reflexivity|]. repeat split. constructor.
  - eexists _, _. split; [reflexivity|]. repeat split. repeat constructor.
Qed.

(** A run that derives the positions: the four passes in their order, the
    statistics position when there is a successful swap, and the write to
    the entry of the wallet. *)
Lemma analyzeDeFiPositions_derived `{Services} (w : World) (publicKey : string) :
  cached_positions w publicKey = None ->
  cached_successes w publicKey <> [] ->
  exists entry staking w1 trading w2 lending w3 liquidity w4,
    walletCache w !! publicKey = Some entry /\
    processStakingPositions (cached_successes w publicKey) w = (staking, w1) /\
    processTradingPositions (cached_successes w publicKey) w1 = (trading, w2) /\
    processLendingPositions (cached_successes w publicKey) w2 = (lending, w3) /\
    processLiquidityPositions (cached_successes w publicKey) w3 = (liquidity, w4) /\
    fst (analyzeDeFiPositions publicKey w) =
      staking ++ trading ++ lending ++ liquidity ++
      (if bool_decide (0 < length (getActivitiesByType (cached_successes w publicKey) Swap))%nat
       then [ {| protocol := "Aggregate"; position_type := "Trading Statistics";
                 tokenA := Some "Multiple";
                 position_value :=
                   Some (calculateTotalValue
                           (getActivitiesByType (cached_successes w publicKey) Swap));
                 apy := None;
                 position_timestamp := clock w4 (clock_reads w4) |} ]
       else []) /\
    walletCache (snd (analyzeDeFiPositions publicKey w)) =
      <[publicKey := with_defiPositions entry (fst (analyzeDeFiPositions publicKey w))]>
        (walletCache w4) /\
    clock (snd (analyzeDeFiPositions publicKey w)) = clock w4 /\
    random (snd (analyzeDeFiPositions publicKey w)) = random w4.
Proof.
  unfold cached_positions, cached_successes. intros Hpos Hsucc.
  destruct (walletCache w !! publicKey) as [entry|] eqn:Hentry;
    [|now elim Hsucc].
  change (Some entry ≫= defiPositions) with (defiPositions entry) in Hpos.
  change (default [] (activities <$> Some entry)) with (activities entry)
    in Hsucc |- *.
  set (succ := List.filter (fun activity => success activity) (activities entry))
    in *.
  unfold analyzeDeFiPositions. rewrite io_bind_eq. unfold walletCache_get.
  rewrite Hentry. cbv beta iota zeta.
  change (Some entry ≫= defiPositions) with (defiPositions entry). rewrite Hpos.
  change (default [] (activities <$> Some entry)) with (activities entry).
  fold succ.
  rewrite bool_decide_eq_false_2
    by (intros E; apply Hsucc; now apply length_zero_iff_nil).
  rewrite io_bind_eq. destruct (processStakingPositions succ w) as [staking w1] eqn:EStaking.
  rewrite io_bind_eq. destruct (processTradingPositions succ w1) as [trading w2] eqn:ETrading.
  rewrite io_bind_eq. destruct (processLendingPositions succ w2) as [lending w3] eqn:ELending.
  rewrite io_bind_eq. destruct (processLiquidityPositions succ w3) as [liquidity w4] eqn:ELiquidity.
  exists entry, staking, w1, trading, w2, lending, w3, liquidity, w4.
  do 5 (split; [first [reflexivity|assumption]|]).
  rewrite io_bind_eq.
  destruct (bool_decide (0 < length (getActivitiesByType succ Swap))%nat).
  - rewrite io_bind_eq. unfold createAggregatePosition. rewrite io_bind_eq.
    unfold Date_now. rewrite !io_ret_eq.
    rewrite io_bind_eq. unfold walletCache_set. rewrite io_ret_eq.
    cbn [fst snd walletCache clock random].
    rewrite <- !app_assoc. repeat split.
  - rewrite io_ret_eq, io_bind_eq. unfold walletCache_set. rewrite io_ret_eq.
    cbn [fst snd walletCache clock random].
    rewrite !app_nil_r. repeat split.
Qed.
Lemma analyzeDeFiPositions_hit `{Services} (w : World) (publicKey : string)
    (positions : list DeFiPosition) :
  cached_positions w publicKey = Some positions ->
  analyzeDeFiPositions publicKey w = (positions, w).
Proof.
  unfold cached_positions, analyzeDeFiPositions. intros Hpos.
  rewrite io_bind_eq. unfold walletCache_get. cbv beta iota zeta.
  now rewrite Hpos.
Qed.

Lemma analyzeDeFiPositions_nothing `{Services} (w : World) (publicKey : string) :
  cached_positions w publicKey = None ->
  cached_successes w publicKey = [] ->
  analyzeDeFiPositions publicKey w = ([], w).
Proof.
  unfold cached_positions, cached_successes, analyzeDeFiPositions.
  intros Hpos Hsucc. rewrite io_bind_eq. unfold walletCache_get.
  cbv beta iota zeta. now rewrite Hpos, Hsucc.
Qed.

Lemma Forall2_made {A B} (R : A -> B -> Prop) (Q : B -> Prop)
    (l : list A) (k : list B) :
  (forall a b, R a b -> Q b) -> Forall2 R l k -> Forall Q k.
Proof. intros HRQ. induction 1; constructor; eauto. Qed.

(** What a deriving run returns and writes, in terms of the world it
    starts from. *)
Lemma analyzeDeFiPositions_run `{Services} (w : World) (publicKey : string) :
  cached_positions w publicKey = None ->
  cached_successes w publicKey <> [] ->
  exists entry staking trading lending liquidity,
    walletCache w !! publicKey = Some entry /\
    Forall2
      (fun activity p =>
         position_of_activity "Staking" (fun a => Some (token a)) activity p /\
         exists n, apy p = Some (5 + random w n * 3)%float)
      (getActivitiesByType (cached_successes w publicKey) Staking) staking /\
    Forall (fun p => position_type p = "Trading" /\ apy p = None) trading /\
    length trading =
      (if bool_decide
            (recent_trades (clock w (clock_reads w)) (cached_successes w publicKey) = [])
       then 0 else 1)%nat /\
    Forall2
      (fun activity p =>
         position_of_activity "Lending" (fun a => Some (token a)) activity p /\
         exists n, apy p = Some (3 + random w n * 4)%float)
      (getActivitiesByType (cached_successes w publicKey) Lending) lending /\
    Forall2
      (fun activity p =>
         position_of_activity "Liquidity" (fun _ => None) activity p /\
         exists n, apy p = Some (8 + random w n * 4)%float)
      (liquidity_candidates (cached_successes w publicKey)) liquidity /\
    fst (analyzeDeFiPositions publicKey w) =
      staking ++ trading ++ lending ++ liquidity ++
      (if bool_decide (0 < length (getActivitiesByType (cached_successes w publicKey) Swap))%nat
       then [ {| protocol := "Aggregate"; position_type := "Trading Statistics";
                 tokenA := Some "Multiple";
                 position_value :=
                   Some (calculateTotalValue
                           (getActivitiesByType (cached_successes w publicKey) Swap));
                 apy := None;
                 position_timestamp :=
                   clock w (if bool_decide
                                 (trading_candidates (cached_successes w publicKey) = [])
                            then clock_reads w else S (clock_reads w)) |} ]
       else []) /\
    walletCache (snd (analyzeDeFiPositions publicKey w)) =
      <[publicKey := with_defiPositions entry (fst (analyzeDeFiPositions publicKey w))]>
        (walletCache w) /\
    clock (snd (analyzeDeFiPositions publicKey w)) = clock w /\
    random (snd (analyzeDeFiPositions publicKey w)) = random w.
Proof.
  intros Hpos Hsucc.
  destruct (analyzeDeFiPositions_derived w publicKey Hpos Hsucc)
    as (entry & staking & w1 & trading & w2 & lending & w3 & liquidity & w4 &
        Hentry & E1 & E2 & E3 & E4 & Efst & Ecache & Eclock & Erandom).
  set (succ := cached_successes w publicKey) in *.
  destruct (processStakingPositions_made succ w)
    as (? & ? & E1' & Hst & (Hc1 & Hk1 & Hr1) & Hn1).
  rewrite E1 in E1'. injection E1' as <- <-.
  destruct (processTradingPositions_made succ w1)
    as (? & ? & E2' & Htr & Hlen & (Hc2 & Hk2 & Hr2) & Hn2).
  rewrite E2 in E2'. injection E2' as <- <-.
  destruct (processLendingPositions_made succ w2)
    as (? & ? & E3' & Hle & (Hc3 & Hk3 & Hr3) & Hn3).
  rewrite E3 in E3'. injection E3' as <- <-.
  destruct (processLiquidityPositions_made succ w3)
    as (? & ? & E4' & Hli & (Hc4 & Hk4 & Hr4) & Hn4).
  rewrite E4 in E4'. injection E4' as <- <-.
  exists entry, staking, trading, lending, liquidity.
  split; [exact Hentry|]. split; [exact Hst|]. split; [exact Htr|].
  split; [rewrite Hlen, Hk1, Hn1; reflexivity|].
  split; [rewrite <- Hr1, <- Hr2; exact Hle|].
  split; [rewrite <- Hr1, <- Hr2, <- Hr3; exact Hli|].
  split; [rewrite Efst, Hk4, Hk3, Hk2, Hk1, Hn4, Hn3, Hn2, Hn1; reflexivity|].
  split; [rewrite Ecache; congruence|]. split; congruence.
Qed.
(** ** The cache of the position synthesizer *)

(** The random draws and the clock readings of the passes. *)
Lemma apy_pass_counters (range : ApyRange)
    (make : WalletActivity -> number -> DeFiPosition) (l : list WalletActivity) :
  forall w,
    random_draws
      (snd (io_map (fun activity => a ← generateRandomApy range; mret (make activity a))
              l w)) = (random_draws w + length l)%nat /\
    clock_reads
      (snd (io_map (fun activity => a ← generateRandomApy range; mret (make activity a))
              l w)) = clock_reads w.
Proof.
  induction l as [|a l IH]; intros w.
  - simpl. split; [lia|reflexivity].
  - rewrite io_map_cons.
    set (w1 := {| walletCache := walletCache w; clock := clock w;
                  clock_reads := clock_reads w;
                  random := random w; random_draws := S (random_draws w) |}).
    change ((a0 ← generateRandomApy range; mret (make a a0)) w)
      with (make a (min range + random w (random_draws w) * (max range - min range))%float,
            w1).
    cbv beta iota.
    destruct (IH w1) as [Hd Hc].
    destruct (io_map _ l w1) as [ps w2].
    cbn [snd] in *. rewrite Hd, Hc. subst w1. simpl. split; [lia|reflexivity].
Qed.

Lemma processTradingPositions_counters `{Services} (l : list WalletActivity) (w : World) :
  random_draws (snd (processTradingPositions l w)) = random_draws w /\
  clock_reads (snd (processTradingPositions l w)) =
    (clock_reads w + if bool_decide (trading_candidates l = []) then 0 else 1)%nat.
Proof.
  unfold processTradingPositions. fold (trading_candidates l).
  destruct (trading_candidates l) as [|c candidates] eqn:Ec.
  { simpl. split; [reflexivity|lia]. }
  rewrite bool_decide_eq_false_2 by discriminate.
  rewrite (bool_decide_eq_false_2 (c :: candidates = [])) by discriminate.
  rewrite io_bind_eq. unfold Date_now. cbv beta iota zeta.
  destruct (List.map timestamp _); simpl; split; (reflexivity || lia).
Qed.

Lemma analyzeDeFiPositions_counters `{Services} (w : World) (publicKey : string) :
  cached_positions w publicKey = None ->
  cached_successes w publicKey <> [] ->
  random_draws (snd (analyzeDeFiPositions publicKey w)) =
    (random_draws w +
     length (getActivitiesByType (cached_successes w publicKey) Staking) +
     length (getActivitiesByType (cached_successes w publicKey) Lending) +
     length (liquidity_candidates (cached_successes w publicKey)))%nat /\
  clock_reads (snd (analyzeDeFiPositions publicKey w)) =
    (clock_reads w +
     (if bool_decide (trading_candidates (cached_successes w publicKey) = [])
      then 0 else 1) +
     (if bool_decide (getActivitiesByType (cached_successes w publicKey) Swap = [])
      then 0 else 1))%nat.
Proof.
  unfold cached_positions, cached_successes. intros Hpos Hsucc.
  destruct (walletCache w !! publicKey) as [entry|] eqn:Hentry;
    [|now elim Hsucc].
  change (Some entry ≫= defiPositions) with (defiPositions entry) in Hpos.
  change (default [] (activities <$> Some entry)) with (activities entry)
    in Hsucc |- *.
  set (succ := List.filter (fun activity => success activity) (activities entry))
    in *.
  unfold analyzeDeFiPositions. rewrite io_bind_eq. unfold walletCache_get.
  rewrite Hentry. cbv beta iota zeta.
  change (Some entry ≫= defiPositions) with (defiPositions entry). rewrite Hpos.
  change (default [] (activities <$> Some entry)) with (activities entry).
  fold succ.
  rewrite bool_decide_eq_false_2
    by (intros E; apply Hsucc; now apply length_zero_iff_nil).
  pose proof (apy_pass_counters APY_RANGES.STAKING
                (fun activity a =>
                   {| protocol := identifyProtocol (programId activity);
                      position_type := "Staking";
                      tokenA := Some (token activity);
                      position_value := value activity;
                      apy := Some a;
                      position_timestamp := timestamp activity |})
                (getActivitiesByType succ Staking) w) as [Hd1 Hc1].
  fold (processStakingPositions succ) in Hd1, Hc1.
  rewrite io_bind_eq. destruct (processStakingPositions succ w) as [staking w1].
  destruct (processTradingPositions_counters succ w1) as [Hd2 Hc2].
  rewrite io_bind_eq. destruct (processTradingPositions succ w1) as [trading w2].
  pose proof (apy_pass_counters APY_RANGES.LENDING
                (fun activity a =>
                   {| protocol := identifyProtocol (programId activity);
                      position_type := "Lending";
                      tokenA := Some (token activity);
                      position_value := value activity;
                      apy := Some a;
                      position_timestamp := timestamp activity |})
                (getActivitiesByType succ Lending) w2) as [Hd3 Hc3].
  fold (processLendingPositions succ) in Hd3, Hc3.
  rewrite io_bind_eq. destruct (processLendingPositions succ w2) as [lending w3].
  pose proof (apy_pass_counters APY_RANGES.LIQUIDITY
                (fun activity a =>
                   {| protocol := identifyProtocol (programId activity);
                      position_type := "Liquidity";
                      tokenA := None;
                      position_value := value activity;
                      apy := Some a;
                      position_timestamp := timestamp activity |})
                (liquidity_candidates succ) w3) as [Hd4 Hc4].
  unfold liquidity_candidates in Hd4, Hc4.
  fold (processLiquidityPositions succ) in Hd4, Hc4.
  fold (liquidity_candidates succ) in Hd4.
  rewrite io_bind_eq. destruct (processLiquidityPositions succ w3) as [liquidity w4].
  cbn [snd] in *.
  rewrite io_bind_eq.
  destruct (getActivitiesByType succ Swap) as [|swap swaps] eqn:Eswaps.
  - rewrite bool_decide_eq_false_2 by (simpl; lia).
    rewrite (bool_decide_eq_true_2 (@nil WalletActivity = [])) by reflexivity.
    rewrite io_ret_eq, io_bind_eq. unfold walletCache_set. rewrite io_ret_eq.
    cbn [snd random_draws clock_reads]. split; lia.
  - rewrite bool_decide_eq_true_2 by (simpl; lia).
    rewrite (bool_decide_eq_false_2 (swap :: swaps = [])) by discriminate.
    rewrite io_bind_eq. unfold createAggregatePosition. rewrite io_bind_eq.
    unfold Date_now. rewrite !io_ret_eq.
    rewrite io_bind_eq. unfold walletCache_set. rewrite io_ret_eq.
    cbn [snd random_draws clock_reads]. split; lia.
Qed.

(** X12: a run that derives positions writes them to the entry of the
    wallet: the entry keeps its activities and its profile and now holds
    the returned list, and the entries of the other wallets are as before.
    The run uses up one draw of the generator for each Staking, Lending and
    Liquidity position, one reading of the clock when the trading pass has
    a candidate, and one more when there is a successful swap. *)
Theorem derived_positions_are_cached `{Services} (w : World) (publicKey : string) :
  cached_positions w publicKey = None ->
  cached_successes w publicKey <> [] ->
  exists entry,
    walletCache w !! publicKey = Some entry /\
    walletCache (snd (analyzeDeFiPositions publicKey w)) !! publicKey =
      Some {| activities := activities entry;
              defiPositions := Some (fst (analyzeDeFiPositions publicKey w));
              profile := profile entry |} /\
    (forall other, other <> publicKey ->
       walletCache (snd (analyzeDeFiPositions publicKey w)) !! other =
       walletCache w !! other) /\
    random_draws (snd (analyzeDeFiPositions publicKey w)) =
      (random_draws w +
       length (getActivitiesByType (cached_successes w publicKey) Staking) +
       length (getActivitiesByType (cached_successes w publicKey) Lending) +
       length (liquidity_candidates (cached_successes w publicKey)))%nat /\
    clock_reads (snd (analyzeDeFiPositions publicKey w)) =
      (clock_reads w +
       (if bool_decide (trading_candidates (cached_successes w publicKey) = [])
        then 0 else 1) +
       (if bool_decide (getActivitiesByType (cached_successes w publicKey) Swap = [])
        then 0 else 1))%nat.
Proof.
  intros Hpos Hsucc.
  destruct (analyzeDeFiPositions_run w publicKey Hpos Hsucc)
    as (entry & _ & _ & _ & _ & Hentry & _ & _ & _ & _ & _ & _ & Ecache & _).
  exists entry. split; [exact Hentry|]. rewrite Ecache.
  split; [apply lookup_insert_eq|].
  split; [|now apply analyzeDeFiPositions_counters].
  intros other Hne. now apply lookup_insert_ne.
Qed.

Lemma derived_positions_are_cached_witness :
  exists entry,
    walletCache staking_world !! "wallet" = Some entry /\
    walletCache (snd (@analyzeDeFiPositions table_services "wallet" staking_world))
      !! "wallet" =
      Some {| activities := activities entry;
              defiPositions :=
                Some (fst (@analyzeDeFiPositions table_services "wallet" staking_world));
              profile := profile entry |} /\
    (forall other, other <> "wallet" ->
       walletCache (snd (@analyzeDeFiPositions table_services "wallet" staking_world))
         !! other =
       walletCache staking_world !! other) /\
    random_draws (snd (@analyzeDeFiPositions table_services "wallet" staking_world)) =
      (random_draws staking_world +
       length (getActivitiesByType (cached_successes staking_world "wallet") Staking) +
       length (getActivitiesByType (cached_successes staking_world "wallet") Lending) +
       length (@liquidity_candidates table_services
                 (cached_successes staking_world "wallet")))%nat /\
    clock_reads (snd (@analyzeDeFiPositions table_services "wallet" staking_world)) =
      (clock_reads staking_world +
       (if bool_decide (@trading_candidates table_services
                          (cached_successes staking_world "wallet") = [])
        then 0 else 1) +
       (if bool_decide
             (getActivitiesByType (cached_successes staking_world "wallet") Swap = [])
        then 0 else 1))%nat.
Proof.
  apply (@derived_positions_are_cached table_services staking_world "wallet").
  - reflexivity.
  - discriminate.
Defined.

(** X13: a second call for the same wallet returns the list of the first
    call and changes nothing further: whatever the first call did, after it
    the answer comes from the cache or is empty again, without a draw and
    without a reading of the clock. *)
Theorem second_call_repeats_first `{Services} (w : World) (publicKey : string) :
  analyzeDeFiPositions publicKey (snd (analyzeDeFiPositions publicKey w)) =
  (fst (analyzeDeFiPositions publicKey w), snd (analyzeDeFiPositions publicKey w)).
Proof.
  destruct (cached_positions w publicKey) as [positions|] eqn:Hpos.
  - rewrite (analyzeDeFiPositions_hit w publicKey positions Hpos). simpl.
    now apply analyzeDeFiPositions_hit.
  - destruct (decide (cached_successes w publicKey = [])) as [Hnone|Hsome].
    + rewrite (analyzeDeFiPositions_nothing w publicKey Hpos Hnone). simpl.
      now apply analyzeDeFiPositions_nothing.
    + destruct (analyzeDeFiPositions_run w publicKey Hpos Hsome)
        as (entry & _ & _ & _ & _ & _ & _ & _ & _ & _ & _ & _ & Ecache & _).
      apply analyzeDeFiPositions_hit. unfold cached_positions.
      rewrite Ecache, lookup_insert_eq. reflexivity.
Qed.

(** ** The positions of a derived list *)

Lemma positions_of_type_app (t : string) (l1 l2 : list DeFiPosition) :
  positions_of_type t (l1 ++ l2) = positions_of_type t l1 ++ positions_of_type t l2.
Proof. unfold positions_of_type. apply List.filter_app. Qed.

Lemma positions_of_type_same (t : string) (ps : list DeFiPosition) :
  Forall (fun p => position_type p = t) ps -> positions_of_type t ps = ps.
Proof.
  induction 1 as [|p ps Hp _ IH]; [reflexivity|].
  unfold positions_of_type in *. simpl. now rewrite Hp, String.eqb_refl, IH.
Qed.

Lemma positions_of_type_other (t t' : string) (ps : list DeFiPosition) :
  Forall (fun p => position_type p = t') ps -> t' <> t ->
  positions_of_type t ps = [].
Proof.
  intros Hps Hne. induction Hps as [|p ps Hp _ IH]; [reflexivity|].
  unfold positions_of_type in *. simpl. rewrite Hp.
  now rewrite (proj2 (String.eqb_neq t' t) Hne).
Qed.

Lemma swaps_are_trading_candidates `{Services} (l : list WalletActivity) :
  getActivitiesByType l Swap <> [] -> trading_candidates l <> [].
Proof.
  unfold getActivitiesByType, trading_candidates.
  induction l as [|a l IH]; simpl; [tauto|].
  destruct (bool_decide (type a = Swap)); simpl; [discriminate|].
  destruct (String.eqb _ _); [discriminate|exact IH].
Qed.

(** X14: in a derived list, there is one Staking position for each
    successful Staking activity, one Lending position for each successful
    Lending activity, one Liquidity position for each successful account
    creation on Raydium or Orca, one Trading position exactly when a
    candidate of the trading pass is dated after the instant 24 hours
    before the first reading of the clock (a date after the reading
    included), and one Trading Statistics position exactly when there is a
    successful swap. *)
Theorem positions_counted_by_type `{Services} (w : World) (publicKey : string) :
  cached_positions w publicKey = None ->
  length (positions_of_type "Staking" (fst (analyzeDeFiPositions publicKey w))) =
    length (getActivitiesByType (cached_successes w publicKey) Staking) /\
  length (positions_of_type "Lending" (fst (analyzeDeFiPositions publicKey w))) =
    length (getActivitiesByType (cached_successes w publicKey) Lending) /\
  length (positions_of_type "Liquidity" (fst (analyzeDeFiPositions publicKey w))) =
    length (liquidity_candidates (cached_successes w publicKey)) /\
  length (positions_of_type "Trading" (fst (analyzeDeFiPositions publicKey w))) =
    (if bool_decide
          (trades_after (clock w (clock_reads w) - 86400000)
             (cached_successes w publicKey) = [])
     then 0 else 1)%nat /\
  length (positions_of_type "Trading Statistics"
            (fst (analyzeDeFiPositions publicKey w))) =
    (if bool_decide (getActivitiesByType (cached_successes w publicKey) Swap = [])
     then 0 else 1)%nat.
Proof.
  intros Hpos. rewrite <- recent_trades_after.
  destruct (decide (cached_successes w publicKey = [])) as [Hnone|Hsome].
  { rewrite (analyzeDeFiPositions_nothing w publicKey Hpos Hnone), Hnone.
    repeat split. }
  destruct (analyzeDeFiPositions_run w publicKey Hpos Hsome)
    as (entry & staking & trading & lending & liquidity &
        _ & Hst & Htr & Hlen & Hle & Hli & -> & _).
  pose proof (Forall2_length _ _ _ Hst) as Lst.
  pose proof (Forall2_length _ _ _ Hle) as Lle.
  pose proof (Forall2_length _ _ _ Hli) as Lli.
  assert (Tst : Forall (fun p => position_type p = "Staking") staking).
  { eapply Forall2_made; [|exact Hst]. intros a p [(_ & Ht & _) _]. exact Ht. }
  assert (Tle : Forall (fun p => position_type p = "Lending") lending).
  { eapply Forall2_made; [|exact Hle]. intros a p [(_ & Ht & _) _]. exact Ht. }
  assert (Tli : Forall (fun p => position_type p = "Liquidity") liquidity).
  { eapply Forall2_made; [|exact Hli]. intros a p [(_ & Ht & _) _]. exact Ht. }
  assert (Ttr : Forall (fun p => position_type p = "Trading") trading).
  { eapply Forall_impl; [exact Htr|]. now intros p [Ht _]. }
  set (swaps := getActivitiesByType (cached_successes w publicKey) Swap).
  set (aggregate := if bool_decide (0 < length swaps)%nat then _ else _).
  assert (Tag : Forall (fun p => position_type p = "Trading Statistics") aggregate).
  { unfold aggregate. destruct (bool_decide (0 < length swaps)%nat); [|constructor].
    repeat constructor. }
  assert (Lag : length aggregate = (if bool_decide (swaps = []) then 0 else 1)%nat).
  { unfold aggregate. clearbody swaps. now destruct swaps. }
  clearbody aggregate. rewrite <- Lag, <- Hlen, Lst, Lle, Lli.
  rewrite !positions_of_type_app.
  repeat split;
    rewrite ?(positions_of_type_same _ _ Tst), ?(positions_of_type_same _ _ Ttr),
      ?(positions_of_type_same _ _ Tle), ?(positions_of_type_same _ _ Tli),
      ?(positions_of_type_same _ _ Tag);
    rewrite ?(positions_of_type_other _ _ _ Tst), ?(positions_of_type_other _ _ _ Ttr),
      ?(positions_of_type_other _ _ _ Tle), ?(positions_of_type_other _ _ _ Tli),
      ?(positions_of_type_other _ _ _ Tag) by discriminate;
    now rewrite ?app_nil_r.
Qed.

Lemma positions_counted_by_type_witness :
  length (positions_of_type "Trading"
            (fst (@analyzeDeFiPositions table_services "wallet" future_world))) = 1%nat /\
  length (positions_of_type "Trading Statistics"
            (fst (@analyzeDeFiPositions table_services "wallet" future_world))) = 1%nat.
Proof.
  apply (@positions_counted_by_type table_services future_world "wallet").
  reflexivity.
Defined.

(** X15: when the wallet has a successful swap, a derived list ends with
    the one Trading Statistics position: of the protocol Aggregate, with the
    token ["Multiple"], without APY, valued at the sum of the values of all
    successful swaps, whatever their age (a missing, zero or NaN value
    counts 0), and stamped with the second reading of the clock (the
    trading pass made the first). *)
Theorem statistics_position_is_last `{Services} (w : World) (publicKey : string) :
  cached_positions w publicKey = None ->
  getActivitiesByType (cached_successes w publicKey) Swap <> [] ->
  last (fst (analyzeDeFiPositions publicKey w)) =
    Some {| protocol := "Aggregate"; position_type := "Trading Statistics";
            tokenA := Some "Multiple";
            position_value :=
              Some (sum_of
                      (List.map counted_value
                         (getActivitiesByType (cached_successes w publicKey) Swap)));
            apy := None;
            position_timestamp := clock w (S (clock_reads w)) |}.
Proof.
  intros Hpos Hswaps. rewrite <- calculateTotalValue_sum.
  assert (Hsome : cached_successes w publicKey <> []).
  { intros E. rewrite E in Hswaps. now apply Hswaps. }
  destruct (analyzeDeFiPositions_run w publicKey Hpos Hsome)
    as (entry & staking & trading & lending & liquidity &
        _ & _ & _ & _ & _ & _ & -> & _).
  rewrite (bool_decide_eq_false_2 (trading_candidates _ = []))
    by now apply swaps_are_trading_candidates.
  rewrite bool_decide_eq_true_2
    by (destruct (getActivitiesByType _ Swap); [congruence|simpl; lia]).
  rewrite !app_assoc. apply last_snoc.
Qed.

Lemma statistics_position_is_last_witness :
  last (fst (@analyzeDeFiPositions table_services "wallet" swap_world)) =
    Some {| protocol := "Aggregate"; position_type := "Trading Statistics";
            tokenA := Some "Multiple";
            position_value := Some 4%float;
            apy := None;
            position_timestamp := 1700000100000 |}.
Proof.
  apply (@statistics_position_is_last table_services swap_world "wallet").
  - reflexivity.
  - discriminate.
Defined.

(** ** The APY of the positions *)

Lemma drawn_apy_in_range (w : World) (n : nat) :
  unit_draws w ->
  ((5 <=? 5 + random w n * 3)%float = true /\
   (5 + random w n * 3 <=? 8)%float = true) /\
  ((3 <=? 3 + random w n * 4)%float = true /\
   (3 + random w n * 4 <=? 7)%float = true) /\
  ((8 <=? 8 + random w n * 4)%float = true /\
   (8 + random w n * 4 <=? 12)%float = true).
Proof.
  intros Hw. destruct (Hw n) as [H0 H1].
  split; [|split].
  - now apply five_plus_three_r.
  - now apply three_plus_four_r.
  - now apply eight_plus_four_r.
Qed.

(** X16: when [Math.random()] draws from the unit interval, every position
    of the lending pass has an [apy] between 3 and 7, and every position of
    the liquidity pass one between 8 and 12, the ends included: the
    rounding of [min + r * (max - min)] never leaves the range. *)
Theorem lending_liquidity_apy_in_range `{Services}
    (l : list WalletActivity) (w : World) :
  unit_draws w ->
  (forall p, p ∈ fst (processLendingPositions l w) -> apy_within 3 7 p) /\
  (forall p, p ∈ fst (processLiquidityPositions l w) -> apy_within 8 12 p).
Proof.
  intros Hw. split; intros p Hp.
  - destruct (processLendingPositions_made l w) as (ps & w' & E & Hps & _).
    rewrite E in Hp. simpl in Hp.
    assert (Hall : Forall (apy_within 3 7) ps).
    { eapply Forall2_made; [|exact Hps]. intros a q [_ [n Hq]].
      exists (3 + random w n * 4)%float. split; [exact Hq|].
      apply (drawn_apy_in_range w n Hw). }
    rewrite Forall_forall in Hall. now apply Hall.
  - destruct (processLiquidityPositions_made l w) as (ps & w' & E & Hps & _).
    rewrite E in Hp. simpl in Hp.
    assert (Hall : Forall (apy_within 8 12) ps).
    { eapply Forall2_made; [|exact Hps]. intros a q [_ [n Hq]].
      exists (8 + random w n * 4)%float. split; [exact Hq|].
      apply (drawn_apy_in_range w n Hw). }
    rewrite Forall_forall in Hall. now apply Hall.
Qed.

Lemma lending_liquidity_apy_in_range_witness :
  Forall (apy_within 3 7)
    (fst (@processLendingPositions table_services [solend_activity] (world_of ∅))).
Proof.
  apply Forall_forall.
  apply (@lending_liquidity_apy_in_range table_services [solend_activity] (world_of ∅)).
  intros n. split; reflexivity.
Defined.

(** X17: when [Math.random()] draws from the unit interval, every position
    of a derived list is of one of five types, and its [apy] goes with the
    type: between 5 and 8 for Staking, between 3 and 7 for Lending, between
    8 and 12 for Liquidity, and none for Trading and Trading Statistics. *)
Theorem derived_apy_by_type `{Services} (w : World) (publicKey : string)
    (p : DeFiPosition) :
  cached_positions w publicKey = None ->
  unit_draws w ->
  p ∈ fst (analyzeDeFiPositions publicKey w) ->
  (position_type p = "Staking" /\ apy_within 5 8 p) \/
  (position_type p = "Lending" /\ apy_within 3 7 p) \/
  (position_type p = "Liquidity" /\ apy_within 8 12 p) \/
  ((position_type p = "Trading" \/ position_type p = "Trading Statistics") /\
   apy p = None).
Proof.
  intros Hpos Hw Hp.
  destruct (decide (cached_successes w publicKey = [])) as [Hnone|Hsome].
  { rewrite (analyzeDeFiPositions_nothing w publicKey Hpos Hnone) in Hp.
    now apply elem_of_nil in Hp. }
  destruct (analyzeDeFiPositions_run w publicKey Hpos Hsome)
    as (entry & staking & trading & lending & liquidity &
        _ & Hst & Htr & _ & Hle & Hli & E & _).
  rewrite E in Hp. clear E.
  assert (Ast : Forall (fun q => position_type q = "Staking" /\ apy_within 5 8 q) staking).
  { eapply Forall2_made; [|exact Hst]. intros a q [(_ & Ht & _) [n Hq]].
    split; [exact Ht|]. exists (5 + random w n * 3)%float.
    split; [exact Hq|]. apply (drawn_apy_in_range w n Hw). }
  assert (Ale : Forall (fun q => position_type q = "Lending" /\ apy_within 3 7 q) lending).
  { eapply Forall2_made; [|exact Hle]. intros a q [(_ & Ht & _) [n Hq]].
    split; [exact Ht|]. exists (3 + random w n * 4)%float.
    split; [exact Hq|]. apply (drawn_apy_in_range w n Hw). }
  assert (Ali : Forall (fun q => position_type q = "Liquidity" /\ apy_within 8 12 q)
                  liquidity).
  { eapply Forall2_made; [|exact Hli]. intros a q [(_ & Ht & _) [n Hq]].
    split; [exact Ht|]. exists (8 + random w n * 4)%float.
    split; [exact Hq|]. apply (drawn_apy_in_range w n Hw). }
  rewrite Forall_forall in Ast, Ale, Ali, Htr.
  rewrite !elem_of_app in Hp.
  destruct Hp as [Hp|[Hp|[Hp|[Hp|Hp]]]].
  - left. now apply Ast.
  - right; right; right. destruct (Htr p Hp) as [Ht Ha]. auto.
  - right; left. now apply Ale.
  - right; right; left. now apply Ali.
  - right; right; right.
    destruct (bool_decide (0 < length _)%nat); [|now apply elem_of_nil in Hp].
    apply list_elem_of_singleton in Hp. subst p. auto.
Qed.

Lemma derived_apy_by_type_witness :
  Forall
    (fun p =>
       (position_type p = "Staking" /\ apy_within 5 8 p) \/
       (position_type p = "Lending" /\ apy_within 3 7 p) \/
       (position_type p = "Liquidity" /\ apy_within 8 12 p) \/
       ((position_type p = "Trading" \/ position_type p = "Trading Statistics") /\
        apy p = None))
    (fst (@analyzeDeFiPositions table_services "wallet" staking_world)).
Proof.
  apply Forall_forall. intros p.
  apply (@derived_apy_by_type table_services staking_world "wallet" p).
  - reflexivity.
  - intros n. split; reflexivity.
Defined.

(** X18: the staking, the lending and the liquidity pass make one position
    for each activity they select, in the order of the activities; the
    position carries the protocol [identifyProtocol] gives for the program
    of the activity, the value and the timestamp of the activity, and its
    token, except for a Liquidity position, which has none. *)
Theorem positions_mirror_activities `{Services} (l : list WalletActivity) (w : World) :
  Forall2 (position_of_activity "Staking" (fun a => Some (token a)))
    (getActivitiesByType l Staking) (fst (processStakingPositions l w)) /\
  Forall2 (position_of_activity "Lending" (fun a => Some (token a)))
    (getActivitiesByType l Lending) (fst (processLendingPositions l w)) /\
  Forall2 (position_of_activity "Liquidity" (fun _ => None))
    (liquidity_candidates l) (fst (processLiquidityPositions l w)).
Proof.
  split; [|split].
  - destruct (processStakingPositions_made l w) as (ps & w' & -> & Hps & _).
    eapply Forall2_impl; [exact Hps|]. now intros a p [Hp _].
  - destruct (processLendingPositions_made l w) as (ps & w' & -> & Hps & _).
    eapply Forall2_impl; [exact Hps|]. now intros a p [Hp _].
  - destruct (processLiquidityPositions_made l w) as (ps & w' & -> & Hps & _).
    eapply Forall2_impl; [exact Hps|]. now intros a p [Hp _].
Qed.

(** ** The total of the values

    [calculateTotalValue] adds [activity.value || 0]: a value that is
    absent, zero or NaN counts as 0.  So NaN never enters the sum, and the
    sum of numbers that are not infinite is never NaN (it may overflow to
    an infinity, and then stays there). *)

Lemma binary_round_aux_sign (sx : bool) (m e : Z) (l : location) :
  binary_round_aux prec emax sx m e l = S754_nan <->
  binary_round_aux prec emax false m e l = S754_nan.
Proof.
  unfold binary_round_aux.
  destruct (shr_fexp prec emax m e l) as [mrs' e'].
  destruct (shr_fexp prec emax _ e' loc_Exact) as [mrs'' e''].
  destruct (shr_m mrs''); [split; discriminate| |tauto].
  destruct (e'' <=? emax - prec); split; discriminate.
Qed.

Lemma binary_round_aux_not_nan (sx : bool) (mx : positive) (ex : Z) :
  binary_round_aux prec emax sx (Z.pos mx) ex loc_Exact <> S754_nan.
Proof.
  rewrite binary_round_aux_sign.
  destruct (binary_round_aux_shape mx ex) as (mr & Hmr & _ & ->).
  set (n1 := Z.max 0 (fexp64 (Z.pos (digits2_pos mx) + ex) - ex)) in *.
  set (n2 := Z.max 0 _).
  assert (Hq : 0 <= Z.pos mx / 2 ^ n1).
  { apply Z.div_pos; [lia|]. apply Z.pow_pos_nonneg; lia. }
  assert (Hm : 0 <= mr / 2 ^ n2).
  { apply Z.div_pos; [lia|]. apply Z.pow_pos_nonneg; lia. }
  destruct (mr / 2 ^ n2); [discriminate| |lia].
  destruct (_ <=? _); discriminate.
Qed.

Lemma binary_normalize_not_nan (m e : Z) :
  binary_normalize prec emax m e false <> S754_nan.
Proof.
  unfold binary_normalize, binary_round.
  destruct m as [|p|p]; [discriminate| |];
    destruct (shl_align _ _ _) as [mz ez]; apply binary_round_aux_not_nan.
Qed.

(** Adding a number that is neither NaN nor infinite to a number that is
    not NaN does not give NaN. *)
Lemma SFadd_not_nan (x y : spec_float) :
  x <> S754_nan -> y <> S754_nan -> (forall s, y <> S754_infinity s) ->
  SFadd prec emax x y <> S754_nan.
Proof.
  intros Hx Hy Hinf.
  destruct x as [sx|sx| |sx mx ex], y as [sy|sy| |sy my ey];
    try congruence; try (now elim (Hinf sy)); simpl;
    try discriminate.
  - destruct sx, sy; discriminate.
  - apply binary_normalize_not_nan.
Qed.

Lemma is_nan_false (x : number) :
  PrimFloat.is_nan x = false <-> Prim2SF x <> S754_nan.
Proof.
  unfold PrimFloat.is_nan. rewrite FloatAxioms.eqb_spec.
  destruct (Prim2SF x) as [s|s| |s m e]; simpl.
  - split; [discriminate|reflexivity].
  - destruct s; (split; [discriminate|reflexivity]).
  - split; [discriminate|congruence].
  - unfold SFeqb, SFcompare. rewrite Z.compare_refl.
    change (Pos.compare_cont Eq m m) with (m ?= m)%positive.
    rewrite Pos.compare_refl. destruct s; (split; [discriminate|reflexivity]).
Qed.

Lemma is_infinity_false (x : number) (s : bool) :
  PrimFloat.is_infinity x = false -> Prim2SF x <> S754_infinity s.
Proof.
  unfold PrimFloat.is_infinity. rewrite FloatAxioms.eqb_spec, abs_spec.
  change (Prim2SF infinity) with (S754_infinity false).
  intros H E. rewrite E in H. discriminate H.
Qed.

Lemma truthy_not_nan (v : number) :
  truthy_number v = true -> PrimFloat.is_nan v = false.
Proof.
  unfold truthy_number. destruct (PrimFloat.is_nan v); [|reflexivity].
  rewrite orb_true_r. discriminate.
Qed.

Lemma total_from_not_nan (activities : list WalletActivity) :
  (forall activity v,
     activity ∈ activities -> value activity = Some v ->
     PrimFloat.is_infinity v = false) ->
  forall start : number,
    Prim2SF start <> S754_nan ->
    PrimFloat.is_nan
      (fold_left
         (fun sum activity =>
            (sum + match value activity with
                   | Some v => if truthy_number v then v else 0
                   | None => 0
                   end)%float)
         activities start) = false.
Proof.
  induction activities as [|a l IH]; intros Hfinite start Hstart; simpl.
  - now apply is_nan_false.
  - apply IH.
    + intros activity v Hin. apply Hfinite. now apply list_elem_of_further.
    + rewrite add_spec. apply SFadd_not_nan; [exact Hstart| |].
      * destruct (value a) as [v|] eqn:Ev; [|discriminate].
        destruct (truthy_number v) eqn:Et; [|discriminate].
        now apply is_nan_false, truthy_not_nan.
      * intros s. destruct (value a) as [v|] eqn:Ev; [|discriminate].
        destruct (truthy_number v); [|discriminate].
        apply is_infinity_false, (Hfinite a v); [apply list_elem_of_here|exact Ev].
Qed.

(** X19: the total of the values is never NaN when no value is infinite:
    absent values, zeros and NaN values count as 0, and the sum of the
    others may at most overflow to an infinity. *)
Theorem total_value_not_nan (activities : list WalletActivity) :
  (forall activity v,
     activity ∈ activities -> value activity = Some v ->
     PrimFloat.is_infinity v = false) ->
  PrimFloat.is_nan (calculateTotalValue activities) = false.
Proof.
  intros Hfinite. unfold calculateTotalValue.
  apply total_from_not_nan; [exact Hfinite|discriminate].
Qed.

Lemma total_value_not_nan_witness :
  PrimFloat.is_nan (calculateTotalValue [old_swap; failed_swap]) = false.
Proof.
  apply (total_value_not_nan [old_swap; failed_swap]).
  intros activity v Hin Ev. rewrite !elem_of_cons, elem_of_nil in Hin.
  destruct Hin as [->|[->|[]]]; injection Ev as <-; reflexivity.
Defined.

(** ** Binary64: arithmetic on integers below [2 ^ 53] is exact

    Timestamps and their gaps are integers far below [2 ^ 53]; on such
    numbers the sums, differences and quotients the statistics take are
    exact, as long as the results are integers below [2 ^ 53] too. *)

Lemma Zdigits2_bounds (z : Z) :
  0 < z -> 2 ^ (Zdigits2 z - 1) <= z < 2 ^ Zdigits2 z.
Proof. destruct z as [|p|p]; try lia. intros _. apply digits2_pos_bounds. Qed.

Lemma Zdigits2_pos (z : Z) : 0 < z -> 0 < Zdigits2 z.
Proof. destruct z as [|p|p]; simpl; lia. Qed.

Lemma Zdigits2_eq (z k : Z) : 2 ^ (k - 1) <= z < 2 ^ k -> 0 < z -> Zdigits2 z = k.
Proof.
  intros Hz Hpos. destruct z as [|p|p]; try lia. simpl. now apply digits2_pos_eq.
Qed.

Lemma Zdigits2_below (z : Z) : 0 < z < 2 ^ 53 -> 0 < Zdigits2 z <= 53.
Proof.
  intros [Hpos Hlt]. split; [now apply Zdigits2_pos|].
  apply Zdigits2_le; lia.
Qed.

Lemma Zdigits2_shift (z k : Z) :
  0 < z -> 0 <= k -> Zdigits2 (z * 2 ^ k) = Zdigits2 z + k.
Proof.
  intros Hz Hk. pose proof (Zdigits2_bounds z Hz) as [Hlo Hhi].
  pose proof (Zdigits2_pos z Hz) as Hd.
  assert (Hpow : 0 < 2 ^ k) by (apply Z.pow_pos_nonneg; lia).
  apply Zdigits2_eq; [|nia]. split.
  - replace (Zdigits2 z + k - 1) with (Zdigits2 z - 1 + k) by lia.
    rewrite pow2_split by lia. nia.
  - rewrite pow2_split by lia. nia.
Qed.

(** The mantissa of [integer_float]. *)
Lemma integer_mantissa (z : Z) :
  0 < z < 2 ^ 53 ->
  let m := z * 2 ^ (53 - Zdigits2 z) in
  0 < m /\ Z.pos (Z.to_pos m) = m /\ Zdigits2 m = 53.
Proof.
  intros Hz. cbv zeta. pose proof (Zdigits2_below z Hz) as Hd.
  assert (Hpow : 0 < 2 ^ (53 - Zdigits2 z)) by (apply Z.pow_pos_nonneg; lia).
  assert (Hm : 0 < z * 2 ^ (53 - Zdigits2 z)) by nia.
  split; [exact Hm|]. split; [now apply Z2Pos.id|].
  rewrite Zdigits2_shift by lia. lia.
Qed.

Lemma integer_float_valid (z : Z) :
  0 < z < 2 ^ 53 -> valid_binary (integer_float z) = true.
Proof.
  intros Hz. destruct (integer_mantissa z Hz) as (Hm & Eid & Hdm).
  pose proof (Zdigits2_below z Hz) as Hd.
  unfold integer_float, SpecFloat.valid_binary, bounded, canonical_mantissa.
  rewrite fexp64_eq.
  change (Z.pos (digits2_pos (Z.to_pos (z * 2 ^ (53 - Zdigits2 z)))))
    with (Zdigits2 (Z.pos (Z.to_pos (z * 2 ^ (53 - Zdigits2 z))))).
  rewrite Eid, Hdm. unfold fexp64.
  change (emax - prec) with 971.
  apply andb_true_intro. split; [apply Z.eqb_eq|apply Z.leb_le]; lia.
Qed.

(** Shifting out digits that are all 0 is exact. *)
Lemma shr_1_exact (m : Z) :
  0 <= m -> m mod 2 = 0 ->
  shr_1 {| shr_m := m; shr_r := false; shr_s := false |} =
  {| shr_m := m / 2; shr_r := false; shr_s := false |}.
Proof.
  intros Hm Hmod. destruct m as [|[p|p|]|p]; try lia; simpl.
  - reflexivity.
  - exfalso. rewrite Pos2Z.inj_xI in Hmod.
    rewrite Z.add_comm, Z.mul_comm, Z.mod_add in Hmod by lia. discriminate Hmod.
  - f_equal. rewrite Pos2Z.inj_xO. apply Z.div_unique with (r := 0); lia.
  - discriminate Hmod.
Qed.

Lemma iter_shr_1_exact (n : positive) :
  forall m, 0 <= m -> m mod 2 ^ Z.pos n = 0 ->
    SpecFloat.iter_pos shr_1 n {| shr_m := m; shr_r := false; shr_s := false |} =
    {| shr_m := m / 2 ^ Z.pos n; shr_r := false; shr_s := false |}.
Proof.
  assert (Hdiv : forall m a b, 0 <= a -> 0 <= b -> m mod 2 ^ (a + b) = 0 ->
                   m mod 2 ^ a = 0 /\ (m / 2 ^ a) mod 2 ^ b = 0).
  { intros m a b Ha Hb Hmod.
    assert (0 < 2 ^ a) by (apply Z.pow_pos_nonneg; lia).
    assert (0 < 2 ^ b) by (apply Z.pow_pos_nonneg; lia).
    apply Z.mod_divide in Hmod; [|rewrite pow2_split by lia; lia].
    destruct Hmod as [q Hq]. rewrite pow2_split in Hq by lia. subst m.
    split.
    - apply Z.mod_divide; [lia|]. exists (q * 2 ^ b). lia.
    - replace (q * (2 ^ a * 2 ^ b)) with (q * 2 ^ b * 2 ^ a) by lia.
      rewrite Z.div_mul by lia. apply Z.mod_mul. lia. }
  induction n as [n IH|n IH|]; intros m Hm Hmod; cbn [SpecFloat.iter_pos].
  - replace (Z.pos n~1) with (1 + (Z.pos n + Z.pos n)) in Hmod |- * by lia.
    destruct (Hdiv m 1 (Z.pos n + Z.pos n) ltac:(lia) ltac:(lia) Hmod) as [H1 H2].
    change (2 ^ 1) with 2 in H1, H2.
    rewrite shr_1_exact by assumption.
    assert (Hm1 : 0 <= m / 2) by (apply Z.div_pos; lia).
    destruct (Hdiv (m / 2) (Z.pos n) (Z.pos n) ltac:(lia) ltac:(lia) H2) as [H3 H4].
    rewrite IH by assumption.
    assert (Hpn : 0 < 2 ^ Z.pos n) by (apply Z.pow_pos_nonneg; lia).
    rewrite IH; [|apply Z.div_pos; lia|exact H4].
    f_equal. rewrite !Z.div_div by lia. f_equal.
    rewrite !pow2_split by lia. change (2 ^ 1) with 2. lia.
  - replace (Z.pos n~0) with (Z.pos n + Z.pos n) in Hmod |- * by lia.
    destruct (Hdiv m (Z.pos n) (Z.pos n) ltac:(lia) ltac:(lia) Hmod) as [H3 H4].
    assert (Hpn : 0 < 2 ^ Z.pos n) by (apply Z.pow_pos_nonneg; lia).
    rewrite IH by assumption.
    rewrite IH; [|apply Z.div_pos; lia|exact H4].
    f_equal. rewrite Z.div_div by lia. f_equal. rewrite pow2_split by lia. reflexivity.
  - change (2 ^ 1) with 2 in *. now apply shr_1_exact.
Qed.

(** Rounding [z * 2 ^ k] at the exponent [- k] gives the number of value
    [z]. *)
Lemma binary_round_aux_integer (z k : Z) :
  0 < z < 2 ^ 53 -> 53 - Zdigits2 z <= k ->
  binary_round_aux prec emax false (z * 2 ^ k) (- k) loc_Exact = integer_float z.
Proof.
  intros Hz Hk. pose proof (Zdigits2_below z Hz) as Hd.
  destruct (integer_mantissa z Hz) as (Hm0 & Eid & Hdm0).
  assert (Hk0 : 0 <= k) by lia.
  assert (Hpow : 0 < 2 ^ k) by (apply Z.pow_pos_nonneg; lia).
  set (n := Zdigits2 z - 53 + k).
  assert (Hn : 0 <= n) by (unfold n; lia).
  assert (Hpown : 0 < 2 ^ n) by (apply Z.pow_pos_nonneg; lia).
  assert (Esplit : z * 2 ^ k = z * 2 ^ (53 - Zdigits2 z) * 2 ^ n).
  { rewrite <- Z.mul_assoc, <- pow2_split by lia. f_equal. f_equal. unfold n. lia. }
  assert (E1 : shr_fexp prec emax (z * 2 ^ k) (- k) loc_Exact =
               ({| shr_m := z * 2 ^ (53 - Zdigits2 z); shr_r := false; shr_s := false |},
                Zdigits2 z - 53)).
  { unfold shr_fexp. rewrite fexp64_eq, Zdigits2_shift by lia.
    replace (Zdigits2 z + k + - k) with (Zdigits2 z) by lia.
    unfold fexp64. rewrite Z.max_l by lia.
    replace (Zdigits2 z - 53 - - k) with n by (unfold n; lia).
    unfold shr, shr_record_of_loc.
    destruct n as [|p|p] eqn:En; [| |lia].
    - rewrite Esplit. change (2 ^ 0) with 1. rewrite Z.mul_1_r.
      f_equal. lia.
    - rewrite iter_shr_1_exact.
      + rewrite Esplit, Z.div_mul by lia. f_equal. lia.
      + nia.
      + rewrite Esplit. apply Z.mod_mul. lia. }
  unfold binary_round_aux. rewrite E1. cbn [shr_m loc_of_shr_record round_nearest_even].
  assert (E2 : shr_fexp prec emax (z * 2 ^ (53 - Zdigits2 z)) (Zdigits2 z - 53) loc_Exact =
               ({| shr_m := z * 2 ^ (53 - Zdigits2 z); shr_r := false; shr_s := false |},
                Zdigits2 z - 53)).
  { unfold shr_fexp. rewrite fexp64_eq, Hdm0. unfold fexp64.
    replace (Z.max (53 + (Zdigits2 z - 53) - 53) (-1074) - (Zdigits2 z - 53)) with 0 by lia.
    reflexivity. }
  rewrite E2. cbn [shr_m]. unfold integer_float.
  destruct (z * 2 ^ (53 - Zdigits2 z)) as [|p|p] eqn:Ep; try lia.
  rewrite (proj2 (Z.leb_le _ _)) by (change (emax - prec) with 971; lia).
  reflexivity.
Qed.

Lemma binary_normalize_integer (z k : Z) :
  0 < z < 2 ^ 53 -> 0 <= k ->
  binary_normalize prec emax (z * 2 ^ k) (- k) false = integer_float z.
Proof.
  intros Hz Hk. pose proof (Zdigits2_below z Hz) as Hd.
  assert (Hpow : 0 < 2 ^ k) by (apply Z.pow_pos_nonneg; lia).
  unfold binary_normalize.
  destruct (z * 2 ^ k) as [|p|p] eqn:Ep; try nia.
  unfold binary_round. rewrite fexp64_eq.
  change (Z.pos (digits2_pos p)) with (Zdigits2 (Z.pos p)).
  rewrite <- Ep, Zdigits2_shift by lia.
  replace (Zdigits2 z + k + - k) with (Zdigits2 z) by lia.
  unfold fexp64. rewrite Z.max_l by lia.
  destruct (Z.le_gt_cases (- k) (Zdigits2 z - 53)) as [Hle|Hgt].
  - rewrite shl_align_le by exact Hle. rewrite <- Ep.
    apply binary_round_aux_integer; [exact Hz|lia].
  - destruct (Zdigits2 z - 53 - - k) as [|d|d] eqn:Ed; try lia.
    rewrite (shl_align_gt _ _ _ d Ed).
    rewrite shift_pos_mul, <- Ep.
    replace (z * 2 ^ k * 2 ^ Z.pos d) with (z * 2 ^ (53 - Zdigits2 z))
      by (rewrite <- Z.mul_assoc, <- pow2_split by lia; f_equal; f_equal; lia).
    replace (Zdigits2 z - 53) with (- (53 - Zdigits2 z)) by lia.
    apply binary_round_aux_integer; [exact Hz|lia].
Qed.
Lemma integer_float_parts (z : Z) :
  0 < z < 2 ^ 53 ->
  exists m e,
    integer_float z = S754_finite false m e /\
    -52 <= e <= 0 /\ e = Zdigits2 z - 53 /\
    Z.pos m = z * 2 ^ (- e) /\ Zdigits2 (Z.pos m) = 53.
Proof.
  intros Hz. destruct (integer_mantissa z Hz) as (Hm & Eid & Hdm).
  pose proof (Zdigits2_below z Hz) as Hd.
  exists (Z.to_pos (z * 2 ^ (53 - Zdigits2 z))), (Zdigits2 z - 53).
  split; [reflexivity|]. split; [lia|]. split; [reflexivity|].
  rewrite Eid. replace (- (Zdigits2 z - 53)) with (53 - Zdigits2 z) by lia.
  split; [reflexivity|exact Hdm].
Qed.

Lemma shl_align_value (m : positive) (e ez : Z) :
  ez <= e -> Z.pos (fst (shl_align m e ez)) = Z.pos m * 2 ^ (e - ez).
Proof.
  intros Hle. destruct (ez - e) as [|d|d] eqn:Ed; try lia.
  - rewrite shl_align_le by lia. replace (e - ez) with 0 by lia.
    change (2 ^ 0) with 1. simpl. lia.
  - rewrite (shl_align_gt _ _ _ d Ed). cbn [fst]. rewrite shift_pos_mul.
    f_equal. f_equal. lia.
Qed.

(** The mantissas of two numbers of integer values, at their least
    exponent. *)
Lemma aligned_integers (a b : Z) (ma mb : positive) (ea eb : Z) :
  Z.pos ma = a * 2 ^ (- ea) -> Z.pos mb = b * 2 ^ (- eb) ->
  ea <= 0 -> eb <= 0 ->
  Z.pos (fst (shl_align ma ea (Z.min ea eb))) = a * 2 ^ (- Z.min ea eb) /\
  Z.pos (fst (shl_align mb eb (Z.min ea eb))) = b * 2 ^ (- Z.min ea eb).
Proof.
  intros Ea Eb Ha Hb.
  rewrite !shl_align_value by lia. rewrite Ea, Eb, <- !Z.mul_assoc.
  rewrite <- !pow2_split by lia.
  split; f_equal; f_equal; lia.
Qed.

Lemma SFadd_integer (a b : Z) :
  0 < a -> 0 < b -> a + b < 2 ^ 53 ->
  SFadd prec emax (integer_float a) (integer_float b) = integer_float (a + b).
Proof.
  intros Ha Hb Hab.
  destruct (integer_float_parts a) as (ma & ea & -> & Hea & _ & Ema & _); [lia|].
  destruct (integer_float_parts b) as (mb & eb & -> & Heb & _ & Emb & _); [lia|].
  unfold SFadd.
  destruct (aligned_integers a b ma mb ea eb Ema Emb) as [Ea Eb]; try lia.
  cbv zeta. cbn [cond_Zopp]. rewrite Ea, Eb, <- Z.mul_add_distr_r.
  set (k := - Z.min ea eb). replace (Z.min ea eb) with (- k) by (unfold k; lia).
  apply binary_normalize_integer; unfold k; lia.
Qed.

Lemma SFsub_integer (a b : Z) :
  0 < b -> b < a -> a < 2 ^ 53 ->
  SFsub prec emax (integer_float a) (integer_float b) = integer_float (a - b).
Proof.
  intros Hb Hba Ha.
  destruct (integer_float_parts a) as (ma & ea & -> & Hea & _ & Ema & _); [lia|].
  destruct (integer_float_parts b) as (mb & eb & -> & Heb & _ & Emb & _); [lia|].
  unfold SFsub.
  destruct (aligned_integers a b ma mb ea eb Ema Emb) as [Ea Eb]; try lia.
  cbv zeta. cbn [cond_Zopp]. rewrite Ea, Eb, <- Z.mul_sub_distr_r.
  set (k := - Z.min ea eb). replace (Z.min ea eb) with (- k) by (unfold k; lia).
  apply binary_normalize_integer; unfold k; lia.
Qed.

Lemma SFdiv_integer (m g : Z) :
  0 < m -> 0 < g -> m * g < 2 ^ 53 ->
  SFdiv prec emax (integer_float (m * g)) (integer_float m) = integer_float g.
Proof.
  intros Hm Hg Hmg.
  assert (Hm53 : m < 2 ^ 53) by nia. assert (Hg53 : g < 2 ^ 53) by nia.
  destruct (integer_float_parts (m * g)) as (p1 & e1 & -> & He1 & Ee1 & Ep1 & Hd1);
    [nia|].
  destruct (integer_float_parts m) as (p2 & e2 & -> & He2 & Ee2 & Ep2 & Hd2); [lia|].
  set (k := 53 - e1 + e2).
  assert (Hk : 53 - Zdigits2 g <= k).
  { pose proof (Zdigits2_bounds m Hm) as [_ Hbm].
    pose proof (Zdigits2_bounds g Hg) as [_ Hbg].
    pose proof (Zdigits2_pos m Hm). pose proof (Zdigits2_pos g Hg).
    assert (Zdigits2 (m * g) <= Zdigits2 m + Zdigits2 g).
    { apply Zdigits2_le; [|lia]. rewrite pow2_split by lia. nia. }
    unfold k. lia. }
  assert (Hk0 : 0 <= k) by (unfold k; lia).
  unfold SFdiv, SFdiv_core_binary. cbv zeta. rewrite Hd1, Hd2, fexp64_eq.
  assert (Ee : Z.min (fexp64 (53 + e1 - (53 + e2))) (e1 - e2) = - k)
    by (unfold fexp64, k; lia).
  rewrite Ee. replace (e1 - e2 - - k) with 53 by (unfold k; lia).
  rewrite Z.shiftl_mul_pow2 by lia.
  assert (Eq : Z.pos p1 * 2 ^ 53 = g * 2 ^ k * Z.pos p2).
  { rewrite Ep1, Ep2.
    replace (m * g * 2 ^ (- e1) * 2 ^ 53) with (g * m * (2 ^ (- e1) * 2 ^ 53)) by lia.
    replace (g * 2 ^ k * (m * 2 ^ (- e2))) with (g * m * (2 ^ k * 2 ^ (- e2))) by lia.
    rewrite <- !pow2_split by lia. f_equal. f_equal. unfold k. lia. }
  assert (Edv : Z.div_eucl (Z.pos p1 * 2 ^ 53) (Z.pos p2) = (g * 2 ^ k, 0)).
  { pose proof (Z.div_mul (g * 2 ^ k) (Z.pos p2) ltac:(lia)) as Hq.
    pose proof (Z.mod_mul (g * 2 ^ k) (Z.pos p2) ltac:(lia)) as Hr.
    rewrite <- Eq in Hq, Hr. unfold Z.div in Hq. unfold Z.modulo in Hr.
    destruct (Z.div_eucl (Z.pos p1 * 2 ^ 53) (Z.pos p2)) as [q r].
    simpl in Hq, Hr. now subst. }
  rewrite Edv.
  assert (El : new_location (Z.pos p2) 0 = loc_Exact).
  { unfold new_location, new_location_even, new_location_odd.
    now destruct (Z.even (Z.pos p2)). }
  rewrite El. cbn [xorb].
  apply binary_round_aux_integer; [lia|exact Hk].
Qed.

(** *** The numbers of integers *)

Lemma number_of_Z_integer (z : Z) :
  0 < z < 2 ^ 53 -> Prim2SF (number_of_Z z) = integer_float z.
Proof.
  intros Hz. unfold number_of_Z.
  pose proof (binary_normalize_integer z 0 Hz ltac:(lia)) as E.
  change (2 ^ 0) with 1 in E. rewrite Z.mul_1_r in E. change (- 0) with 0 in E.
  rewrite E. apply Prim2SF_SF2Prim, integer_float_valid, Hz.
Qed.

Lemma number_of_Z_zero : number_of_Z 0 = 0%float.
Proof. reflexivity. Qed.

Lemma number_of_Z_sub (a b : Z) :
  0 <= b -> b < a -> a < 2 ^ 53 ->
  (number_of_Z a - number_of_Z b)%float = number_of_Z (a - b).
Proof.
  intros Hb Hba Ha. apply Prim2SF_inj. rewrite sub_spec.
  rewrite (number_of_Z_integer a), (number_of_Z_integer (a - b)) by lia.
  destruct (Z.eq_dec b 0) as [->|Hb0].
  - rewrite number_of_Z_zero. change (Prim2SF 0) with (S754_zero false).
    rewrite Z.sub_0_r. reflexivity.
  - rewrite (number_of_Z_integer b) by lia. apply SFsub_integer; lia.
Qed.

Lemma number_of_Z_add (a b : Z) :
  0 <= a -> 0 < b -> a + b < 2 ^ 53 ->
  (number_of_Z a + number_of_Z b)%float = number_of_Z (a + b).
Proof.
  intros Ha Hb Hab. apply Prim2SF_inj. rewrite add_spec.
  rewrite (number_of_Z_integer b), (number_of_Z_integer (a + b)) by lia.
  destruct (Z.eq_dec a 0) as [->|Ha0].
  - rewrite number_of_Z_zero. change (Prim2SF 0) with (S754_zero false).
    reflexivity.
  - rewrite (number_of_Z_integer a) by lia. apply SFadd_integer; lia.
Qed.

Lemma number_of_Z_div (m g : Z) :
  0 < m -> 0 < g -> m * g < 2 ^ 53 ->
  (number_of_Z (m * g) / number_of_Z m)%float = number_of_Z g.
Proof.
  intros Hm Hg Hmg. apply Prim2SF_inj. rewrite div_spec.
  rewrite (number_of_Z_integer (m * g)), (number_of_Z_integer m),
    (number_of_Z_integer g) by nia.
  now apply SFdiv_integer.
Qed.

Lemma zero_div_integer (z : Z) :
  0 < z < 2 ^ 53 -> (0 / number_of_Z z)%float = 0%float.
Proof.
  intros Hz. apply Prim2SF_inj. rewrite div_spec, number_of_Z_integer by exact Hz.
  reflexivity.
Qed.

Lemma integer_sub_diag (z : Z) :
  0 < z < 2 ^ 53 -> (number_of_Z z - number_of_Z z)%float = 0%float.
Proof.
  intros Hz. apply Prim2SF_inj. rewrite sub_spec, number_of_Z_integer by exact Hz.
  unfold integer_float, SF64sub, SFsub. cbn [cond_Zopp]. rewrite Z.sub_diag.
  reflexivity.
Qed.
(** ** Regular swaps are detected *)

Lemma timeGaps_gaps (l : list WalletActivity) :
  timeGaps l = timestamp_gaps (List.map timestamp l).
Proof.
  induction l as [|a [|b l] IH]; try reflexivity.
  change (timeGaps (a :: b :: l))
    with ((number_of_Z (timestamp a) - number_of_Z (timestamp b))%float
          :: timeGaps (b :: l)).
  rewrite IH. reflexivity.
Qed.

Lemma regular_timestamps_below (first gap : Z) (n : nat) (t : Z) :
  0 < gap -> t ∈ regular_timestamps first gap n -> t < first + Z.of_nat n * gap.
Proof.
  intros Hgap. induction n as [|n IH]; simpl regular_timestamps; intros Ht.
  - now apply elem_of_nil in Ht.
  - apply elem_of_cons in Ht as [->|Ht]; [nia|]. specialize (IH Ht). nia.
Qed.

Lemma regular_timestamps_sorted (first gap : Z) (n : nat) :
  0 < gap ->
  StronglySorted (fun x y : Z => y <= x) (regular_timestamps first gap n).
Proof.
  intros Hgap. induction n as [|n IH]; simpl; constructor; [exact IH|].
  apply Forall_forall. intros t Ht.
  pose proof (regular_timestamps_below first gap n t Hgap Ht). lia.
Qed.

Lemma length_regular_timestamps (first gap : Z) (n : nat) :
  length (regular_timestamps first gap n) = n.
Proof. induction n as [|n IH]; simpl; congruence. Qed.

(** The gaps of regular timestamps are all the number of the gap. *)
Lemma regular_timestamps_gaps (first gap : Z) (n : nat) :
  0 <= first -> 0 < gap -> first + Z.of_nat n * gap < 2 ^ 53 ->
  timestamp_gaps (regular_timestamps first gap n) =
  replicate (Nat.pred n) (number_of_Z gap).
Proof.
  intros Hfirst Hgap. induction n as [|[|n] IH]; intros Hmax; try reflexivity.
  change (regular_timestamps first gap (S (S n)))
    with ((first + Z.of_nat (S n) * gap) :: (first + Z.of_nat n * gap)
          :: regular_timestamps first gap n).
  change (timestamp_gaps ((first + Z.of_nat (S n) * gap)
                          :: (first + Z.of_nat n * gap)
                          :: regular_timestamps first gap n))
    with ((number_of_Z (first + Z.of_nat (S n) * gap) -
           number_of_Z (first + Z.of_nat n * gap))%float
          :: timestamp_gaps (regular_timestamps first gap (S n))).
  rewrite IH by nia. rewrite number_of_Z_sub by nia.
  replace (first + Z.of_nat (S n) * gap - (first + Z.of_nat n * gap)) with gap by nia.
  reflexivity.
Qed.

Lemma fold_sum_replicate_integer (g : Z) (i : nat) :
  0 < g ->
  forall j, 0 <= j -> j + Z.of_nat i * g < 2 ^ 53 ->
    fold_left (fun sum value => sum + value)%float
      (replicate i (number_of_Z g)) (number_of_Z j) =
    number_of_Z (j + Z.of_nat i * g).
Proof.
  intros Hg. induction i as [|i IH]; intros j Hj Hmax; simpl.
  - f_equal. lia.
  - rewrite number_of_Z_add by nia. rewrite IH by nia. f_equal. nia.
Qed.

Lemma fold_squares_replicate (k : nat) (x mean : number) :
  Math_pow2 (x - mean) = 0%float ->
  fold_left (fun sum value => sum + Math_pow2 (value - mean))%float
    (replicate k x) 0%float = 0%float.
Proof.
  intros E. induction k as [|k IH]; [reflexivity|].
  simpl. rewrite E. exact IH.
Qed.

(** The statistics of equal integer gaps: the mean is the gap and the
    standard deviation is 0. *)
Lemma calculateStats_equal_gaps (g : Z) (m : nat) :
  (0 < m)%nat -> 0 < g -> Z.of_nat m * g < 2 ^ 53 ->
  calculateStats (replicate m (number_of_Z g)) = (number_of_Z g, 0%float).
Proof.
  intros Hm Hg Hmax. unfold calculateStats. rewrite length_replicate.
  unfold number_of_nat.
  pose proof (fold_sum_replicate_integer g m Hg 0 ltac:(lia) ltac:(lia)) as Esum.
  rewrite number_of_Z_zero, Z.add_0_l in Esum. rewrite Esum.
  rewrite number_of_Z_div by lia.
  rewrite fold_squares_replicate
    by (rewrite integer_sub_diag by nia; reflexivity).
  rewrite zero_div_integer by nia. reflexivity.
Qed.

(** X26: swaps made at regular intervals are detected: when the wallet has
    at least five activities and the timestamps of its swaps are, in any
    order, [first], [first + gap], ..., [first + (n - 1) * gap] for some
    positive gap and at least three swaps, all below [2 ^ 53], then the
    gaps are equal, their standard deviation is exactly 0, and the result
    has the [dca] pattern. *)
Theorem regular_swaps_are_dca (l : list WalletActivity) (first gap : Z) (n : nat) :
  (5 <= length l)%nat -> (3 <= n)%nat ->
  0 <= first -> 0 < gap -> first + Z.of_nat n * gap < 2 ^ 53 ->
  List.map timestamp (getActivitiesByType l Swap) ≡ₚ regular_timestamps first gap n ->
  calculateStats (timeGaps (sort_desc (getActivitiesByType l Swap))) =
    (number_of_Z gap, 0%float) /\
  PATTERNS.DCA ∈ analyzeTransactionPatterns l.
Proof.
  intros Hlen Hn Hfirst Hgap Hmax Hperm.
  set (swaps := getActivitiesByType l Swap) in *.
  assert (Hswaps : length swaps = n).
  { apply Permutation_length in Hperm.
    now rewrite length_map, length_regular_timestamps in Hperm. }
  assert (Hsorted : List.map timestamp (sort_desc swaps) =
                    regular_timestamps first gap n).
  { apply sorted_desc_unique.
    - apply sort_desc_timestamps_sorted.
    - now apply regular_timestamps_sorted.
    - now rewrite (Permutation_map timestamp (sort_desc_perm swaps)). }
  assert (Hstats : calculateStats (timeGaps (sort_desc swaps)) =
                   (number_of_Z gap, 0%float)).
  { rewrite timeGaps_gaps, Hsorted, regular_timestamps_gaps by assumption.
    apply calculateStats_equal_gaps; [lia|exact Hgap|].
    destruct n as [|n]; [lia|]. simpl Nat.pred. nia. }
  split; [exact Hstats|].
  apply in_analyzed_iff_detected; [exact Hlen|discriminate|].
  apply dca_in_detected. fold swaps. split; [unfold MINIMUM_SWAPS; lia|].
  unfold variationCoefficient. rewrite Hstats.
  rewrite zero_div_integer by nia. reflexivity.
Qed.

Lemma regular_swaps_are_dca_witness :
  calculateStats
    (timeGaps (sort_desc (getActivitiesByType
                            (activity_at Transfer 5 :: regular_swaps) Swap))) =
    (number_of_Z 1000, 0%float) /\
  PATTERNS.DCA ∈ analyzeTransactionPatterns (activity_at Transfer 5 :: regular_swaps).
Proof.
  apply (regular_swaps_are_dca (activity_at Transfer 5 :: regular_swaps) 0 1000 4).
  - simpl; lia.
  - lia.
  - lia.
  - lia.
  - reflexivity.
  - apply Permutation_rev.
Defined.

(** ** The dca pattern and the statistics of the gaps *)

Lemma sorted_timestamps (s : list WalletActivity) :
  StronglySorted newer_first s ->
  StronglySorted (fun x y : Z => y <= x) (List.map timestamp s).
Proof.
  induction 1 as [|a s _ IH Ha]; simpl; constructor; [exact IH|].
  apply Forall_forall. intros t Ht. apply list_elem_of_In, in_map_iff in Ht.
  destruct Ht as (b & <- & Hb). rewrite Forall_forall in Ha.
  apply (Ha b). now apply list_elem_of_In.
Qed.

(** Any list of the swaps sorted newest first has the timestamps of the
    list the detector sorts. *)
Lemma sorted_newest_first_timestamps (swaps sorted : list WalletActivity) :
  sorted ≡ₚ swaps -> StronglySorted newer_first sorted ->
  List.map timestamp (sort_desc swaps) = List.map timestamp sorted.
Proof.
  intros Hperm Hsorted. apply sorted_desc_unique.
  - apply sort_desc_timestamps_sorted.
  - now apply sorted_timestamps.
  - apply Permutation_map. now rewrite sort_desc_perm, Hperm.
Qed.

(** C1: with at least five activities and at least three swaps in the Swap
    group, take any list of the swaps sorted by timestamp, newest first,
    and the gaps between the timestamps of its neighbours: the result has a
    [dca] pattern, of confidence 0.7, exactly when the population standard
    deviation of the gaps divided by their mean is below 0.3; otherwise it
    has no [dca] pattern at all. *)
Theorem dca_iff_regular_gaps (l swaps sorted : list WalletActivity) :
  (5 <= length l)%nat ->
  groupActivitiesByType l !! "Swap" = Some swaps ->
  (3 <= length swaps)%nat ->
  sorted ≡ₚ swaps ->
  StronglySorted newer_first sorted ->
  ((exists p, p ∈ analyzeTransactionPatterns l /\
              patternType p = "dca" /\ confidence p = 0.7%float) <->
   (population_standard_deviation (timestamp_gaps (List.map timestamp sorted)) /
    mean_of (timestamp_gaps (List.map timestamp sorted)) <? 0.3)%float = true) /\
  ((population_standard_deviation (timestamp_gaps (List.map timestamp sorted)) /
    mean_of (timestamp_gaps (List.map timestamp sorted)) <? 0.3)%float = false ->
   forall p, p ∈ analyzeTransactionPatterns l -> patternType p <> "dca").
Proof.
  intros Hlen Hgroup Hswaps Hperm Hsorted.
  set (gaps := timestamp_gaps (List.map timestamp sorted)).
  assert (Eswaps : getActivitiesByType l Swap = swaps).
  { rewrite <- (group_or_empty l Swap). simpl type_name. now rewrite Hgroup. }
  assert (Evc : variationCoefficient swaps =
                (population_standard_deviation gaps / mean_of gaps)%float).
  { unfold variationCoefficient.
    rewrite timeGaps_gaps, (sorted_newest_first_timestamps swaps sorted Hperm Hsorted).
    fold gaps. now rewrite calculateStats_statistics. }
  assert (Hdca : PATTERNS.DCA ∈ analyzeTransactionPatterns l <->
                 (population_standard_deviation gaps / mean_of gaps <? 0.3)%float = true).
  { rewrite in_analyzed_iff_detected by (assumption || discriminate).
    rewrite dca_in_detected, Eswaps, Evc. unfold MINIMUM_SWAPS.
    change DCA_DEVIATION_THRESHOLD with 0.3%float. tauto. }
  assert (Honly : forall p, p ∈ analyzeTransactionPatterns l ->
                            patternType p = "dca" -> p = PATTERNS.DCA).
  { intros p Hp Ht. apply analyzeTransactionPatterns_predefined in Hp.
    rewrite !elem_of_cons, elem_of_nil in Hp.
    destruct Hp as [->|[->|[->|[->|[->|[]]]]]]; try discriminate Ht; reflexivity. }
  split.
  - split.
    + intros (p & Hp & Ht & _). apply Hdca. now rewrite <- (Honly p Hp Ht).
    + intros H. exists PATTERNS.DCA. repeat split. now apply Hdca.
  - intros Hfalse p Hp Ht. rewrite (Honly p Hp Ht) in Hp.
    apply Hdca in Hp. congruence.
Qed.

Lemma dca_iff_regular_gaps_witness :
  (exists p, p ∈ analyzeTransactionPatterns (activity_at Transfer 5 :: regular_swaps) /\
             patternType p = "dca" /\ confidence p = 0.7%float) <->
  (population_standard_deviation
     (timestamp_gaps (List.map timestamp (rev regular_swaps))) /
   mean_of (timestamp_gaps (List.map timestamp (rev regular_swaps))) <? 0.3)%float = true.
Proof.
  apply (dca_iff_regular_gaps (activity_at Transfer 5 :: regular_swaps)
           regular_swaps (rev regular_swaps)).
  - simpl; lia.
  - vm_compute; reflexivity.
  - simpl; lia.
  - symmetry. apply Permutation_rev.
  - repeat constructor; unfold newer_first; simpl; lia.
Defined.

(** * Properties of the report formatter *)

(** ** The emoji of a pattern *)

(** X20: in a report, the confidence emoji of a pattern of the analyzer is
    decided by its type: the magnifying glass 🔍 for [lending_active] only;
    🔎 for [dca] and for [yield_farming], whose confidence 0.8 is not above
    the threshold 0.8; and ❓ for the two fallbacks, [general] with its
    confidence 0.5 included. *)
Theorem confidence_emoji_of_pattern (l : list WalletActivity) (p : TransactionPattern) :
  p ∈ analyzeTransactionPatterns l ->
  getConfidenceEmoji (confidence p) =
  if String.eqb (patternType p) "lending_active" then "🔍"
  else if String.eqb (patternType p) "dca" || String.eqb (patternType p) "yield_farming"
       then "🔎"
       else "❓".
Proof.
  intros Hp. apply analyzeTransactionPatterns_predefined in Hp.
  rewrite !elem_of_cons, elem_of_nil in Hp.
  destruct Hp as [->|[->|[->|[->|[->|[]]]]]]; reflexivity.
Qed.

Lemma confidence_emoji_of_pattern_witness :
  getConfidenceEmoji (confidence PATTERNS.YIELD_FARMING) = "🔎".
Proof.
  apply (confidence_emoji_of_pattern staking_activities PATTERNS.YIELD_FARMING).
  assert (E : analyzeTransactionPatterns staking_activities = [PATTERNS.YIELD_FARMING])
    by (vm_compute; reflexivity).
  rewrite E. apply list_elem_of_here.
Defined.
(** ** The recommendations in a report *)

Lemma recommended_nonempty `{Services}
    (acts : list WalletActivity) (profile : option WalletProfile)
    (result : list StrategyRef) :
  recommendStrategies acts profile = Some result -> result <> [].
Proof.
  destruct acts as [|a acts]; [intros [= <-]; discriminate|].
  rewrite recommendStrategies_with_activities by discriminate.
  destruct (decide (resolveRiskProfile profile ∈ Object_prototype_keys)) as [Hk|Hk].
  { apply baseStrategies_fails in Hk. rewrite Hk. discriminate. }
  rewrite baseStrategies_tiers by exact Hk.
  set (used := extractUsedProtocols (a :: acts)).
  pose proof (unmapped_strategy_kept used STAKING_SOL) as E1.
  pose proof (unmapped_strategy_kept used DIVERSIFIED_LP) as E2.
  pose proof (unmapped_strategy_kept used LEVERAGED_FARMING) as E3.
  rewrite !elem_of_cons in E1, E2, E3.
  intros [= <-].
  repeat case_match; cbn [List.filter]; rewrite ?E1, ?E2, ?E3 by tauto;
    cbn [negb]; try discriminate;
    destruct (negb (shouldExclude used _)); discriminate.
Qed.

(** X21: the recommendations of a wallet with activities are coloured like
    its profile: for each of the three risk profiles, the emoji
    [getRiskLevelEmoji] gives for the risk level of every recommended
    strategy is the emoji [RISK_EMOJI] gives for the profile in the header
    of the report. *)
Theorem recommendations_coloured_like_profile `{Services}
    (acts : list WalletActivity) (p : WalletProfile) :
  acts <> [] ->
  riskProfile p ∈ ["conservative"; "moderate"; "aggressive"] ->
  exists result,
    recommendStrategies acts (Some p) = Some result /\
    forall s, s ∈ result ->
      Some (getRiskLevelEmoji (riskLevel_name (riskLevel (STRATEGIES s)))) =
      own_property RISK_EMOJI (riskProfile p).
Proof.
  intros Hne Hp. rewrite recommendStrategies_with_activities by exact Hne.
  assert (Er : resolveRiskProfile (Some p) = riskProfile p).
  { unfold resolveRiskProfile. rewrite !elem_of_cons, elem_of_nil in Hp.
    destruct Hp as [->|[->|[->|[]]]]; reflexivity. }
  rewrite Er. rewrite !elem_of_cons, elem_of_nil in Hp.
  destruct Hp as [->|[->|[->|[]]]];
    (eexists; split; [reflexivity|]);
    intros s Hs; apply list_elem_of_In, filter_In in Hs as [Hs _];
    simpl in Hs; destruct Hs as [<-|[<-|[]]]; reflexivity.
Qed.

Lemma recommendations_coloured_like_profile_witness :
  exists result,
    @recommendStrategies table_services [marinade_activity]
      (Some conservative_profile) = Some result /\
    forall s, s ∈ result ->
      Some (getRiskLevelEmoji (riskLevel_name (riskLevel (STRATEGIES s)))) =
      own_property RISK_EMOJI (riskProfile conservative_profile).
Proof.
  apply (@recommendations_coloured_like_profile table_services
           [marinade_activity] conservative_profile).
  - discriminate.
  - apply list_elem_of_here.
Defined.

Lemma prefix_append (pre x : string) : String.prefix pre (pre +:+ x) = true.
Proof.
  induction pre as [|c pre IH].
  - now destruct x.
  - change (String c pre +:+ x) with (String c (pre +:+ x)).
    cbn [String.prefix]. now destruct (ascii_dec c c).
Qed.

Lemma Array_join_cons (separator x : string) (l : list string) :
  exists rest, Array_join separator (x :: l) = x +:+ rest.
Proof.
  destruct l as [|y l].
  - exists "". simpl. induction x as [|c x IH]; [reflexivity|].
    change (String c x = String c (x +:+ "")). f_equal. exact IH.
  - eexists. reflexivity.
Qed.

(** X22: a report never says that there are no recommendations for what
    the recommender returned: the section lists at least one strategy, so
    it begins with the heading of a strategy, not with the sentence of the
    empty case. *)
Theorem recommendations_section_lists_a_strategy `{Services}
    (acts : list WalletActivity) (profile : option WalletProfile)
    (result : list StrategyRef) :
  recommendStrategies acts profile = Some result ->
  String.prefix ("## Strategy Recommendations" +:+ newline +:+ "### ")
    (formatRecommendations (List.map STRATEGIES result)) = true /\
  formatRecommendations (List.map STRATEGIES result) <>
    "## Strategy Recommendations" +:+ newline +:+
    "No strategy recommendations available.".
Proof.
  intros E. apply recommended_nonempty in E.
  destruct result as [|s result]; [congruence|]. clear E.
  unfold formatRecommendations. cbn [List.map length].
  rewrite bool_decide_eq_false_2 by discriminate. cbv zeta.
  destruct (Array_join_cons (newline +:+ newline)
              ("### " +:+ strategy (STRATEGIES s) +:+ " " +:+
               getRiskLevelEmoji (riskLevel_name (riskLevel (STRATEGIES s))) +:+
               newline +:+ "- " +:+ strategy_description (STRATEGIES s) +:+
               newline +:+ "- Expected Return: " +:+ potentialReturn (STRATEGIES s))
              (List.map
                 (fun rec =>
                    "### " +:+ strategy rec +:+ " " +:+
                    getRiskLevelEmoji (riskLevel_name (riskLevel rec)) +:+
                    newline +:+ "- " +:+ strategy_description rec +:+
                    newline +:+ "- Expected Return: " +:+ potentialReturn rec)
                 (List.map STRATEGIES result)))
    as [rest ->].
  match goal with
  | |- String.prefix ?pre (?h +:+ ?nl +:+ ("### " +:+ ?a) +:+ ?rest) = true /\ _ =>
      assert (Hpre : String.prefix pre (h +:+ nl +:+ ("### " +:+ a) +:+ rest) = true)
        by (change (h +:+ nl +:+ ("### " +:+ a) +:+ rest) with (pre +:+ a +:+ rest);
            apply prefix_append)
  end.
  split; [exact Hpre|]. intros E. rewrite E in Hpre. vm_compute in Hpre.
  discriminate Hpre.
Qed.

Lemma recommendations_section_lists_a_strategy_witness :
  String.prefix ("## Strategy Recommendations" +:+ newline +:+ "### ")
    (formatRecommendations (List.map STRATEGIES [STAKING_SOL])) = true.
Proof.
  apply (@recommendations_section_lists_a_strategy table_services
           [marinade_activity] (Some conservative_profile) [STAKING_SOL]).
  vm_compute. reflexivity.
Defined.

(** ** The patterns in a report *)

Lemma analyzed_nonempty (l : list WalletActivity) : analyzeTransactionPatterns l <> [].
Proof.
  destruct (decide (length l < MINIMUM_TRANSACTIONS)%nat) as [Hlt|Hge].
  - unfold analyzeTransactionPatterns. rewrite bool_decide_eq_true_2 by assumption.
    discriminate.
  - rewrite analyzeTransactionPatterns_enough by lia.
    destruct (detected l) eqn:E; [discriminate|]. rewrite <- E. rewrite E. discriminate.
Qed.

(** X23: a report never says that no pattern was detected for what the
    pattern analyzer returned, whatever [toFixed] prints: the section
    begins with the heading of a pattern, since the analyzer returns a
    fallback pattern rather than an empty list. *)
Theorem patterns_section_lists_a_pattern `{NumberFormat} (l : list WalletActivity) :
  String.prefix ("## Behavioral Patterns" +:+ newline +:+ "### ")
    (formatBehavioralPatterns (analyzeTransactionPatterns l)) = true /\
  formatBehavioralPatterns (analyzeTransactionPatterns l) <>
    "## Behavioral Patterns" +:+ newline +:+
    "No significant transaction patterns detected.".
Proof.
  pose proof (analyzed_nonempty l) as Hne.
  destruct (analyzeTransactionPatterns l) as [|p ps]; [congruence|]. clear Hne.
  unfold formatBehavioralPatterns. cbn [List.map length].
  rewrite bool_decide_eq_false_2 by discriminate. cbv zeta.
  destruct (Array_join_cons (newline +:+ newline)
              ("### " +:+ patternType p +:+ " " +:+ getConfidenceEmoji (confidence p) +:+
               " (" +:+ Number_toFixed (confidence p * 100)%float 1 +:+
               "% confidence)" +:+ newline +:+ pattern_description p)
              (List.map
                 (fun pattern =>
                    "### " +:+ patternType pattern +:+ " " +:+
                    getConfidenceEmoji (confidence pattern) +:+
                    " (" +:+ Number_toFixed (confidence pattern * 100)%float 1 +:+
                    "% confidence)" +:+ newline +:+ pattern_description pattern)
                 ps))
    as [rest ->].
  match goal with
  | |- String.prefix ?pre (?h +:+ ?nl +:+ ("### " +:+ ?a) +:+ ?rest) = true /\ _ =>
      assert (Hpre : String.prefix pre (h +:+ nl +:+ ("### " +:+ a) +:+ rest) = true)
        by (change (h +:+ nl +:+ ("### " +:+ a) +:+ rest) with (pre +:+ a +:+ rest);
            apply prefix_append)
  end.
  split; [exact Hpre|]. intros E. rewrite E in Hpre. vm_compute in Hpre.
  discriminate Hpre.
Qed.

(** ** The distribution of the activity types *)

Lemma count_step_lookup (counts : gmap string nat)
    (groups : gmap string (list WalletActivity)) (a : WalletActivity) :
  (forall key, counts !! key = length <$> groups !! key) ->
  forall key,
    <[type_name (type a) :=
        (default 0 (counts !! type_name (type a)) + 1)%nat]> counts !! key =
    length <$> group_push groups a !! key.
Proof.
  intros Hinv key. unfold group_push.
  destruct (decide (key = type_name (type a))) as [->|Hne].
  - rewrite !lookup_insert_eq, Hinv.
    destruct (groups !! type_name (type a)) as [g|] eqn:Eg.
    + rewrite Eg. simpl. rewrite length_app. simpl. f_equal. 
    + rewrite lookup_insert_eq. simpl. reflexivity.
  - rewrite !lookup_insert_ne by congruence. rewrite Hinv.
    destruct (groups !! type_name (type a)); [reflexivity|].
    now rewrite lookup_insert_ne by congruence.
Qed.

Lemma count_fold_lookup (l : list WalletActivity) :
  forall (counts : gmap string nat) (groups : gmap string (list WalletActivity)),
    (forall key, counts !! key = length <$> groups !! key) ->
    forall key,
      fold_left
        (fun acc activity =>
           <[type_name (type activity) :=
               (default 0 (acc !! type_name (type activity)) + 1)%nat]> acc)
        l counts !! key =
      length <$> fold_left group_push l groups !! key.
Proof.
  induction l as [|a l IH]; intros counts groups Hinv key; simpl; [apply Hinv|].
  apply IH. now apply count_step_lookup.
Qed.

(** X24: the counts of the activity distribution of a report are the sizes
    of the groups of the pattern analyzer: a type has a count exactly when
    it has a group, and the count is the number of activities of the
    group. *)
Theorem activity_counts_are_group_sizes (l : list WalletActivity) (key : string) :
  countActivityTypes l !! key = length <$> groupActivitiesByType l !! key.
Proof.
  unfold countActivityTypes, groupActivitiesByType.
  apply count_fold_lookup. intros k. now rewrite !lookup_empty.
Qed.
(** ** The emoji of a protocol *)

Lemma prefix_chars (s : string) :
  forall sub c,
    String.prefix sub s = true ->
    In c (String.list_ascii_of_string sub) -> In c (String.list_ascii_of_string s).
Proof.
  induction s as [|b s IH]; intros [|a sub] c Hpre Hc; simpl in *;
    try contradiction; try discriminate.
  destruct (ascii_dec a b) as [->|]; [|discriminate].
  destruct Hc as [->|Hc]; [now left|right]. now apply (IH sub).
Qed.

Lemma includes_chars (s sub : string) (c : ascii) :
  includes s sub = true ->
  In c (String.list_ascii_of_string sub) -> In c (String.list_ascii_of_string s).
Proof.
  induction s as [|b s IH]; cbn [includes]; intros Hin Hc.
  - apply orb_true_iff in Hin as [Hpre|]; [|discriminate].
    now apply (prefix_chars _ sub).
  - apply orb_true_iff in Hin as [Hpre|Hin].
    + now apply (prefix_chars _ sub).
    + simpl. right. now apply IH.
Qed.

Lemma upper_char_cases (c : ascii) :
  upper_char c = c /\ ~ (97 <= nat_of_ascii c <= 122)%nat \/
  (65 <= nat_of_ascii (upper_char c) <= 90)%nat.
Proof.
  unfold upper_char.
  destruct (Nat.leb_spec 97 (nat_of_ascii c)) as [Hlo|Hlo],
    (Nat.leb_spec (nat_of_ascii c) 122) as [Hhi|Hhi];
    cbn [andb]; try (left; split; [reflexivity|lia]).
  right. rewrite nat_ascii_embedding by lia. lia.
Qed.

Lemma toUpperCase_chars (s : string) (c : ascii) :
  In c (String.list_ascii_of_string (toUpperCase s)) ->
  exists c0, In c0 (String.list_ascii_of_string s) /\ c = upper_char c0.
Proof.
  induction s as [|b s IH]; simpl; [contradiction|].
  intros [<-|Hc].
  - exists b. auto.
  - destruct (IH Hc) as (c0 & Hc0 & E). exists c0. auto.
Qed.

(** An upper-case string holds no lower-case letter, and a space only
    where the string had one. *)
Lemma toUpperCase_no_lower (s : string) (c : ascii) :
  (97 <= nat_of_ascii c <= 122)%nat ->
  ~ In c (String.list_ascii_of_string (toUpperCase s)).
Proof.
  intros Hc Hin. destruct (toUpperCase_chars s c Hin) as (c0 & _ & ->).
  destruct (upper_char_cases c0) as [[E Hn]|Hu]; [rewrite E in Hc|]; lia.
Qed.

Lemma toUpperCase_space (s : string) :
  In " "%char (String.list_ascii_of_string (toUpperCase s)) ->
  In " "%char (String.list_ascii_of_string s).
Proof.
  intros Hin. destruct (toUpperCase_chars s _ Hin) as (c0 & Hc0 & E).
  destruct (upper_char_cases c0) as [[E' _]|Hu].
  - now rewrite E, E'.
  - rewrite <- E in Hu. change (nat_of_ascii " ") with 32%nat in Hu. lia.
Qed.

Lemma getProtocolEmoji_keys (protocolName : string) :
  getProtocolEmoji protocolName =
  if includes (toUpperCase protocolName) "RAYDIUM SWAP" then "☀️"
  else if includes (toUpperCase protocolName) "ORCA SWAP" then "🐋"
  else if includes (toUpperCase protocolName) "JUPITER AGGREGATOR" then "🪐"
  else if includes (toUpperCase protocolName) "MARINADE STAKING" then "🧪"
  else if includes (toUpperCase protocolName) "SOLEND" then "💵"
  else if includes (toUpperCase protocolName) "MANGO MARKETS" then "🥭"
  else if includes (toUpperCase protocolName) "FLUXBEAM" then "⚡"
  else if includes (toUpperCase protocolName) "Aggregate" then "📊"
  else "🔹".
Proof.
  unfold getProtocolEmoji. set (upper := toUpperCase protocolName).
  cbn [List.map List.find fst PROTOCOL_EMOJI].
  change (replace_underscore "RAYDIUM_SWAP") with "RAYDIUM SWAP".
  change (replace_underscore "ORCA_SWAP") with "ORCA SWAP".
  change (replace_underscore "JUPITER_AGGREGATOR") with "JUPITER AGGREGATOR".
  change (replace_underscore "MARINADE_STAKING") with "MARINADE STAKING".
  change (replace_underscore "SOLEND") with "SOLEND".
  change (replace_underscore "MANGO_MARKETS") with "MANGO MARKETS".
  change (replace_underscore "FLUXBEAM") with "FLUXBEAM".
  change (replace_underscore "Aggregate") with "Aggregate".
  repeat (destruct (includes upper _); [reflexivity|]). reflexivity.
Qed.

(** X25: for a protocol name of ASCII characters, the emoji of the key
    [Aggregate] is never chosen, since the name is compared in upper case
    and the key is not; and for a name without a space, no key with an
    underscore matches, since the underscore of the key becomes a space
    before the comparison: such a name, as those of the table of known
    programs are, gets 💵 when it holds SOLEND, else ⚡ when it holds
    FLUXBEAM, else the default 🔹. *)
Theorem protocol_emoji_of_name (protocolName : string) :
  ascii_name protocolName ->
  getProtocolEmoji protocolName <> "📊" /\
  (~ In " "%char (String.list_ascii_of_string protocolName) ->
   getProtocolEmoji protocolName =
   if includes (toUpperCase protocolName) "SOLEND" then "💵"
   else if includes (toUpperCase protocolName) "FLUXBEAM" then "⚡"
   else "🔹").
Proof.
  intros _. rewrite getProtocolEmoji_keys.
  set (upper := toUpperCase protocolName).
  assert (Hagg : includes upper "Aggregate" = false).
  { apply not_true_iff_false. intros Hin.
    apply (toUpperCase_no_lower protocolName "g"%char);
      [change (nat_of_ascii "g") with 103%nat; lia|].
    apply (includes_chars _ _ _ Hin). simpl. tauto. }
  rewrite Hagg. split.
  - repeat (destruct (includes upper _); [discriminate|]). discriminate.
  - intros Hspace.
    assert (Hno : forall key, In " "%char (String.list_ascii_of_string key) ->
                              includes upper key = false).
    { intros key Hkey. apply not_true_iff_false. intros Hin.
      apply Hspace, toUpperCase_space. apply (includes_chars _ _ _ Hin Hkey). }
    rewrite (Hno "RAYDIUM SWAP"), (Hno "ORCA SWAP"), (Hno "JUPITER AGGREGATOR"),
      (Hno "MARINADE STAKING"), (Hno "MANGO MARKETS") by (simpl; tauto).
    reflexivity.
Qed.

Lemma protocol_emoji_of_name_witness :
  getProtocolEmoji "RAYDIUM_SWAP" <> "📊" /\
  (~ In " "%char (String.list_ascii_of_string "RAYDIUM_SWAP") ->
   getProtocolEmoji "RAYDIUM_SWAP" =
   if includes (toUpperCase "RAYDIUM_SWAP") "SOLEND" then "💵"
   else if includes (toUpperCase "RAYDIUM_SWAP") "FLUXBEAM" then "⚡"
   else "🔹").
Proof.
  apply (protocol_emoji_of_name "RAYDIUM_SWAP").
  unfold ascii_name. simpl. repeat constructor.
Defined.
